(** * LebanonDiseases.py: the data pipeline of the mumps dashboard

    A shallow embedding of the data-preparation code of
    [src/LebanonDiseases.py] (loading and normalising the case table,
    attaching coordinates, the three group-and-sum aggregates) together with
    the properties the specification states about it.

    Modelling conventions.
    - A pandas frame is its ordered column labels and its rows; a row maps a
      label to a cell.  Row labels (the index) are not modelled: every Series
      assigned to a frame below was computed from that same frame, so cells
      line up row by row.
    - Cells are text, integers, the float literals of the coordinate table
      (carried around, never computed with), timestamps and one missing
      value standing for None, NaN and NaT (what [isna] answers true on).
    - An integer cell is an int64: the sums the code forms wrap around as
      pandas' do.  A column of numbers that holds a missing cell or a
      fraction is float64 in pandas; sums over such a column are not
      followed (see [summand]).
    - Text is held as its UTF-8 bytes.  Splitting, replacing and comparing
      work on bytes as they do on characters; the digit class of the date
      format reads whole characters (see [re_digit]).
    - A Python exception is an [Err] result.
    - [add_coordinates] writes to the frame it receives, so it and its
      caller work on references into a store of frames.  The code that only
      reads a frame, or builds one that nobody else holds, is a function of
      frame values.
    - What depends on the installed pandas and Python is a parameter: the
      file system behind [read_csv], the range of timestamps, the reading of
      the words now and today, and the digits of other scripts. *)

From Stdlib Require Import List String Ascii ZArith QArith Bool Lia Permutation.
From Stdlib Require Import Sorted.
From Stdlib Require OrderedTypeEx.
From Stdlib Require Import DecimalString.
Import ListNotations.
Open Scope string_scope.
Open Scope Z_scope.

(** ** Results and exceptions *)

(** The exceptions of the code.  [DanglingReference] and [NotModelled] are
    none of them: the first is the answer of the store to a reference it
    never handed out, the second marks a computation of pandas that this
    development does not follow (a float sum, the text of a float). *)

Inductive error : Type :=
| FileNotFoundError
| ParserError
| KeyError (label : string)
| AttributeError
| ValueError
| TypeError
| DanglingReference
| NotModelled.

Inductive result (A : Type) : Type :=
| Ok (a : A)
| Err (e : error).
Arguments Ok {A} a.
Arguments Err {A} e.

Definition bind {A B : Type} (r : result A) (k : A -> result B) : result B :=
  match r with
  | Ok a => k a
  | Err e => Err e
  end.

Notation "x <- r ;; k" := (bind r (fun x => k))
  (at level 61, r at next level, right associativity).

Definition ok_or {A : Type} (d : A) (r : result A) : A :=
  match r with Ok a => a | Err _ => d end.

Definition is_ok {A : Type} (r : result A) : bool :=
  match r with Ok _ => true | Err _ => false end.

(** [Series.apply(f)]: [f] on every cell in order; the first exception ends
    the call. *)
Fixpoint series_apply {A B : Type} (f : A -> result B) (l : list A) : result (list B) :=
  match l with
  | [] => Ok []
  | x :: l' =>
      y <- f x ;;
      ys <- series_apply f l' ;;
      Ok (y :: ys)
  end.

(** ** Cells, rows and frames *)

Inductive value : Type :=
| VStr (s : string)
| VInt (z : Z)
| VFloat (q : Q)
| VTimestamp (year month : Z)
| VNA.

(** Of a timestamp the code reads the year only; the month is kept with
    it, the day and the time of day are not.  A month parsed from the
    format is its first day at midnight. *)

Definition Row : Type := list (string * value).

Record DataFrame : Type := mkDataFrame {
  columns : list string;
  rows : list Row
}.

Definition has_label (c : string) (cols : list string) : bool :=
  existsb (String.eqb c) cols.

Fixpoint lookup (c : string) (r : Row) : option value :=
  match r with
  | [] => None
  | (k, v) :: r' => if String.eqb c k then Some v else lookup c r'
  end.

(** The cell of row [r] under label [c]. *)
Definition cell (c : string) (r : Row) : value :=
  match lookup c r with
  | Some v => v
  | None => VNA
  end.

(** Writing a cell: in place when the label exists, else as a new last
    column. *)
Fixpoint set_cell (c : string) (v : value) (r : Row) : Row :=
  match r with
  | [] => [(c, v)]
  | (k, w) :: r' =>
      if String.eqb c k then (k, v) :: r' else (k, w) :: set_cell c v r'
  end.

Definition add_label (c : string) (cols : list string) : list string :=
  if has_label c cols then cols else cols ++ [c].

Fixpoint set_cells (c : string) (vs : list value) (rs : list Row) : list Row :=
  match rs, vs with
  | r :: rs', v :: vs' => set_cell c v r :: set_cells c vs' rs'
  | _, _ => rs
  end.

(** [df[c]]: the column as a Series, KeyError on an unknown label. *)
Definition getitem (df : DataFrame) (c : string) : result (list value) :=
  if has_label c (columns df) then Ok (map (cell c) (rows df))
  else Err (KeyError c).

(** [df[c] = series]. *)
Definition setitem (df : DataFrame) (c : string) (vs : list value) : DataFrame :=
  mkDataFrame (add_label c (columns df)) (set_cells c vs (rows df)).

(** [df.rename(columns={old: new})]: labels equal to [old] become [new];
    a frame without [old] is left as it is, without an exception. *)
Definition rename_label (old new c : string) : string :=
  if String.eqb c old then new else c.

Definition rename_row (old new : string) (r : Row) : Row :=
  map (fun kv : string * value => (rename_label old new (fst kv), snd kv)) r.

Definition rename (df : DataFrame) (old new : string) : DataFrame :=
  mkDataFrame
    (map (rename_label old new) (columns df))
    (map (rename_row old new) (rows df)).

(** ** Text helpers of [load_and_process_data] *)

(** [x.split(sep)] for a one-character separator. *)
Fixpoint split (sep : ascii) (s : string) : list string :=
  match s with
  | EmptyString => [EmptyString]
  | String c s' =>
      if Ascii.eqb c sep then EmptyString :: split sep s'
      else match split sep s' with
           | [] => [String c EmptyString]
           | h :: t => String c h :: t
           end
  end.

(** [l[-1]] on the list a split returns, which is never empty. *)
Definition last_item (l : list string) : string := last l EmptyString.

(** [x.replace(a, b)] for one-character [a] and [b]. *)
Fixpoint str_replace (a b : ascii) (s : string) : string :=
  match s with
  | EmptyString => EmptyString
  | String c s' => String (if Ascii.eqb c a then b else c) (str_replace a b s')
  end.

(** [lambda x: x.split('/')[-1].replace('_', ' ')]; a cell that is not text
    has no [split]. *)
Definition area_name (x : value) : result value :=
  match x with
  | VStr s => Ok (VStr (str_replace "_" " " (last_item (split "/" s))))
  | _ => Err AttributeError
  end.

(** [lambda x: x.split('/')[-1]]. *)
Definition period_segment (x : value) : result string :=
  match x with
  | VStr s => Ok (last_item (split "/" s))
  | _ => Err AttributeError
  end.

(** The alias table handed to [Series.replace]. *)
Definition REGION_ALIASES : list (string * string) :=
  [ ("North Governorate", "Tripoli");
    ("North Lebanon", "Tripoli") ].

Fixpoint assoc (k : string) (d : list (string * string)) : option string :=
  match d with
  | [] => None
  | (k', v) :: d' => if String.eqb k k' then Some v else assoc k d'
  end.

(** [Series.replace(d)] on one cell: a cell equal to a key becomes its
    value, every other cell stays. *)
Definition replace_value (d : list (string * string)) (v : value) : value :=
  match v with
  | VStr s => match assoc s d with
              | Some s' => VStr s'
              | None => v
              end
  | _ => v
  end.

(** ** The month format of [pd.to_datetime(..., format='%m-%Y')] *)

(** A digit of ASCII and its value: the characters the month group of the
    pattern is made of. *)
Definition is_digit (c : ascii) : bool :=
  let n := nat_of_ascii c in ((48 <=? n) && (n <=? 57))%nat.

Definition digit (c : ascii) : Z := Z.of_nat (nat_of_ascii c) - 48.

Definition year_of_digits (y1 y2 y3 y4 : ascii) : Z :=
  1000 * digit y1 + 100 * digit y2 + 10 * digit y3 + digit y4.

(** The character at the head of a text, as its code point, with the text
    after it: one byte below 128, or a lead byte and its continuation
    bytes.  (Text read from a file is well-formed UTF-8.) *)
Definition byte (c : ascii) : Z := Z.of_nat (nat_of_ascii c).

Fixpoint utf8_tail (k : nat) (acc : Z) (s : string) : option (Z * string) :=
  match k with
  | O => Some (acc, s)
  | S k' =>
      match s with
      | String c s' =>
          if (128 <=? byte c) && (byte c <? 192)
          then utf8_tail k' (64 * acc + (byte c - 128)) s'
          else None
      | EmptyString => None
      end
  end.

Definition utf8_head (s : string) : option (Z * string) :=
  match s with
  | EmptyString => None
  | String c s' =>
      if byte c <? 128 then Some (byte c, s')
      else if byte c <? 192 then None
      else if byte c <? 224 then utf8_tail 1 (byte c - 192) s'
      else if byte c <? 240 then utf8_tail 2 (byte c - 224) s'
      else if byte c <? 248 then utf8_tail 3 (byte c - 240) s'
      else None
  end.

Section Format.

(** The decimal digits of the scripts beyond ASCII (Unicode category Nd),
    by code point, with their value: 1632, ARABIC-INDIC DIGIT ZERO, has
    value 0.  The table is the one of the interpreter's Unicode database
    and grows with its version, so it is left open. *)
Variable unicode_decimal : Z -> option Z.

(** The value of a decimal digit, as [int] reads it. *)
Definition decimal_value (cp : Z) : option Z :=
  if cp <? 128 then
    if (48 <=? cp) && (cp <=? 57) then Some (cp - 48) else None
  else unicode_decimal cp.

(** [\d] at the head of a text: a decimal digit of any script. *)
Definition re_digit (s : string) : option (Z * string) :=
  match utf8_head s with
  | Some (cp, rest) =>
      match decimal_value cp with
      | Some d => Some (d, rest)
      | None => None
      end
  | None => None
  end.

(** The format compiles to the pattern
    [(?P<m>1[0-2]|0[1-9]|[1-9])-(?P<Y>\d\d\d\d)].  The ways its month
    group matches at the head of a text, in the order the alternatives are
    tried, each with the text it leaves. *)
Definition month_matches (s : string) : list (Z * string) :=
  match s with
  | EmptyString => []
  | String a s1 =>
      (match s1 with
       | EmptyString => []
       | String b s2 =>
           (if Ascii.eqb a "1" && is_digit b && (digit b <=? 2)
            then [(10 + digit b, s2)] else [])
           ++ (if Ascii.eqb a "0" && is_digit b && (1 <=? digit b)
               then [(digit b, s2)] else [])
       end
       ++ (if is_digit a && (1 <=? digit a) then [(digit a, s1)] else []))%list
  end.

(** The dash and the four digits of year at the head of a text. *)
Definition dash_year (s : string) : option (Z * string) :=
  match s with
  | String c s0 =>
      if Ascii.eqb c "-" then
        match re_digit s0 with
        | Some (d1, s1) =>
            match re_digit s1 with
            | Some (d2, s2) =>
                match re_digit s2 with
                | Some (d3, s3) =>
                    match re_digit s3 with
                    | Some (d4, s4) =>
                        Some (1000 * d1 + 100 * d2 + 10 * d3 + d4, s4)
                    | None => None
                    end
                | None => None
                end
            | None => None
            end
        | None => None
        end
      else None
  | EmptyString => None
  end.

(** The match of the pattern: the first month alternative after which the
    rest of the pattern matches. *)
Fixpoint first_match (months : list (Z * string)) : option (Z * Z * string) :=
  match months with
  | [] => None
  | (m, rest) :: months' =>
      match dash_year rest with
      | Some (y, tail) => Some (y, m, tail)
      | None => first_match months'
      end
  end.

(** The parse of a text against the format, as (year, month): the pattern
    has to match and to use up the text. *)
Definition strptime_mY (s : string) : option (Z * Z) :=
  match first_match (month_matches s) with
  | Some (y, m, tail) => if String.eqb tail "" then Some (y, m) else None
  | None => None
  end.

End Format.

(** Text that [to_datetime] reads as a missing date instead of matching it
    against the format: the empty string and the null tokens. *)
Definition nat_strings : list string :=
  ["NaT"; "nat"; "NAT"; "nan"; "NaN"; "NAN"].

Definition is_null_text (s : string) : bool :=
  String.eqb s "" || existsb (String.eqb s) nat_strings.

(** The two words that the format parser of pandas 2.0 and later reads as
    the current time before it tries the format. *)
Definition is_today_now (s : string) : bool :=
  String.eqb s "now" || String.eqb s "today".

(** ** Load *)

Section Load.

(** [pd.read_csv]: the table found at a path, or the exception raised for
    a missing, unreadable or unparsable file.  Parsing the file's text is
    pandas' work and is not modelled. *)
Variable read_csv : string -> result DataFrame.

(** Whether pandas can hold the first day of month [m] of year [y] in a
    Timestamp.  The range depends on the resolution the installed pandas
    picks, so it is left open. *)
Variable timestamp_in_bounds : Z -> Z -> bool.

(** The year and month of the current time, as the parser reads the words
    now and today (the clock is taken as standing still while the column
    is parsed); [None] for a pandas older than 2.0, whose parser does not
    know the two words and matches them against the format like any other
    text. *)
Variable clock : option (Z * Z).

(** The digits of other scripts, as in [re_digit]. *)
Variable unicode_decimal : Z -> option Z.

(** [pd.to_datetime(series, format='%m-%Y')] on one cell of text. *)
Definition to_datetime (s : string) : result value :=
  if is_null_text s then Ok VNA
  else match (if is_today_now s then clock else None) with
       | Some (y, m) => Ok (VTimestamp y m)
       | None =>
           match strptime_mY unicode_decimal s with
           | Some (y, m) =>
               if timestamp_in_bounds y m then Ok (VTimestamp y m)
               else Err ValueError
           | None => Err ValueError
           end
       end.

(** [.dt.year]; the accessor exists on date columns only.  (When a date is
    missing pandas stores the years of the column as floats; the numbers
    are the same and compare equal to the integers of the year slider.) *)
Definition dt_year (v : value) : result value :=
  match v with
  | VTimestamp y _ => Ok (VInt y)
  | VNA => Ok VNA
  | _ => Err AttributeError
  end.

Definition load_and_process_data (path : string) : result DataFrame :=
  df <- read_csv path ;;
  area <- getitem df "refArea" ;;
  region <- series_apply area_name area ;;
  let df := setitem df "Region" region in
  region <- getitem df "Region" ;;
  let df := setitem df "Region" (map (replace_value REGION_ALIASES) region) in
  period <- getitem df "refPeriod" ;;
  segment <- series_apply period_segment period ;;
  month_year <- series_apply to_datetime segment ;;
  let df := setitem df "Month-Year" month_year in
  month_year <- getitem df "Month-Year" ;;
  year <- series_apply dt_year month_year ;;
  let df := setitem df "Year" year in
  Ok (rename df "Number of cases" "Cases").

End Load.

(** ** Row selection, missing values, grouping and sorting *)

Definition isna (v : value) : bool :=
  match v with VNA => true | _ => false end.

(** [df[mask]]: the rows whose mask entry is true. *)
Fixpoint select_rows (mask : list bool) (rs : list Row) : list Row :=
  match rs, mask with
  | r :: rs', b :: mask' =>
      if b then r :: select_rows mask' rs' else select_rows mask' rs'
  | _, _ => []
  end.

Definition select (df : DataFrame) (mask : list bool) : DataFrame :=
  mkDataFrame (columns df) (select_rows mask (rows df)).

(** [series == year] on one cell. *)
Definition eq_int (year : Z) (v : value) : bool :=
  match v with VInt z => Z.eqb z year | _ => false end.

(** [series.isin(names)] on one cell. *)
Definition isin (names : list string) (v : value) : bool :=
  match v with VStr s => existsb (String.eqb s) names | _ => false end.

(** [df.dropna(subset=labels)]: a row goes when one of the named cells is
    missing. *)
Definition complete (labels : list string) (r : Row) : bool :=
  forallb (fun c => negb (isna (cell c r))) labels.

Definition dropna (df : DataFrame) (labels : list string) : result DataFrame :=
  match find (fun c => negb (has_label c (columns df))) labels with
  | Some c => Err (KeyError c)
  | None => Ok (mkDataFrame (columns df) (filter (complete labels) (rows df)))
  end.

(** Group keys are compared within their type: equal cells are the same key,
    and groups come out in ascending key order (text by character code). *)
Definition value_eqb (a b : value) : bool :=
  match a, b with
  | VStr s, VStr t => String.eqb s t
  | VInt x, VInt y => Z.eqb x y
  | VFloat p, VFloat q => Z.eqb (Qnum p) (Qnum q) && Pos.eqb (Qden p) (Qden q)
  | VTimestamp y m, VTimestamp y' m' => Z.eqb y y' && Z.eqb m m'
  | VNA, VNA => true
  | _, _ => false
  end.

Definition value_rank (a : value) : Z :=
  match a with
  | VInt _ => 0
  | VFloat _ => 1
  | VTimestamp _ _ => 2
  | VStr _ => 3
  | VNA => 4
  end.

Definition value_ltb (a b : value) : bool :=
  match a, b with
  | VStr s, VStr t => String.ltb s t
  | VInt x, VInt y => Z.ltb x y
  | VFloat p, VFloat q => negb (Qle_bool q p)
  | VTimestamp y m, VTimestamp y' m' => Z.ltb y y' || (Z.eqb y y' && Z.ltb m m')
  | _, _ => Z.ltb (value_rank a) (value_rank b)
  end.

Fixpoint key_eqb (k k' : list value) : bool :=
  match k, k' with
  | [], [] => true
  | a :: k1, b :: k1' => value_eqb a b && key_eqb k1 k1'
  | _, _ => false
  end.

Fixpoint key_ltb (k k' : list value) : bool :=
  match k, k' with
  | [], _ :: _ => true
  | a :: k1, b :: k1' => value_ltb a b || (value_eqb a b && key_ltb k1 k1')
  | _, _ => false
  end.

(** The key of a row under [groupby(labels)]; a row with a missing key cell
    belongs to no group. *)
Definition key_of (labels : list string) (r : Row) : option (list value) :=
  let k := map (fun c => cell c r) labels in
  if existsb isna k then None else Some k.

(** int64 arithmetic: a sum that leaves the range wraps around. *)
Definition wrap64 (z : Z) : Z := (z + 2 ^ 63) mod 2 ^ 64 - 2 ^ 63.

Definition add64 (a b : Z) : Z := wrap64 (a + b).

(** What a cell adds to the sum of an int64 column.  A column of counts
    with a missing cell or a fraction is float64 in pandas and its sums
    are rounded, and a column of text is joined: those sums are not
    followed here. *)
Definition summand (v : value) : result Z :=
  match v with
  | VInt z => Ok z
  | _ => Err NotModelled
  end.

(** One more row for the group of key [k]: rows with equal keys share a
    group, and a new group takes its place in key order. *)
Fixpoint bump (k : list value) (z : Z) (groups : list (list value * Z))
  : list (list value * Z) :=
  match groups with
  | [] => []
  | (k', z') :: rest =>
      if key_eqb k k' then (k', add64 z' z) :: rest
      else (k', z') :: bump k z rest
  end.

Fixpoint place (k : list value) (z : Z) (groups : list (list value * Z))
  : list (list value * Z) :=
  match groups with
  | [] => [(k, z)]
  | (k', z') :: rest =>
      if key_ltb k k' then (k, z) :: groups
      else (k', z') :: place k z rest
  end.

Definition has_group (k : list value) (groups : list (list value * Z)) : bool :=
  existsb (fun g => key_eqb k (fst g)) groups.

Definition group_add (k : list value) (z : Z) (groups : list (list value * Z))
  : list (list value * Z) :=
  if has_group k groups then bump k z groups else place k z groups.

Fixpoint group_rows (labels : list string) (col : string) (rs : list Row)
  (groups : list (list value * Z)) : result (list (list value * Z)) :=
  match rs with
  | [] => Ok groups
  | r :: rs' =>
      match key_of labels r with
      | None => group_rows labels col rs' groups
      | Some k =>
          z <- summand (cell col r) ;;
          group_rows labels col rs' (group_add k z groups)
      end
  end.

Definition group_row (labels : list string) (col : string) (g : list value * Z) : Row :=
  (combine labels (fst g) ++ [(col, VInt (snd g))])%list.

(** [df.groupby(labels)[col].sum()] with the keys as columns
    ([as_index=False], or [reset_index()] on the result). *)
Definition groupby_sum (df : DataFrame) (labels : list string) (col : string)
  : result DataFrame :=
  match find (fun c => negb (has_label c (columns df))) labels with
  | Some c => Err (KeyError c)
  | None =>
      if has_label col (columns df) then
        groups <- group_rows labels col (rows df) [] ;;
        Ok (mkDataFrame (labels ++ [col])%list (map (group_row labels col) groups))
      else Err (KeyError col)
  end.

(** [df.columns = labels]: new labels by position. *)
Definition set_columns (df : DataFrame) (labels : list string) : result DataFrame :=
  if Nat.eqb (List.length labels) (List.length (columns df)) then
    Ok (mkDataFrame labels (map (fun r => combine labels (map snd r)) (rows df)))
  else Err ValueError.

(** [df.sort_values(by=c, ascending=False)].  pandas leaves the order of
    rows with equal cells open; here they keep their relative order. *)
Fixpoint insert_desc (c : string) (r : Row) (sorted : list Row) : list Row :=
  match sorted with
  | [] => [r]
  | r' :: rest =>
      if value_ltb (cell c r) (cell c r') then r' :: insert_desc c r rest
      else r :: sorted
  end.

Definition sort_values_desc (df : DataFrame) (c : string) : result DataFrame :=
  if has_label c (columns df) then
    Ok (mkDataFrame (columns df) (fold_right (insert_desc c) [] (rows df)))
  else Err (KeyError c).

(** ** The coordinate table *)

Definition REGION_COORDS : list (string * (Q * Q)) :=
  [ ("Beqaa Valley", (33.8467, 35.9020)%Q);
    ("South Governorate", (33.2721, 35.2033)%Q);
    ("Beirut", (33.8938, 35.5018)%Q);
    ("Mount Lebanon", (33.8333, 35.5833)%Q);
    ("Tripoli", (34.4367, 35.8308)%Q);
    ("Nabatieh", (33.3772, 35.4839)%Q);
    ("Baalbek-Hermel", (34.1796, 36.1508)%Q);
    ("Akkar", (34.5431, 36.0771)%Q) ].

Fixpoint coords_of (s : string) (table : list (string * (Q * Q))) : option (Q * Q) :=
  match table with
  | [] => None
  | (k, p) :: table' => if String.eqb s k then Some p else coords_of s table'
  end.

(** [REGION_COORDS.get(r, (None, None))]. *)
Definition coords_get (r : value) : value * value :=
  match r with
  | VStr s => match coords_of s REGION_COORDS with
              | Some (la, lo) => (VFloat la, VFloat lo)
              | None => (VNA, VNA)
              end
  | _ => (VNA, VNA)
  end.

(** Whether a Region cell is a key of the table. *)
Definition in_table (r : value) : bool :=
  match r with
  | VStr s => existsb (String.eqb s) (map fst REGION_COORDS)
  | _ => false
  end.

(** ** Frames as shared objects *)

Definition loc : Type := nat.

(** The store: the frame held at every reference handed out so far. *)
Definition Store : Type := list DataFrame.

Definition M (A : Type) : Type := Store -> result (A * Store).

Definition ret {A : Type} (a : A) : M A := fun st => Ok (a, st).

Definition bindM {A B : Type} (m : M A) (k : A -> M B) : M B :=
  fun st =>
    match m st with
    | Ok (a, st') => k a st'
    | Err e => Err e
    end.

Notation "x <~ m ;; k" := (bindM m (fun x => k))
  (at level 61, m at next level, right associativity).

Definition raise_or {A : Type} (r : result A) : M A :=
  fun st =>
    match r with
    | Ok a => Ok (a, st)
    | Err e => Err e
    end.

Definition deref (l : loc) : M DataFrame :=
  fun st =>
    match nth_error st l with
    | Some f => Ok (f, st)
    | None => Err DanglingReference
    end.

Fixpoint store_set (l : loc) (f : DataFrame) (st : Store) : Store :=
  match st, l with
  | [], _ => []
  | _ :: st', O => f :: st'
  | g :: st', S l' => g :: store_set l' f st'
  end.

(** Writing through a reference: every holder of [l] sees the new frame. *)
Definition assign (l : loc) (f : DataFrame) : M unit :=
  fun st =>
    match nth_error st l with
    | Some _ => Ok (tt, store_set l f st)
    | None => Err DanglingReference
    end.

(** A new frame object. *)
Definition new (f : DataFrame) : M loc :=
  fun st => Ok (List.length st, (st ++ [f])%list).

(** ** Coordinates *)

(** [add_coordinates(df)]: the two column assignments write to the frame
    the caller passed; [dropna] answers with a new frame. *)
Definition add_coordinates (df : loc) : M loc :=
  f <~ deref df ;;
  region <~ raise_or (getitem f "Region") ;;
  _ <~ assign df (setitem f "lat" (map (fun r => fst (coords_get r)) region)) ;;
  f <~ deref df ;;
  region <~ raise_or (getitem f "Region") ;;
  _ <~ assign df (setitem f "lon" (map (fun r => snd (coords_get r)) region)) ;;
  f <~ deref df ;;
  out <~ raise_or (dropna f ["lat"; "lon"]) ;;
  new out.

(** ** Aggregates *)

(** [str(int)]: the decimal numeral. *)
Definition decimal (z : Z) : string := NilZero.string_of_int (Z.to_int z).

(** A cell inside an f-string. *)
Definition format_cell (v : value) : result string :=
  match v with
  | VStr s => Ok s
  | VInt z => Ok (decimal z)
  | _ => Err NotModelled
  end.

(** [int(x)] on a cell: a float loses its fraction, a missing number has
    no integer. *)
Definition int_cell (v : value) : result Z :=
  match v with
  | VInt z => Ok z
  | VFloat q => Ok (Z.quot (Qnum q) (Zpos (Qden q)))
  | VNA => Err ValueError
  | VTimestamp _ _ => Err TypeError
  | VStr _ => Err NotModelled
  end.

(** [lambda row: f"{row['Region']}: {int(row['Cases'])} total cases"]. *)
Definition hover_text (row : Row) : result value :=
  region <- format_cell (cell "Region" row) ;;
  cases <- int_cell (cell "Cases" row) ;;
  Ok (VStr (region ++ ": " ++ decimal cases ++ " total cases")).

(** [df[c] = df.apply(f, axis=1)].  On a frame without rows [apply] does
    not answer with a Series: it hands back an empty copy of the frame,
    and assigning a frame of several columns to one label raises
    ValueError.  (The frame this is used on has four columns.) *)
Definition setitem_apply (df : DataFrame) (c : string) (f : Row -> result value)
  : result DataFrame :=
  match rows df with
  | [] =>
      if (1 <? List.length (columns df))%nat then Err ValueError
      else Err NotModelled
  | _ :: _ =>
      vs <- series_apply f (rows df) ;;
      Ok (setitem df c vs)
  end.

(** [plot_bubble_map], lines 47-49: the frame the map is drawn from.  The
    figure built from it afterwards (lines 51-65) is plotly's work and is
    not followed; it takes the totals as the sizes of its circles, so the
    statements about this frame are made for counts that are not
    negative.  The function answers with the figure and this frame. *)
Definition df_total (df : loc) (year : Z) : M loc :=
  f <~ deref df ;;
  years <~ raise_or (getitem f "Year") ;;
  totals <~ raise_or
    (groupby_sum (select f (map (eq_int year) years)) ["Region"] "Cases") ;;
  t <~ new totals ;;
  shown <~ add_coordinates t ;;
  f <~ deref shown ;;
  f <~ raise_or (setitem_apply f "Hover" hover_text) ;;
  _ <~ assign shown f ;;
  ret shown.

(** [main], lines 119-120: the rows of the trend chart. *)
Definition line_df (df : DataFrame) (selected_line_regions : list string)
  : result DataFrame :=
  regions <- getitem df "Region" ;;
  groupby_sum (select df (map (isin selected_line_regions) regions))
              ["Year"; "Region"] "Cases".

(** [main], lines 159-161: the rows of the bar chart. *)
Definition region_totals_df (df : DataFrame) : result DataFrame :=
  totals <- groupby_sum df ["Region"] "Cases" ;;
  totals <- set_columns totals ["Region"; "Total Cases"] ;;
  sort_values_desc totals "Total Cases".

(** ** Derived notions used in the statements *)

(** The text of a cell, if it is text. *)
Definition is_text (v : value) : bool :=
  match v with VStr _ => true | _ => false end.

(** What the alias table does to a name. *)
Definition alias (s : string) : string :=
  match assoc s REGION_ALIASES with
  | Some t => t
  | None => s
  end.

(** A text without the character [c]. *)
Fixpoint free_of (c : ascii) (s : string) : bool :=
  match s with
  | EmptyString => true
  | String a s' => negb (Ascii.eqb a c) && free_of c s'
  end.

(** [full] names the segment [seg] as its last path component. *)
Definition ends_with_segment (full seg : string) : Prop :=
  free_of "/" seg = true /\
  (full = seg \/ exists prefix, full = prefix ++ String "/" seg).

(** A period segment written MM-YYYY: two digits of month from 01 to 12,
    a dash, four digits of year. *)
Definition MM_YYYY (m1 m2 y1 y2 y3 y4 : ascii) : string :=
  String m1 (String m2 (String "-"
    (String y1 (String y2 (String y3 (String y4 EmptyString)))))).

Definition valid_MM_YYYY (m1 m2 y1 y2 y3 y4 : ascii) : bool :=
  is_digit m1 && is_digit m2
  && (1 <=? 10 * digit m1 + digit m2) && (10 * digit m1 + digit m2 <=? 12)
  && is_digit y1 && is_digit y2 && is_digit y3 && is_digit y4.

(** The integer in a cell (0 for anything else), and the total of a column. *)
Definition int_of (v : value) : Z :=
  match v with VInt z => z | _ => 0 end.

Definition column_sum (c : string) (rs : list Row) : Z :=
  fold_right (fun r acc => int_of (cell c r) + acc) 0 rs.

(** The magnitudes of a column added up. *)
Definition column_abs_sum (c : string) (rs : list Row) : Z :=
  fold_right (fun r acc => Z.abs (int_of (cell c r)) + acc) 0 rs.

(** The counts of a frame stay within int64: their magnitudes add up to
    less than 2^63, so the total of no part of the records wraps around. *)
Definition sums_fit (df : DataFrame) : bool :=
  column_abs_sum "Cases" (rows df) <? 2 ^ 63.

(** No count is negative: the totals can be the sizes of the circles of
    the map. *)
Definition counts_nonneg (df : DataFrame) : bool :=
  forallb (fun r => 0 <=? int_of (cell "Cases" r)) (rows df).

(** The range of an int64 count.  The least int64 is left out: it doubles
    as pandas' marker of a missing date. *)
Definition int64 (z : Z) : bool := (- 2 ^ 63 <? z) && (z <? 2 ^ 63).

(** Every count of a frame is an int64. *)
Definition int64_counts (df : DataFrame) : bool :=
  forallb (fun r => int64 (int_of (cell "Cases" r))) (rows df).

(** A normalised case record: text Region, integer Year and Cases. *)
Definition is_case_record (r : Row) : bool :=
  match cell "Region" r, cell "Year" r, cell "Cases" r with
  | VStr _, VInt _, VInt _ => true
  | _, _, _ => false
  end.

(** A frame of case records. *)
Definition case_records (df : DataFrame) : bool :=
  has_label "Region" (columns df) && has_label "Year" (columns df)
  && has_label "Cases" (columns df) && forallb is_case_record (rows df).

(** Every row carries exactly the frame's labels. *)
Definition rectangular (df : DataFrame) : bool :=
  forallb
    (fun r => if list_eq_dec string_dec (map fst r) (columns df) then true else false)
          (rows df).

(** A row the load accepts by the letter of the input contract: a text
    refArea, and a text refPeriod whose last segment is a month of the
    format that pandas can hold. *)
Definition row_valid (unicode_decimal : Z -> option Z)
    (timestamp_in_bounds : Z -> Z -> bool) (r : Row) : bool :=
  is_text (cell "refArea" r)
  && match cell "refPeriod" r with
     | VStr period =>
         match strptime_mY unicode_decimal (last_item (split "/" period)) with
         | Some (y, m) => timestamp_in_bounds y m
         | None => false
         end
     | _ => false
     end.

Section LoadRowwise.

Variable timestamp_in_bounds : Z -> Z -> bool.
Variable clock : option (Z * Z).
Variable unicode_decimal : Z -> option Z.

(** The three derived cells of one input row, when every step succeeds. *)
Definition region_of (r : Row) : value :=
  replace_value REGION_ALIASES (ok_or VNA (area_name (cell "refArea" r))).

Definition month_year_of (r : Row) : result value :=
  seg <- period_segment (cell "refPeriod" r) ;;
  to_datetime timestamp_in_bounds clock unicode_decimal seg.

Definition year_of (r : Row) : value :=
  ok_or VNA (dt_year (ok_or VNA (month_year_of r))).

Definition loaded_row (r : Row) : Row :=
  rename_row "Number of cases" "Cases"
    (set_cell "Year" (year_of r)
       (set_cell "Month-Year" (ok_or VNA (month_year_of r))
          (set_cell "Region" (region_of r) r))).

Definition loaded (raw : DataFrame) : DataFrame :=
  mkDataFrame
    (map (rename_label "Number of cases" "Cases")
         (add_label "Year" (add_label "Month-Year" (add_label "Region" (columns raw)))))
    (map loaded_row (rows raw)).

(** The rows and tables on which no step of the load raises. *)
Definition row_loadable (r : Row) : bool :=
  is_text (cell "refArea" r) && is_ok (month_year_of r).

Definition loadable (raw : DataFrame) : bool :=
  has_label "refArea" (columns raw) && has_label "refPeriod" (columns raw)
  && forallb row_loadable (rows raw).

End LoadRowwise.

(** ** Sample inputs *)

(** The two rows of the specification's example, as the file of the
    dashboard would hold them. *)
Definition example_table : DataFrame :=
  mkDataFrame ["refArea"; "refPeriod"; "Number of cases"]
    [ [ ("refArea", VStr "http://data/area/Beqaa_Valley");
        ("refPeriod", VStr "http://data/period/01-2019");
        ("Number of cases", VInt 5) ];
      [ ("refArea", VStr "http://data/area/North_Lebanon");
        ("refPeriod", VStr "http://data/period/01-2019");
        ("Number of cases", VInt 3) ] ].

(** A file system holding one table at the dashboard's path. *)
Definition one_file (table : DataFrame) (path : string) : result DataFrame :=
  if String.eqb path "MumpsLeb.csv" then Ok table else Err FileNotFoundError.

(** The years that fit a nanosecond timestamp whatever the month. *)
Definition ns_bounds (y m : Z) : bool := (1678 <=? y) && (y <=? 2261).

(** A pandas that reads now and today as the current time, in June 2025. *)
Definition june_2025 : option (Z * Z) := Some (2025, 6).

(** The Arabic-Indic digits, code points 1632 to 1641. *)
Definition arabic_indic (cp : Z) : option Z :=
  if (1632 <=? cp) && (cp <=? 1641) then Some (cp - 1632) else None.

(** A table without the refArea column, every period well written. *)
Definition no_area_table : DataFrame :=
  mkDataFrame ["refPeriod"; "Number of cases"]
    [ [ ("refPeriod", VStr "http://data/period/01-2019");
        ("Number of cases", VInt 5) ] ].

(** A table whose one period path ends in a slash: its last segment is
    empty. *)
Definition open_period_table : DataFrame :=
  mkDataFrame ["refArea"; "refPeriod"; "Number of cases"]
    [ [ ("refArea", VStr "http://data/area/Beirut");
        ("refPeriod", VStr "http://data/period/");
        ("Number of cases", VInt 5) ] ].

(** The year 2019 in Arabic-Indic digits, as UTF-8 bytes. *)
Definition arabic_2019 : string :=
  String "217" (String "162" (String "217" (String "160"
    (String "217" (String "161" (String "217" (String "169" EmptyString))))))).

(** A table whose periods are written in four ways: a month of the format,
    the word now, a year in Arabic-Indic digits, and nothing. *)
Definition periods_table : DataFrame :=
  mkDataFrame ["refArea"; "refPeriod"; "Number of cases"]
    [ [ ("refArea", VStr "http://data/area/Beirut");
        ("refPeriod", VStr "http://data/period/01-2019");
        ("Number of cases", VInt 5) ];
      [ ("refArea", VStr "http://data/area/Beirut");
        ("refPeriod", VStr "http://data/period/now");
        ("Number of cases", VInt 1) ];
      [ ("refArea", VStr "http://data/area/Beirut");
        ("refPeriod", VStr ("http://data/period/03-" ++ arabic_2019));
        ("Number of cases", VInt 2) ];
      [ ("refArea", VStr "http://data/area/Beirut");
        ("refPeriod", VStr "http://data/period/");
        ("Number of cases", VInt 3) ] ].

(** A table naming a region the coordinate table does not know. *)
Definition outside_table : DataFrame :=
  mkDataFrame ["refArea"; "refPeriod"; "Number of cases"]
    [ [ ("refArea", VStr "http://data/area/Keserwan-Jbeil");
        ("refPeriod", VStr "http://data/period/03-2018");
        ("Number of cases", VInt 2) ] ].

(** A table whose count column is already called Cases. *)
Definition cases_table : DataFrame :=
  mkDataFrame ["refArea"; "refPeriod"; "Cases"]
    [ [ ("refArea", VStr "http://data/area/Beirut");
        ("refPeriod", VStr "http://data/period/03-2018");
        ("Cases", VInt 2) ] ].

(** A table with no count column at all. *)
Definition countless_table : DataFrame :=
  mkDataFrame ["refArea"; "refPeriod"]
    [ [ ("refArea", VStr "http://data/area/Beirut");
        ("refPeriod", VStr "http://data/period/03-2018") ] ].

(** ** Row-wise views of the coordinate step *)

(** A row with its two coordinate cells written. *)
Definition with_coords (r : Row) : Row :=
  set_cell "lon" (snd (coords_get (cell "Region" r)))
    (set_cell "lat" (fst (coords_get (cell "Region" r))) r).

(** The frame [add_coordinates] leaves at the reference it was given. *)
Definition with_coords_frame (f : DataFrame) : DataFrame :=
  mkDataFrame (add_label "lon" (add_label "lat" (columns f)))
              (map with_coords (rows f)).

(** A row of the map frame with its hover text written. *)
Definition with_hover (r : Row) : Row :=
  set_cell "Hover" (ok_or VNA (hover_text r)) r.

(** A frame of regional totals, as [plot_bubble_map] hands one over. *)
Definition totals_example : DataFrame :=
  mkDataFrame ["Region"; "Cases"]
    [ [("Region", VStr "Beqaa Valley"); ("Cases", VInt 5)];
      [("Region", VStr "Keserwan-Jbeil"); ("Cases", VInt 2)];
      [("Region", VStr "Tripoli"); ("Cases", VInt 3)] ].

(** ** Views of a grouping *)

(** The total recorded for key [k]. *)
Fixpoint glookup (k : list value) (g : list (list value * Z)) : option Z :=
  match g with
  | [] => None
  | (k', z) :: g' => if key_eqb k k' then Some z else glookup k g'
  end.

(** The pooled total of the groups whose key satisfies [P]. *)
Definition gsum (P : list value -> bool) (g : list (list value * Z)) : Z :=
  fold_right (fun e acc => (if P (fst e) then snd e else 0) + acc) 0 g.

(** The magnitudes of the totals added up. *)
Definition gabs (g : list (list value * Z)) : Z :=
  fold_right (fun e acc => Z.abs (snd e) + acc) 0 g.

(** Whether a row has a key satisfying [P]. *)
Definition keyed (labels : list string) (P : list value -> bool) (r : Row) : bool :=
  match key_of labels r with
  | Some k => P k
  | None => false
  end.

Definition zero_or (o : option Z) : Z :=
  match o with Some z => z | None => 0 end.

(** Row tests used in the statements. *)
Definition region_is (s : string) (r : Row) : bool :=
  match cell "Region" r with VStr t => String.eqb t s | _ => false end.

Definition year_is (y : Z) (r : Row) : bool := eq_int y (cell "Year" r).

Definition known_region (r : Row) : bool := in_table (cell "Region" r).

(** Case records of three regions over two years; one region is unknown to
    the coordinate table. *)
Definition case_row (region : string) (year cases : Z) : Row :=
  [("Region", VStr region); ("Year", VInt year); ("Cases", VInt cases)].

Definition records_example : DataFrame :=
  mkDataFrame ["Region"; "Year"; "Cases"]
    [ case_row "Tripoli" 2019 3;
      case_row "Beqaa Valley" 2019 5;
      case_row "Keserwan-Jbeil" 2019 2;
      case_row "Tripoli" 2020 4;
      case_row "Tripoli" 2019 10 ].

(** Records of one region spread over two years. *)
Definition one_region_example : DataFrame :=
  mkDataFrame ["Region"; "Year"; "Cases"]
    [ case_row "Beirut" 2018 4;
      case_row "Beirut" 2019 6;
      case_row "Beirut" 2018 1 ].

(** A row of the bar chart. *)
Definition total_row (e : list value * Z) : Row :=
  [("Region", hd VNA (fst e)); ("Total Cases", VInt (snd e))].

(** ** The other frames and values [main] computes *)

(** [main] also indexes into lists and arrays, which raises IndexError on an
    empty one. *)
Inductive exn : Type :=
| Raised (e : error)
| IndexError.

Inductive answer (A : Type) : Type :=
| Value (a : A)
| Exception (x : exn).
Arguments Value {A} a.
Arguments Exception {A} x.

Definition and_then {A B : Type} (m : answer A) (k : A -> answer B) : answer B :=
  match m with
  | Value a => k a
  | Exception x => Exception x
  end.

Definition of_result {A : Type} (r : result A) : answer A :=
  match r with
  | Ok a => Value a
  | Err e => Exception (Raised e)
  end.

Notation "x <== m ;; k" := (and_then m (fun x => k))
  (at level 61, m at next level, right associativity).

(** [l[0]]. *)
Definition first_item {A : Type} (l : list A) : answer A :=
  match l with
  | x :: _ => Value x
  | [] => Exception IndexError
  end.

(** [series.unique()]: the distinct cells, in the order they first appear. *)
Fixpoint unique (vs : list value) : list value :=
  match vs with
  | [] => []
  | v :: vs' => v :: filter (fun w => negb (value_eqb w v)) (unique vs')
  end.

(** [sorted(...)]: ascending, equal items in their given order.  (A list
    holding a missing number has no order Python's comparisons agree on; the
    properties below are about lists of integers or of text.) *)
Fixpoint insert_asc (v : value) (sorted : list value) : list value :=
  match sorted with
  | [] => [v]
  | w :: rest => if value_ltb w v then w :: insert_asc v rest else v :: sorted
  end.

Definition sorted (vs : list value) : list value := fold_right insert_asc [] vs.

(** [main], line 75: the options of the year slider. *)
Definition years (df : DataFrame) : result (list value) :=
  ys <- getitem df "Year" ;;
  Ok (sorted (unique ys)).

(** [main], line 82: the slider starts at [years[0]]. *)
Definition first_year (df : DataFrame) : answer value :=
  ys <== of_result (years df) ;;
  first_item ys.

(** [main], line 112: the options of the region selector. *)
Definition available_regions (df : DataFrame) : result (list value) :=
  rs <- getitem df "Region" ;;
  Ok (sorted (unique rs)).

(** [main], line 92: the totals per region, largest first.  The Series
    indexed by region is a frame of two columns here. *)
Definition total_by_region (df : DataFrame) : result DataFrame :=
  totals <- groupby_sum df ["Region"] "Cases" ;;
  sort_values_desc totals "Cases".

(** [main], lines 93-94: [total_by_region.index[0]] and
    [int(total_by_region.iloc[0])]. *)
Definition top_region (df : DataFrame) : answer value :=
  totals <== of_result (total_by_region df) ;;
  r <== first_item (rows totals) ;;
  Value (cell "Region" r).

Definition total_cases (df : DataFrame) : answer value :=
  totals <== of_result (total_by_region df) ;;
  r <== first_item (rows totals) ;;
  Value (cell "Cases" r).

(** [series == region] on one cell, for a text [region]. *)
Definition eq_text (s : string) (v : value) : bool :=
  match v with VStr t => String.eqb t s | _ => false end.

(** [series == x] on one cell, for a number [x] that may be missing: a
    missing number equals nothing. *)
Definition eq_scalar (x : value) (v : value) : bool :=
  match x with
  | VNA => false
  | _ => value_eqb v x
  end.

(** [mask1 & mask2]. *)
Fixpoint mask_and (m1 m2 : list bool) : list bool :=
  match m1, m2 with
  | a :: m1', b :: m2' => (a && b) :: mask_and m1' m2'
  | _, _ => []
  end.

(** [series.max()]: missing cells are skipped, and nothing at all gives a
    missing value. *)
Definition series_max (vs : list value) : value :=
  fold_right
    (fun v acc =>
       if isna v then acc
       else if isna acc then v
       else if value_ltb acc v then v else acc)
    VNA vs.

(** [main], line 144: the last year the trend chart has for a region. *)
Definition latest_year (line_df : DataFrame) (region : string) : result value :=
  regions <- getitem line_df "Region" ;;
  ys <- getitem (select line_df (map (eq_text region) regions)) "Year" ;;
  Ok (series_max ys).

(** [main], line 145: the total of that year, [...['Cases'].values[0]]. *)
Definition latest_value (line_df : DataFrame) (region : string) (year : value)
  : answer value :=
  regions <== of_result (getitem line_df "Region") ;;
  ys <== of_result (getitem line_df "Year") ;;
  cases <== of_result
    (getitem (select line_df
                (mask_and (map (eq_text region) regions) (map (eq_scalar year) ys)))
             "Cases") ;;
  first_item cases.

(** [main], line 149: the text written at the end of a line. *)
Definition label_text (region : string) : string :=
  if String.eqb region "Beqaa Valley" then "Beqaa" else region.

(** [main], lines 143-153: where the label of a region goes, and its text. *)
Definition annotation (line_df : DataFrame) (region : string)
  : answer (value * value * string) :=
  y <== of_result (latest_year line_df region) ;;
  v <== latest_value line_df region y ;;
  Value (y, v, label_text region).

(** The loop over the selected regions: the first exception ends it. *)
Fixpoint annotations (line_df : DataFrame) (regions : list string)
  : answer (list (value * value * string)) :=
  match regions with
  | [] => Value []
  | region :: rest =>
      a <== annotation line_df region ;;
      others <== annotations line_df rest ;;
      Value (a :: others)
  end.

(** ** More notions used in the statements *)

Definition is_int (v : value) : bool :=
  match v with VInt _ => true | _ => false end.

(** A header and nothing under it. *)
Definition header_only : DataFrame :=
  mkDataFrame ["refArea"; "refPeriod"; "Number of cases"] [].

(** Text and integers: the cells a key of case records is made of. *)
Definition plain (v : value) : bool := is_text v || is_int v.

Definition plain_key (k : list value) : bool := forallb plain k.

Definition text_of (v : value) : string :=
  match v with VStr s => s | _ => EmptyString end.

(** The order of the trend rows: by year, then by region name. *)
Definition year_region_before (r r' : Row) : Prop :=
  int_of (cell "Year" r) < int_of (cell "Year" r') \/
  (int_of (cell "Year" r) = int_of (cell "Year" r') /\
   String.ltb (text_of (cell "Region" r)) (text_of (cell "Region" r')) = true).

(** The order of the map rows: by region name. *)
Definition region_before (r r' : Row) : Prop :=
  String.ltb (text_of (cell "Region" r)) (text_of (cell "Region" r')) = true.

(** The order of the bar rows: larger totals first. *)
Definition total_not_below (c : string) (r r' : Row) : Prop :=
  int_of (cell c r') <= int_of (cell c r).

(** Groups in ascending key order. *)
Definition group_before (e e' : list value * Z) : Prop :=
  key_ltb (fst e) (fst e') = true.

Definition plain_group (e : list value * Z) : Prop := plain_key (fst e) = true.

(** A row of the map frame and a row of the bar frame. *)
Definition map_row (s : string) (t : Z) (la lo : Q) : Row :=
  [("Region", VStr s); ("Cases", VInt t); ("lat", VFloat la); ("lon", VFloat lo);
   ("Hover", VStr (s ++ ": " ++ decimal t ++ " total cases"))].

Definition bar_row (s : string) (t : Z) : Row :=
  [("Region", VStr s); ("Total Cases", VInt t)].

Definition trend_row (y : Z) (s : string) (t : Z) : Row :=
  [("Year", VInt y); ("Region", VStr s); ("Cases", VInt t)].

Definition value_before (a b : value) : Prop := value_ltb a b = true.

(** Records as the load returns them when some period is left open: text
    Region, integer Cases, and a Year that is an integer or missing. *)
Definition is_open_record (r : Row) : bool :=
  match cell "Region" r, cell "Year" r, cell "Cases" r with
  | VStr _, VInt _, VInt _ => true
  | VStr _, VNA, VInt _ => true
  | _, _, _ => false
  end.

Definition open_records (df : DataFrame) : bool :=
  has_label "Region" (columns df) && has_label "Year" (columns df)
  && has_label "Cases" (columns df) && forallb is_open_record (rows df).

(** Records of which one has no year. *)
Definition gappy_example : DataFrame :=
  mkDataFrame ["Region"; "Year"; "Cases"]
    [ case_row "Beirut" 2018 4;
      [("Region", VStr "Beirut"); ("Year", VNA); ("Cases", VInt 6)];
      case_row "Tripoli" 2018 1 ].

(** Counts that leave int64 when added up. *)
Definition overflow_example : DataFrame :=
  mkDataFrame ["Region"; "Year"; "Cases"]
    [ case_row "Beirut" 2019 (2 ^ 63 - 1);
      case_row "Beirut" 2020 1;
      case_row "Akkar" 2019 4 ].

(** * Properties *)

(** ** Cells and rows *)

Lemma lookup_set_cell_same (c : string) (v : value) (r : Row) :
  lookup c (set_cell c v r) = Some v.
Proof.
  induction r as [|[k w] r IH]; simpl.
  - now rewrite String.eqb_refl.
  - destruct (String.eqb c k) eqn:E; simpl; rewrite E; auto.
Qed.

Lemma lookup_set_cell_other (c c' : string) (v : value) (r : Row) :
  c <> c' -> lookup c (set_cell c' v r) = lookup c r.
Proof.
  intros N. induction r as [|[k w] r IH]; simpl.
  - apply String.eqb_neq in N. now rewrite N.
  - destruct (String.eqb c' k) eqn:E; simpl.
    + apply String.eqb_eq in E. subst k.
      apply String.eqb_neq in N. now rewrite N.
    + now rewrite IH.
Qed.

Lemma cell_set_cell_same (c : string) (v : value) (r : Row) :
  cell c (set_cell c v r) = v.
Proof. unfold cell. now rewrite lookup_set_cell_same. Qed.

Lemma cell_set_cell_other (c c' : string) (v : value) (r : Row) :
  c <> c' -> cell c (set_cell c' v r) = cell c r.
Proof. intros N. unfold cell. now rewrite lookup_set_cell_other. Qed.

Lemma set_cell_twice (c : string) (v w : value) (r : Row) :
  set_cell c w (set_cell c v r) = set_cell c w r.
Proof.
  induction r as [|[k u] r IH]; simpl.
  - now rewrite String.eqb_refl.
  - destruct (String.eqb c k) eqn:E; simpl; rewrite E; [reflexivity | now rewrite IH].
Qed.

Lemma set_cells_map (c : string) (g : Row -> value) (rs : list Row) :
  set_cells c (map g rs) rs = map (fun r => set_cell c (g r) r) rs.
Proof. induction rs as [|r rs IH]; simpl; [reflexivity | now rewrite IH]. Qed.

(** A column computed from the rows [rs] and written to rows [rs'] that
    were themselves computed from [rs]. *)
Lemma set_cells_map2 (c : string) (g : Row -> value) (h : Row -> Row) (rs : list Row) :
  set_cells c (map g rs) (map h rs) = map (fun r => set_cell c (g r) (h r)) rs.
Proof. induction rs as [|r rs IH]; simpl; [reflexivity | now rewrite IH]. Qed.

Lemma has_label_In (c : string) (cols : list string) :
  has_label c cols = true <-> In c cols.
Proof.
  unfold has_label. rewrite existsb_exists. split.
  - intros (x & Hx & E). apply String.eqb_eq in E. now subst.
  - intros H. exists c. split; [assumption | apply String.eqb_refl].
Qed.

Lemma has_label_add_same (c : string) (cols : list string) :
  has_label c (add_label c cols) = true.
Proof.
  unfold add_label. destruct (has_label c cols) eqn:E; [assumption|].
  apply has_label_In, in_or_app. right. now left.
Qed.

Lemma has_label_add_other (c c' : string) (cols : list string) :
  c <> c' -> has_label c (add_label c' cols) = has_label c cols.
Proof.
  intros N. unfold add_label. destruct (has_label c' cols); [reflexivity|].
  unfold has_label. rewrite existsb_app. simpl.
  apply String.eqb_neq in N. rewrite N. now rewrite !orb_false_r.
Qed.

Lemma lookup_rename_other (old new c : string) (r : Row) :
  c <> old -> c <> new -> lookup c (rename_row old new r) = lookup c r.
Proof.
  intros N1 N2. induction r as [|[k w] r IH]; simpl; [reflexivity|].
  unfold rename_label at 1. destruct (String.eqb k old) eqn:E.
  - apply String.eqb_eq in E. subst k.
    apply String.eqb_neq in N1, N2. now rewrite N1, N2.
  - now rewrite IH.
Qed.

Lemma cell_rename_other (old new c : string) (r : Row) :
  c <> old -> c <> new -> cell c (rename_row old new r) = cell c r.
Proof. intros. unfold cell. now rewrite lookup_rename_other. Qed.

(** Renaming a label no row carries changes nothing. *)
Lemma rename_row_absent (old new : string) (r : Row) :
  ~ In old (map fst r) -> rename_row old new r = r.
Proof.
  induction r as [|[k w] r IH]; simpl; intros N; [reflexivity|].
  unfold rename_label at 1. destruct (String.eqb_spec k old) as [->|_].
  - exfalso. apply N. now left.
  - fold (rename_row old new r). rewrite IH; [reflexivity | tauto].
Qed.

Lemma rename_labels_absent (old new : string) (cols : list string) :
  ~ In old cols -> map (rename_label old new) cols = cols.
Proof.
  induction cols as [|k cols IH]; simpl; intros N; [reflexivity|].
  unfold rename_label at 1. destruct (String.eqb_spec k old) as [->|_].
  - exfalso. apply N. now left.
  - rewrite IH; [reflexivity | tauto].
Qed.

Lemma keys_set_cell (c : string) (v : value) (r : Row) :
  map fst (set_cell c v r) = add_label c (map fst r).
Proof.
  unfold add_label, has_label.
  induction r as [|[k w] r IH]; simpl; [reflexivity|].
  destruct (String.eqb c k) eqn:E; simpl; [reflexivity|].
  rewrite IH. now destruct (existsb (String.eqb c) (map fst r)).
Qed.

(** ** [Series.apply] *)

Lemma series_apply_ok {A B : Type} (d : B) (f : A -> result B) (l : list A) :
  forallb (fun x => is_ok (f x)) l = true ->
  series_apply f l = Ok (map (fun x => ok_or d (f x)) l).
Proof.
  induction l as [|x l IH]; simpl; [reflexivity|].
  intros H. apply andb_true_iff in H as [Hx Hl].
  destruct (f x); [|discriminate]. simpl. now rewrite IH.
Qed.

Lemma series_apply_fail {A B : Type} (f : A -> result B) (l : list A) :
  forallb (fun x => is_ok (f x)) l = false ->
  exists e, series_apply f l = Err e.
Proof.
  induction l as [|x l IH]; simpl; [discriminate|].
  intros H. destruct (f x) as [y|e]; simpl in *; [|now exists e].
  destruct (IH H) as [e He]. rewrite He. now exists e.
Qed.

Lemma forallb_map {A B : Type} (p : B -> bool) (g : A -> B) (l : list A) :
  forallb p (map g l) = forallb (fun x => p (g x)) l.
Proof. induction l as [|x l IH]; simpl; [reflexivity | now rewrite IH]. Qed.

Lemma forallb_ext_in {A : Type} (p q : A -> bool) (l : list A) :
  (forall x, In x l -> p x = q x) -> forallb p l = forallb q l.
Proof.
  induction l as [|x l IH]; simpl; intros H; [reflexivity|].
  rewrite H by now left. rewrite IH; [reflexivity|]. intros; apply H; now right.
Qed.

Lemma forallb_In {A : Type} (p : A -> bool) (l : list A) (x : A) :
  forallb p l = true -> In x l -> p x = true.
Proof. intros H. rewrite forallb_forall in H. apply H. Qed.

Lemma series_apply_rows {A B : Type} (d : B) (f : A -> result B)
    (g : Row -> A) (rs : list Row) :
  (forall r, In r rs -> is_ok (f (g r)) = true) ->
  series_apply f (map g rs) = Ok (map (fun r => ok_or d (f (g r))) rs).
Proof.
  intros H. rewrite (series_apply_ok d), map_map; [reflexivity|].
  rewrite forallb_map. apply forallb_forall. exact H.
Qed.

Lemma series_apply_rows_fail {A B : Type} (f : A -> result B)
    (g : Row -> A) (rs : list Row) (r : Row) :
  In r rs -> is_ok (f (g r)) = false ->
  exists e, series_apply f (map g rs) = Err e.
Proof.
  intros Hin Hr. apply series_apply_fail.
  destruct (forallb _ _) eqn:E; [|reflexivity].
  rewrite forallb_map in E. apply (forallb_In _ _ r) in E; [congruence | assumption].
Qed.

Lemma getitem_rows (cols : list string) (h : Row -> Row) (rs : list Row) (c : string) :
  getitem (mkDataFrame cols (map h rs)) c =
  if has_label c cols then Ok (map (fun r => cell c (h r)) rs) else Err (KeyError c).
Proof. unfold getitem. simpl. now rewrite map_map. Qed.

Lemma setitem_rows (cols : list string) (h : Row -> Row) (rs : list Row)
    (c : string) (g : Row -> value) :
  setitem (mkDataFrame cols (map h rs)) c (map g rs) =
  mkDataFrame (add_label c cols) (map (fun r => set_cell c (g r) (h r)) rs).
Proof. unfold setitem. simpl. now rewrite set_cells_map2. Qed.

Lemma setitem_rows0 (cols : list string) (rs : list Row) (c : string) (g : Row -> value) :
  setitem (mkDataFrame cols rs) c (map g rs) =
  mkDataFrame (add_label c cols) (map (fun r => set_cell c (g r) r) rs).
Proof. unfold setitem. simpl. now rewrite set_cells_map. Qed.

Lemma add_label_twice (c : string) (cols : list string) :
  add_label c (add_label c cols) = add_label c cols.
Proof. unfold add_label at 1. now rewrite has_label_add_same. Qed.

(** ** The load, row by row *)

Section LoadFacts.

Variable read_csv : string -> result DataFrame.
Variable timestamp_in_bounds : Z -> Z -> bool.
Variable clock : option (Z * Z).
Variable unicode_decimal : Z -> option Z.

Local Abbreviation load :=
  (load_and_process_data read_csv timestamp_in_bounds clock unicode_decimal).
Local Abbreviation to_dt := (to_datetime timestamp_in_bounds clock unicode_decimal).

Lemma is_ok_area_name (v : value) : is_ok (area_name v) = is_text v.
Proof. now destruct v. Qed.

Lemma dt_year_to_datetime (s : string) (v : value) :
  to_dt s = Ok v -> is_ok (dt_year v) = true.
Proof.
  unfold to_datetime. destruct (is_null_text s).
  - intros [= <-]. reflexivity.
  - destruct (if is_today_now s then clock else None) as [[y m]|].
    + intros [= <-]. reflexivity.
    + destruct (strptime_mY unicode_decimal s) as [[y m]|]; [|discriminate].
      destruct (timestamp_in_bounds y m); [|discriminate].
      intros [= <-]. reflexivity.
Qed.

Lemma load_read_fail (path : string) (e : error) :
  read_csv path = Err e -> load path = Err e.
Proof. intros H. unfold load_and_process_data. now rewrite H. Qed.

Lemma load_ok (path : string) (raw : DataFrame) :
  read_csv path = Ok raw ->
  loadable timestamp_in_bounds clock unicode_decimal raw = true ->
  load path = Ok (loaded timestamp_in_bounds clock unicode_decimal raw).
Proof.
  intros Hread Hl. unfold loadable in Hl.
  apply andb_true_iff in Hl as [Hl Hrows]. apply andb_true_iff in Hl as [Ha Hp].
  assert (Hrow : forall r, In r (rows raw) ->
            is_text (cell "refArea" r) = true /\
            is_ok (month_year_of timestamp_in_bounds clock unicode_decimal r) = true).
  { intros r Hr. apply (forallb_In _ _ r) in Hrows; [|assumption].
    now apply andb_true_iff in Hrows. }
  unfold load_and_process_data. rewrite Hread. simpl.
  destruct raw as [cols rs]. simpl in *.
  rewrite <- (map_id rs) at 1.
  rewrite getitem_rows, Ha. simpl.
  rewrite (series_apply_rows VNA).
  2:{ intros r Hr. rewrite is_ok_area_name. now apply Hrow. }
  simpl. rewrite setitem_rows0.
  set (h1 := fun r : Row => set_cell "Region" (ok_or VNA (area_name (cell "refArea" r))) r).
  rewrite getitem_rows, has_label_add_same. simpl.
  rewrite map_map, setitem_rows, add_label_twice.
  set (h2 := fun r : Row => set_cell "Region" _ (h1 r)).
  rewrite getitem_rows, has_label_add_other, Hp by discriminate.
  simpl.
  assert (Hseg : forall r, In r rs ->
            exists p, cell "refPeriod" r = VStr p /\
              is_ok (to_dt (last_item (split "/" p))) = true).
  { intros r Hr. destruct (Hrow r Hr) as [_ H]. unfold month_year_of in H.
    destruct (cell "refPeriod" r); try discriminate. simpl in H. eauto. }
  assert (Hcell : forall r, cell "refPeriod" (h2 r) = cell "refPeriod" r).
  { intros r. unfold h2, h1. now rewrite !cell_set_cell_other by discriminate. }
  rewrite (series_apply_rows EmptyString).
  2:{ intros r Hr. rewrite Hcell. destruct (Hseg r Hr) as (p & -> & _). reflexivity. }
  simpl. rewrite (series_apply_rows VNA).
  2:{ intros r Hr. rewrite Hcell. destruct (Hseg r Hr) as (p & -> & H). exact H. }
  simpl. rewrite setitem_rows.
  set (h3 := fun r : Row => set_cell "Month-Year" _ (h2 r)).
  rewrite getitem_rows, has_label_add_same. simpl.
  assert (Hmy : forall r, In r rs ->
            cell "Month-Year" (h3 r) =
              ok_or VNA (month_year_of timestamp_in_bounds clock unicode_decimal r) /\
            is_ok (dt_year (cell "Month-Year" (h3 r))) = true).
  { intros r Hr. unfold h3. rewrite cell_set_cell_same, Hcell.
    unfold month_year_of. destruct (Hseg r Hr) as (p & -> & H). simpl.
    split; [reflexivity|].
    destruct (to_dt (last_item (split "/" p))) eqn:E; [|discriminate].
    simpl. eapply dt_year_to_datetime; eassumption. }
  rewrite (series_apply_rows VNA) by (intros r Hr; now apply Hmy).
  simpl. rewrite setitem_rows.
  unfold rename, loaded. simpl. f_equal. f_equal.
  rewrite map_map. apply map_ext_in. intros r Hr.
  unfold loaded_row. f_equal.
  destruct (Hmy r Hr) as [E _]. rewrite E. unfold year_of. f_equal.
  unfold h3. rewrite Hcell.
  replace (ok_or VNA (to_dt (ok_or "" (period_segment (cell "refPeriod" r)))))
    with (ok_or VNA (month_year_of timestamp_in_bounds clock unicode_decimal r)).
  2:{ unfold month_year_of. destruct (Hseg r Hr) as (p & -> & _). reflexivity. }
  f_equal. unfold h2, h1. rewrite cell_set_cell_same, set_cell_twice. reflexivity.
Qed.


Lemma load_fail (path : string) (raw : DataFrame) :
  read_csv path = Ok raw ->
  loadable timestamp_in_bounds clock unicode_decimal raw = false ->
  is_ok (load path) = false.
Proof.
  intros Hread Hl. unfold loadable in Hl.
  unfold load_and_process_data. rewrite Hread. simpl.
  destruct raw as [cols rs]. simpl in *.
  rewrite <- (map_id rs) at 1. rewrite getitem_rows.
  destruct (has_label "refArea" cols) eqn:Ha; [|reflexivity].
  destruct (forallb (fun r => is_text (cell "refArea" r)) rs) eqn:HA.
  2:{ destruct (series_apply_fail area_name (map (fun r => cell "refArea" r) rs))
        as [e He].
      - rewrite forallb_map. etransitivity; [|exact HA]. apply forallb_ext_in.
        intros r _. apply is_ok_area_name.
      - simpl. rewrite He. reflexivity. }
  simpl. rewrite (series_apply_rows VNA).
  2:{ intros r Hr. rewrite is_ok_area_name. now apply (forallb_In _ _ r) in HA. }
  simpl. rewrite setitem_rows0.
  set (h1 := fun r : Row => set_cell "Region" (ok_or VNA (area_name (cell "refArea" r))) r).
  rewrite getitem_rows, has_label_add_same. simpl.
  rewrite map_map, setitem_rows, add_label_twice.
  set (h2 := fun r : Row => set_cell "Region" _ (h1 r)).
  rewrite getitem_rows, has_label_add_other by discriminate.
  destruct (has_label "refPeriod" cols) eqn:Hp; [|reflexivity].
  simpl in *.
  assert (Hcell : forall r, cell "refPeriod" (h2 r) = cell "refPeriod" r).
  { intros r. unfold h2, h1. now rewrite !cell_set_cell_other by discriminate. }
  destruct (forallb (fun r => is_ok (period_segment (cell "refPeriod" r))) rs) eqn:HP.
  2:{ destruct (series_apply_fail period_segment
                  (map (fun r => cell "refPeriod" (h2 r)) rs)) as [e He].
      - rewrite forallb_map. etransitivity; [|exact HP]. apply forallb_ext_in.
        intros r _. now rewrite Hcell.
      - rewrite He. reflexivity. }
  rewrite (series_apply_rows EmptyString).
  2:{ intros r Hr. rewrite Hcell. now apply (forallb_In _ _ r) in HP. }
  simpl.
  destruct (series_apply_fail to_dt
              (map (fun r => ok_or "" (period_segment (cell "refPeriod" (h2 r)))) rs))
    as [e He].
  - rewrite forallb_map. etransitivity; [|exact Hl]. apply forallb_ext_in. intros r Hr.
    rewrite Hcell. unfold row_loadable, month_year_of.
    apply (forallb_In _ _ r) in HA, HP; try assumption.
    cbv beta in HA, HP. rewrite HA. simpl.
    destruct (period_segment (cell "refPeriod" r)); [reflexivity | discriminate].
  - rewrite He. reflexivity.
Qed.

(** The load returns exactly on the loadable tables, and then it returns
    the row-wise frame. *)
Lemma load_inv (path : string) (df : DataFrame) :
  load path = Ok df ->
  exists raw, read_csv path = Ok raw /\
    loadable timestamp_in_bounds clock unicode_decimal raw = true /\
    df = loaded timestamp_in_bounds clock unicode_decimal raw.
Proof.
  intros H. destruct (read_csv path) as [raw|e] eqn:Hread.
  - exists raw. destruct (loadable timestamp_in_bounds clock unicode_decimal raw) eqn:Hl.
    + rewrite (load_ok path raw Hread Hl) in H. injection H as <-. auto.
    + pose proof (load_fail path raw Hread Hl) as He. rewrite H in He. discriminate.
  - rewrite (load_read_fail path e Hread) in H. discriminate.
Qed.

End LoadFacts.

(** ** Path segments *)

Lemma split_free (sep : ascii) (s : string) :
  free_of sep s = true -> split sep s = [s].
Proof.
  induction s as [|c s IH]; simpl; [reflexivity|].
  intros H. apply andb_true_iff in H as [Hc Hs].
  apply negb_true_iff in Hc. rewrite Hc, (IH Hs). reflexivity.
Qed.

Lemma split_append (sep : ascii) (prefix seg : string) :
  free_of sep seg = true ->
  exists h t, split sep (prefix ++ String sep seg) = (h :: t ++ [seg])%list.
Proof.
  intros Hseg. induction prefix as [|c p IH]; simpl.
  - rewrite Ascii.eqb_refl, (split_free _ _ Hseg). now exists EmptyString, [].
  - destruct IH as (h & t & ->). destruct (Ascii.eqb c sep).
    + now exists EmptyString, (h :: t).
    + now exists (String c h), t.
Qed.

Lemma last_item_split (full seg : string) :
  ends_with_segment full seg -> last_item (split "/" full) = seg.
Proof.
  intros [Hfree [->|[prefix ->]]]; unfold last_item.
  - now rewrite split_free.
  - destruct (split_append "/" prefix seg Hfree) as (h & t & ->).
    change (h :: t ++ [seg])%list with ((h :: t) ++ [seg])%list.
    apply last_last.
Qed.

(** Every text has a last segment: what follows its last slash, or all of it. *)
Lemma split_shape (sep : ascii) (s : string) :
  exists l seg, split sep s = (l ++ [seg])%list /\ free_of sep seg = true /\
    (l = [] /\ s = seg \/ exists prefix, s = prefix ++ String sep seg).
Proof.
  induction s as [|c s IH]; simpl.
  - exists [], EmptyString. auto.
  - destruct IH as (l & seg & E & Hfree & Hs). rewrite E.
    destruct (Ascii.eqb_spec c sep) as [->|N].
    + exists (EmptyString :: l), seg. split; [reflexivity|]. split; [assumption|].
      right. destruct Hs as [[_ ->]|[p ->]].
      * now exists EmptyString.
      * now exists (String sep p).
    + destruct l as [|h l]; simpl.
      * exists [], (String c seg). split; [reflexivity|]. simpl.
        apply Ascii.eqb_neq in N. rewrite N, Hfree. split; [reflexivity|].
        destruct Hs as [[_ ->]|[p Hp]]; [now left|].
        exfalso. apply (f_equal (split sep)) in Hp. rewrite E in Hp.
        destruct (split_append sep p seg Hfree) as (h & t & Ht).
        rewrite Ht in Hp. destruct t; discriminate.
      * exists (String c h :: l), seg. split; [reflexivity|]. split; [assumption|].
        right. destruct Hs as [[Hl _]|[p ->]]; [discriminate|].
        now exists (String c p).
Qed.

Lemma last_segment_exists (full : string) :
  ends_with_segment full (last_item (split "/" full)).
Proof.
  destruct (split_shape "/" full) as (l & seg & E & Hfree & Hs).
  unfold last_item. rewrite E, last_last. split; [assumption|].
  destruct Hs as [[_ ->]|Hp]; auto.
Qed.

(** The replacement touches every occurrence and nothing else. *)
Lemma str_replace_get (a b : ascii) (s : string) (i : nat) :
  String.get i (str_replace a b s) =
  option_map (fun c => if Ascii.eqb c a then b else c) (String.get i s).
Proof.
  revert i. induction s as [|c s IH]; intros [|i]; simpl; auto.
Qed.

(** ** The alias table *)

Lemma alias_spec (s : string) :
  alias s =
  if (String.eqb s "North Governorate" || String.eqb s "North Lebanon")%bool
  then "Tripoli" else s.
Proof.
  unfold alias. simpl.
  destruct (String.eqb s "North Governorate"); [reflexivity|].
  destruct (String.eqb s "North Lebanon"); reflexivity.
Qed.

Lemma replace_value_alias (s : string) :
  replace_value REGION_ALIASES (VStr s) = VStr (alias s).
Proof. unfold replace_value, alias. now destruct (assoc s REGION_ALIASES). Qed.

(** ** Cells of a loaded row *)

Section LoadedRow.

Variable timestamp_in_bounds : Z -> Z -> bool.
Variable clock : option (Z * Z).
Variable unicode_decimal : Z -> option Z.

Lemma cell_loaded_region (r : Row) :
  cell "Region" (loaded_row timestamp_in_bounds clock unicode_decimal r) = region_of r.
Proof.
  unfold loaded_row. rewrite cell_rename_other by discriminate.
  rewrite !cell_set_cell_other by discriminate. apply cell_set_cell_same.
Qed.

Lemma cell_loaded_year (r : Row) :
  cell "Year" (loaded_row timestamp_in_bounds clock unicode_decimal r) =
  year_of timestamp_in_bounds clock unicode_decimal r.
Proof.
  unfold loaded_row. rewrite cell_rename_other by discriminate.
  apply cell_set_cell_same.
Qed.

Lemma cell_loaded_month (r : Row) :
  cell "Month-Year" (loaded_row timestamp_in_bounds clock unicode_decimal r) =
  ok_or VNA (month_year_of timestamp_in_bounds clock unicode_decimal r).
Proof.
  unfold loaded_row. rewrite cell_rename_other by discriminate.
  rewrite cell_set_cell_other by discriminate. apply cell_set_cell_same.
Qed.

Lemma cell_loaded_other (c : string) (r : Row) :
  c <> "Region" -> c <> "Month-Year" -> c <> "Year" ->
  c <> "Number of cases" -> c <> "Cases" ->
  cell c (loaded_row timestamp_in_bounds clock unicode_decimal r) = cell c r.
Proof.
  intros. unfold loaded_row. rewrite cell_rename_other by assumption.
  now rewrite !cell_set_cell_other by assumption.
Qed.

Lemma region_of_text (r : Row) (area : string) :
  cell "refArea" r = VStr area ->
  region_of r = VStr (alias (str_replace "_" " " (last_item (split "/" area)))).
Proof. intros E. unfold region_of. rewrite E. simpl ok_or. apply replace_value_alias. Qed.

Lemma loaded_row_nth (raw : DataFrame) (i : nat) (r r' : Row) :
  nth_error (rows raw) i = Some r ->
  nth_error (rows (loaded timestamp_in_bounds clock unicode_decimal raw)) i = Some r' ->
  r' = loaded_row timestamp_in_bounds clock unicode_decimal r.
Proof.
  intros H H'. simpl in H'. rewrite nth_error_map, H in H'. simpl in H'. congruence.
Qed.

Lemma loadable_row (raw : DataFrame) (r : Row) :
  loadable timestamp_in_bounds clock unicode_decimal raw = true -> In r (rows raw) ->
  exists area period v,
    cell "refArea" r = VStr area /\ cell "refPeriod" r = VStr period /\
    to_datetime timestamp_in_bounds clock unicode_decimal (last_item (split "/" period)) = Ok v.
Proof.
  intros Hl Hr. unfold loadable in Hl. apply andb_true_iff in Hl as [_ Hl].
  apply (forallb_In _ _ r) in Hl; [|assumption].
  unfold row_loadable, month_year_of in Hl. apply andb_true_iff in Hl as [Ha Hp].
  destruct (cell "refArea" r) as [area| | | |]; try discriminate.
  destruct (cell "refPeriod" r) as [period| | | |]; try discriminate.
  simpl in Hp. destruct (to_datetime _ _) as [v|] eqn:E; [|discriminate].
  now exists area, period, v.
Qed.

End LoadedRow.

(** ** The month format *)

Lemma digit_not_slash (c : ascii) : is_digit c = true -> Ascii.eqb c "/" = false.
Proof.
  intros H. destruct (Ascii.eqb_spec c "/") as [->|_]; [discriminate | reflexivity].
Qed.

Lemma free_of_MM_YYYY (m1 m2 y1 y2 y3 y4 : ascii) :
  valid_MM_YYYY m1 m2 y1 y2 y3 y4 = true ->
  free_of "/" (MM_YYYY m1 m2 y1 y2 y3 y4) = true.
Proof.
  unfold valid_MM_YYYY. rewrite !andb_true_iff.
  intros [[[[[[[H1 H2] _] _] H3] H4] H5] H6].
  simpl. now rewrite !digit_not_slash by assumption.
Qed.

Lemma is_digit_byte (c : ascii) :
  is_digit c = true -> 48 <= byte c <= 57 /\ digit c = byte c - 48.
Proof.
  unfold is_digit, digit, byte. intros H. apply andb_true_iff in H as [H1 H2].
  apply Nat.leb_le in H1, H2. lia.
Qed.

(** A digit is known by its value. *)
Lemma digit_char (c : ascii) (n : nat) :
  is_digit c = true -> digit c = Z.of_nat n -> c = ascii_of_nat (48 + n).
Proof.
  unfold is_digit, digit. intros H E. apply andb_true_iff in H as [H1 H2].
  apply Nat.leb_le in H1, H2.
  replace (48 + n)%nat with (nat_of_ascii c) by lia.
  symmetry. apply ascii_nat_embedding.
Qed.

Section FormatFacts.

Variable unicode_decimal : Z -> option Z.

(** On an ASCII digit the digit class reads one byte. *)
Lemma re_digit_ascii (c : ascii) (s : string) :
  is_digit c = true -> re_digit unicode_decimal (String c s) = Some (digit c, s).
Proof.
  intros H. destruct (is_digit_byte c H) as [[Hlo Hhi] ->].
  assert (E1 : (byte c <? 128) = true) by (apply Z.ltb_lt; lia).
  assert (E2 : (48 <=? byte c) = true) by (apply Z.leb_le; lia).
  assert (E3 : (byte c <=? 57) = true) by (apply Z.leb_le; lia).
  unfold re_digit, utf8_head. rewrite E1. unfold decimal_value.
  now rewrite E1, E2, E3.
Qed.

Lemma dash_year_ascii (y1 y2 y3 y4 : ascii) (s : string) :
  is_digit y1 = true -> is_digit y2 = true ->
  is_digit y3 = true -> is_digit y4 = true ->
  dash_year unicode_decimal
    (String "-" (String y1 (String y2 (String y3 (String y4 s))))) =
  Some (year_of_digits y1 y2 y3 y4, s).
Proof.
  intros H1 H2 H3 H4. unfold dash_year. rewrite Ascii.eqb_refl.
  now rewrite !re_digit_ascii by assumption.
Qed.

Lemma strptime_MM_YYYY (m1 m2 y1 y2 y3 y4 : ascii) :
  valid_MM_YYYY m1 m2 y1 y2 y3 y4 = true ->
  strptime_mY unicode_decimal (MM_YYYY m1 m2 y1 y2 y3 y4) =
  Some (year_of_digits y1 y2 y3 y4, 10 * digit m1 + digit m2).
Proof.
  unfold valid_MM_YYYY. rewrite !andb_true_iff.
  intros [[[[[[[H1 H2] Hlo] Hhi] H3] H4] H5] H6].
  apply Z.leb_le in Hlo, Hhi.
  destruct (is_digit_byte m1 H1) as [B1 _], (is_digit_byte m2 H2) as [B2 _].
  assert (D1 : 0 <= digit m1 <= 9) by (rewrite (proj2 (is_digit_byte m1 H1)); lia).
  assert (D2 : 0 <= digit m2 <= 9) by (rewrite (proj2 (is_digit_byte m2 H2)); lia).
  assert (Hm1 : digit m1 = 0 \/ digit m1 = 1) by lia.
  unfold strptime_mY, MM_YYYY, month_matches. rewrite H1, H2.
  destruct Hm1 as [E|E].
  - rewrite (digit_char m1 0 H1 E) at 1 2. simpl Ascii.eqb. cbv iota. simpl andb.
    replace (1 <=? digit m2) with true by (symmetry; apply Z.leb_le; lia).
    simpl app. cbn [first_match]. rewrite dash_year_ascii by assumption.
    simpl. rewrite E. reflexivity.
  - rewrite (digit_char m1 1 H1 E) at 1. simpl Ascii.eqb. cbv iota. simpl andb.
    replace (digit m2 <=? 2) with true by (symmetry; apply Z.leb_le; lia).
    simpl app. cbn [first_match]. rewrite dash_year_ascii by assumption.
    simpl. rewrite E. reflexivity.
Qed.

End FormatFacts.

Lemma is_null_text_MM_YYYY (m1 m2 y1 y2 y3 y4 : ascii) :
  is_null_text (MM_YYYY m1 m2 y1 y2 y3 y4) = false.
Proof.
  unfold is_null_text, nat_strings, MM_YYYY. simpl.
  repeat (destruct (Ascii.eqb _ _); simpl); reflexivity.
Qed.

Lemma is_today_now_MM_YYYY (m1 m2 y1 y2 y3 y4 : ascii) :
  is_today_now (MM_YYYY m1 m2 y1 y2 y3 y4) = false.
Proof.
  unfold is_today_now, MM_YYYY. simpl.
  repeat (destruct (Ascii.eqb _ _); simpl); reflexivity.
Qed.

(** ** When the load raises *)

Lemma forallb_false_iff {A : Type} (p : A -> bool) (l : list A) :
  forallb p l = false <-> exists x, In x l /\ p x = false.
Proof.
  induction l as [|x l IH]; simpl.
  - split; [discriminate | intros (x & [] & _)].
  - rewrite andb_false_iff, IH. split.
    + intros [H|(y & Hy & H)]; [exists x | exists y]; auto.
    + intros (y & [<-|Hy] & H); [now left | right; now exists y].
Qed.

Section LoadFailure.

Variable timestamp_in_bounds : Z -> Z -> bool.
Variable clock : option (Z * Z).
Variable unicode_decimal : Z -> option Z.

Lemma to_datetime_fails (seg : string) :
  is_ok (to_datetime timestamp_in_bounds clock unicode_decimal seg) = false <->
  is_null_text seg = false /\
  (is_today_now seg = false \/ clock = None) /\
  (strptime_mY unicode_decimal seg = None \/
   exists y m, strptime_mY unicode_decimal seg = Some (y, m) /\
               timestamp_in_bounds y m = false).
Proof.
  unfold to_datetime. destruct (is_null_text seg).
  - simpl. split; [discriminate | intros [? _]; discriminate].
  - destruct (if is_today_now seg then clock else None) as [[y m]|] eqn:Ec.
    + simpl. split; [discriminate|]. intros (_ & [H|H] & _).
      * rewrite H in Ec. discriminate.
      * rewrite H in Ec. now destruct (is_today_now seg).
    + assert (Hc : is_today_now seg = false \/ clock = None).
      { destruct (is_today_now seg); [now right | now left]. }
      destruct (strptime_mY unicode_decimal seg) as [[y m]|].
      * destruct (timestamp_in_bounds y m) eqn:E; simpl.
        -- split; [discriminate|].
           intros (_ & _ & [?|(y' & m' & [= <- <-] & ?)]); congruence.
        -- split; [|reflexivity]. intros _. split; [reflexivity|].
           split; [assumption|]. right. now exists y, m.
      * simpl. split; [|reflexivity]. intros _. now auto.
Qed.

Lemma row_loadable_false (r : Row) :
  row_loadable timestamp_in_bounds clock unicode_decimal r = false <->
  is_text (cell "refArea" r) = false \/
  is_text (cell "refPeriod" r) = false \/
  exists period seg,
    cell "refPeriod" r = VStr period /\ ends_with_segment period seg /\
    is_null_text seg = false /\
    (is_today_now seg = false \/ clock = None) /\
    (strptime_mY unicode_decimal seg = None \/
     exists y m, strptime_mY unicode_decimal seg = Some (y, m) /\
                 timestamp_in_bounds y m = false).
Proof.
  unfold row_loadable, month_year_of. rewrite andb_false_iff.
  destruct (cell "refPeriod" r) as [period| | | |]; simpl;
    try (split; [intros [?|?]; now auto | intros [?|[?|(? & ? & ? & _)]];
                 [now left | now right | discriminate]]).
  rewrite to_datetime_fails. split.
  - intros [H|H]; [now left|]. right. right.
    exists period, (last_item (split "/" period)).
    split; [reflexivity|]. split; [apply last_segment_exists | exact H].
  - intros [H|[H|(p & seg & [= <-] & Hs & H)]]; [now left | discriminate |].
    right. now rewrite (last_item_split _ _ Hs).
Qed.

Lemma loadable_false (raw : DataFrame) :
  loadable timestamp_in_bounds clock unicode_decimal raw = false <->
  has_label "refArea" (columns raw) = false \/
  has_label "refPeriod" (columns raw) = false \/
  exists r, In r (rows raw) /\ row_loadable timestamp_in_bounds clock unicode_decimal r = false.
Proof.
  unfold loadable. rewrite !andb_false_iff, forallb_false_iff. tauto.
Qed.

End LoadFailure.

(** ** Rows of the input contract *)

Section ValidRows.

Variable timestamp_in_bounds : Z -> Z -> bool.
Variable clock : option (Z * Z).
Variable unicode_decimal : Z -> option Z.

(** The empty text, the null tokens and the two words are no months of the
    format. *)
Lemma null_text_no_month (s : string) :
  is_null_text s = true -> strptime_mY unicode_decimal s = None.
Proof.
  unfold is_null_text, nat_strings, existsb. intros H.
  repeat match type of H with
         | orb (String.eqb ?a ?b) _ = true =>
             destruct (String.eqb_spec a b) as [E|_];
             [rewrite E; reflexivity | cbn [orb] in H]
         end.
  discriminate H.
Qed.

Lemma today_now_no_month (s : string) :
  is_today_now s = true -> strptime_mY unicode_decimal s = None.
Proof.
  unfold is_today_now. intros H. apply orb_true_iff in H as [H|H];
    apply String.eqb_eq in H; subst s; reflexivity.
Qed.

(** A month of the format that pandas can hold is read as that month. *)
Lemma to_datetime_month (s : string) (y m : Z) :
  strptime_mY unicode_decimal s = Some (y, m) ->
  timestamp_in_bounds y m = true ->
  to_datetime timestamp_in_bounds clock unicode_decimal s = Ok (VTimestamp y m).
Proof.
  intros E Hb. unfold to_datetime.
  destruct (is_null_text s) eqn:En.
  { apply null_text_no_month in En. congruence. }
  destruct (is_today_now s) eqn:Et.
  { apply today_now_no_month in Et. congruence. }
  now rewrite E, Hb.
Qed.

Lemma valid_rows_loadable (raw : DataFrame) :
  has_label "refArea" (columns raw) = true ->
  has_label "refPeriod" (columns raw) = true ->
  (forall r, In r (rows raw) ->
     row_valid unicode_decimal timestamp_in_bounds r = true) ->
  loadable timestamp_in_bounds clock unicode_decimal raw = true.
Proof.
  intros Ha Hp Hvalid. unfold loadable. rewrite Ha, Hp. simpl.
  apply forallb_forall. intros r Hr. specialize (Hvalid r Hr).
  unfold row_valid in Hvalid. apply andb_true_iff in Hvalid as [Ht Hv].
  unfold row_loadable, month_year_of. rewrite Ht. simpl.
  destruct (cell "refPeriod" r) as [period| | | |]; try discriminate.
  simpl. destruct (strptime_mY _ _) as [[y m]|] eqn:E; [|discriminate].
  now rewrite (to_datetime_month _ _ _ E Hv).
Qed.

End ValidRows.

(** ** Claims about the load *)

Section LoadClaims.

Variable read_csv : string -> result DataFrame.
Variable timestamp_in_bounds : Z -> Z -> bool.
Variable clock : option (Z * Z).
Variable unicode_decimal : Z -> option Z.

Local Abbreviation load :=
  (load_and_process_data read_csv timestamp_in_bounds clock unicode_decimal).

(** C1.  Whenever the load returns, it returns one row per input row, and
    the Region of each row comes from its refArea: take the last segment
    of the path (the text after the last slash, which is unique), turn
    every underscore into a space, and send the two legacy names
    'North Governorate' and 'North Lebanon' to 'Tripoli'.  So a refArea
    ending in Beqaa_Valley gives 'Beqaa Valley' and one ending in
    North_Lebanon gives 'Tripoli'. *)
Theorem region_from_area (path : string) (df : DataFrame) :
  load path = Ok df ->
  exists raw, read_csv path = Ok raw /\
    List.length (rows df) = List.length (rows raw) /\
    forall i r r',
      nth_error (rows raw) i = Some r ->
      nth_error (rows df) i = Some r' ->
      exists area seg,
        cell "refArea" r = VStr area /\
        ends_with_segment area seg /\
        (forall seg', ends_with_segment area seg' -> seg' = seg) /\
        cell "Region" r' =
          VStr (let name := str_replace "_" " " seg in
                if (String.eqb name "North Governorate"
                    || String.eqb name "North Lebanon")%bool
                then "Tripoli" else name) /\
        (seg = "Beqaa_Valley" -> cell "Region" r' = VStr "Beqaa Valley") /\
        (seg = "North_Lebanon" -> cell "Region" r' = VStr "Tripoli").
Proof.
  intros H. destruct (load_inv _ _ _ _ _ _ H) as (raw & Hread & Hl & ->).
  exists raw. split; [assumption|]. split; [simpl; apply length_map|].
  intros i r r' Hr Hr'.
  rewrite (loaded_row_nth _ _ _ _ _ _ _ Hr Hr').
  destruct (loadable_row _ _ _ _ r Hl (nth_error_In _ _ Hr)) as (area & _ & _ & Ha & _).
  exists area, (last_item (split "/" area)).
  assert (E : cell "Region" (loaded_row timestamp_in_bounds clock unicode_decimal r) =
              VStr (alias (str_replace "_" " " (last_item (split "/" area))))).
  { rewrite cell_loaded_region. now apply region_of_text. }
  split; [assumption|]. split; [apply last_segment_exists|].
  split; [intros seg' Hs; symmetry; now apply last_item_split|].
  split; [rewrite E, alias_spec; reflexivity|].
  split; intros Hseg; rewrite E, Hseg; reflexivity.
Qed.

(** C2.  Whenever the load returns, a row whose refPeriod ends in a
    segment written MM-YYYY (two digits of month from 01 to 12, a dash,
    four digits of year) has the integer Year that those four digits
    spell. *)
Theorem year_from_period (path : string) (df : DataFrame) :
  load path = Ok df ->
  exists raw, read_csv path = Ok raw /\
    forall i r r',
      nth_error (rows raw) i = Some r ->
      nth_error (rows df) i = Some r' ->
      forall period m1 m2 y1 y2 y3 y4,
        cell "refPeriod" r = VStr period ->
        (period = MM_YYYY m1 m2 y1 y2 y3 y4 \/
         exists prefix, period = prefix ++ String "/" (MM_YYYY m1 m2 y1 y2 y3 y4)) ->
        valid_MM_YYYY m1 m2 y1 y2 y3 y4 = true ->
        cell "Year" r' =
          VInt (1000 * digit y1 + 100 * digit y2 + 10 * digit y3 + digit y4).
Proof.
  intros H. destruct (load_inv _ _ _ _ _ _ H) as (raw & Hread & Hl & ->).
  exists raw. split; [assumption|].
  intros i r r' Hr Hr' period m1 m2 y1 y2 y3 y4 Hp Hend Hvalid.
  rewrite (loaded_row_nth _ _ _ _ _ _ _ Hr Hr'), cell_loaded_year.
  destruct (loadable_row _ _ _ _ r Hl (nth_error_In _ _ Hr)) as (_ & p & v & _ & Hp' & Hv).
  rewrite Hp in Hp'. injection Hp' as <-.
  rewrite (last_item_split period (MM_YYYY m1 m2 y1 y2 y3 y4)) in Hv
    by (split; [now apply free_of_MM_YYYY | exact Hend]).
  unfold year_of, month_year_of. rewrite Hp. simpl bind.
  rewrite (last_item_split period (MM_YYYY m1 m2 y1 y2 y3 y4))
    by (split; [now apply free_of_MM_YYYY | exact Hend]).
  rewrite Hv. unfold to_datetime in Hv.
  rewrite is_null_text_MM_YYYY, is_today_now_MM_YYYY,
    (strptime_MM_YYYY _ _ _ _ _ _ _ Hvalid) in Hv.
  destruct (timestamp_in_bounds _ _); [|discriminate].
  injection Hv as <-. reflexivity.
Qed.

(** C3, amended.  The load raises exactly when reading the file raises,
    or the table lacks the refArea or the refPeriod column, or some row
    has a refArea or refPeriod cell that is not text, or some row's last
    period segment is read as no date: it is neither empty nor a null
    token, it is not one of the words now and today in a pandas that
    reads them as the current time, and it is not a month of the format
    that pandas can hold.  The exception of the read is passed on as it
    is.  When the load returns it returns one row per input row, so no
    row is skipped; a row whose period segment is empty or a null token
    is among them, with a missing Month-Year and a missing Year.
    Segments 13-2019 and foo make the load raise. *)
Theorem load_failure (path : string) :
  (is_ok (load path) = false <->
     is_ok (read_csv path) = false \/
     exists raw, read_csv path = Ok raw /\
       (has_label "refArea" (columns raw) = false \/
        has_label "refPeriod" (columns raw) = false \/
        exists r, In r (rows raw) /\
          (is_text (cell "refArea" r) = false \/
           is_text (cell "refPeriod" r) = false \/
           exists period seg,
             cell "refPeriod" r = VStr period /\ ends_with_segment period seg /\
             is_null_text seg = false /\
             (is_today_now seg = false \/ clock = None) /\
             (strptime_mY unicode_decimal seg = None \/
              exists y m, strptime_mY unicode_decimal seg = Some (y, m) /\
                          timestamp_in_bounds y m = false)))) /\
  (forall e, read_csv path = Err e -> load path = Err e) /\
  (forall df, load path = Ok df ->
     exists raw, read_csv path = Ok raw /\
       List.length (rows df) = List.length (rows raw) /\
       forall i r r' period seg,
         nth_error (rows raw) i = Some r ->
         nth_error (rows df) i = Some r' ->
         cell "refPeriod" r = VStr period ->
         ends_with_segment period seg ->
         is_null_text seg = true ->
         cell "Month-Year" r' = VNA /\ cell "Year" r' = VNA) /\
  (forall raw r period,
     read_csv path = Ok raw -> In r (rows raw) ->
     cell "refPeriod" r = VStr period ->
     ends_with_segment period "13-2019" \/ ends_with_segment period "foo" ->
     is_ok (load path) = false).
Proof.
  assert (Hiff : is_ok (load path) = false <->
            is_ok (read_csv path) = false \/
            exists raw, read_csv path = Ok raw /\
                        loadable timestamp_in_bounds clock unicode_decimal raw = false).
  { destruct (read_csv path) as [raw|e] eqn:Hread.
    - destruct (loadable timestamp_in_bounds clock unicode_decimal raw) eqn:Hl.
      + rewrite (load_ok _ _ _ _ _ _ Hread Hl). simpl.
        split; [discriminate|]. intros [?|(raw' & [= <-] & ?)]; congruence.
      + rewrite (load_fail _ _ _ _ _ _ Hread Hl).
        split; [|reflexivity]. intros _. right. now exists raw.
    - rewrite (load_read_fail _ _ _ _ _ _ Hread). simpl. split; auto. }
  split; [|split; [|split]].
  - rewrite Hiff. split.
    + intros [H|(raw & Hread & Hl)]; [now left|]. right. exists raw.
      split; [assumption|]. apply loadable_false in Hl.
      destruct Hl as [H|[H|(r & Hr & H)]]; [now left | now auto |].
      right. right. exists r. split; [assumption|]. now apply row_loadable_false.
    + intros [H|(raw & Hread & H)]; [now left|]. right. exists raw.
      split; [assumption|]. apply loadable_false.
      destruct H as [H|[H|(r & Hr & H)]]; [now left | now auto |].
      right. right. exists r. split; [assumption|]. now apply row_loadable_false.
  - intros e. apply load_read_fail.
  - intros df H. destruct (load_inv _ _ _ _ _ _ H) as (raw & Hread & _ & ->).
    exists raw. split; [assumption|]. split; [simpl; apply length_map|].
    intros i r r' period seg Hr Hr' Hp Hs Hnull.
    rewrite (loaded_row_nth _ _ _ _ _ _ _ Hr Hr').
    rewrite cell_loaded_month, cell_loaded_year.
    unfold year_of, month_year_of. rewrite Hp. simpl bind.
    rewrite (last_item_split _ _ Hs). unfold to_datetime. rewrite Hnull.
    split; reflexivity.
  - intros raw r period Hread Hr Hp Hseg. apply Hiff. right. exists raw.
    split; [assumption|]. apply loadable_false. right. right. exists r.
    split; [assumption|]. apply row_loadable_false. right. right.
    destruct Hseg as [Hs|Hs]; [exists period, "13-2019" | exists period, "foo"];
      (split; [assumption|]; split; [assumption|]; split; [reflexivity|];
       split; [now left | now left]).
Qed.

(** C6, amended.  Whenever the load returns, the Region of a row is text,
    is never one of the two legacy names, and is a key of the coordinate
    table exactly when the last segment of refArea, underscores turned to
    spaces, is one of the eight keys or one of the two legacy names.  The
    load keeps the rows of every other region. *)
Theorem region_in_table (path : string) (df : DataFrame) :
  load path = Ok df ->
  exists raw, read_csv path = Ok raw /\
    forall i r r',
      nth_error (rows raw) i = Some r ->
      nth_error (rows df) i = Some r' ->
      exists area seg,
        cell "refArea" r = VStr area /\
        ends_with_segment area seg /\
        is_text (cell "Region" r') = true /\
        cell "Region" r' <> VStr "North Governorate" /\
        cell "Region" r' <> VStr "North Lebanon" /\
        (in_table (cell "Region" r') = true <->
         In (str_replace "_" " " seg)
            (map fst REGION_COORDS ++ map fst REGION_ALIASES)%list).
Proof.
  intros H. destruct (load_inv _ _ _ _ _ _ H) as (raw & Hread & Hl & ->).
  exists raw. split; [assumption|].
  intros i r r' Hr Hr'.
  rewrite (loaded_row_nth _ _ _ _ _ _ _ Hr Hr'), cell_loaded_region.
  destruct (loadable_row _ _ _ _ r Hl (nth_error_In _ _ Hr)) as (area & _ & _ & Ha & _).
  exists area, (last_item (split "/" area)).
  rewrite (region_of_text r area Ha), alias_spec.
  set (name := str_replace "_" " " (last_item (split "/" area))).
  split; [assumption|]. split; [apply last_segment_exists|].
  split; [reflexivity|].
  destruct (String.eqb_spec name "North Governorate") as [E1|N1]; simpl orb; cbv iota.
  { split; [discriminate|]. split; [discriminate|].
    split; [intros _; rewrite E1; simpl; tauto | reflexivity]. }
  destruct (String.eqb_spec name "North Lebanon") as [E2|N2]; cbv iota.
  { split; [discriminate|]. split; [discriminate|].
    split; [intros _; rewrite E2; simpl; tauto | reflexivity]. }
  split; [congruence|]. split; [congruence|].
  change (in_table (VStr name)) with (has_label name (map fst REGION_COORDS)).
  rewrite has_label_In, in_app_iff. split; [now left|].
  intros [Hin|Hin]; [assumption|]. simpl in Hin. intuition congruence.
Qed.

(** C10, amended.  For a rectangular table with text refArea cells and
    periods that are months of the format, but without a column named
    'Number of cases', the load returns; the renaming changes nothing: the
    frame has the labels of the file followed by Region, Month-Year and
    Year, and every other cell is the cell of the file.  So it has a
    Cases column exactly when the file had one under that very name. *)
Theorem load_without_count_column (path : string) (raw : DataFrame) :
  read_csv path = Ok raw ->
  rectangular raw = true ->
  has_label "refArea" (columns raw) = true ->
  has_label "refPeriod" (columns raw) = true ->
  forallb (row_valid unicode_decimal timestamp_in_bounds) (rows raw) = true ->
  has_label "Number of cases" (columns raw) = false ->
  exists df, load path = Ok df /\
    columns df =
      add_label "Year" (add_label "Month-Year" (add_label "Region" (columns raw))) /\
    has_label "Cases" (columns df) = has_label "Cases" (columns raw) /\
    List.length (rows df) = List.length (rows raw) /\
    forall i r r',
      nth_error (rows raw) i = Some r ->
      nth_error (rows df) i = Some r' ->
      map fst r' = columns df /\
      forall c, c <> "Region" -> c <> "Month-Year" -> c <> "Year" ->
                cell c r' = cell c r.
Proof.
  intros Hread Hrect Ha Hp Hvalid Hnone.
  assert (Hl : loadable timestamp_in_bounds clock unicode_decimal raw = true).
  { apply valid_rows_loadable; try assumption. intros r Hr.
    now apply (forallb_In _ _ r) in Hvalid. }
  assert (Hold : ~ In "Number of cases"
                   (add_label "Year" (add_label "Month-Year"
                      (add_label "Region" (columns raw))))).
  { rewrite <- has_label_In, !has_label_add_other, Hnone by discriminate.
    discriminate. }
  exists (loaded timestamp_in_bounds clock unicode_decimal raw).
  split; [now apply load_ok|].
  assert (Hcols : columns (loaded timestamp_in_bounds clock unicode_decimal raw) =
            add_label "Year" (add_label "Month-Year"
              (add_label "Region" (columns raw)))).
  { simpl. now apply rename_labels_absent. }
  split; [exact Hcols|].
  split; [rewrite Hcols; now rewrite !has_label_add_other by discriminate|].
  split; [simpl; apply length_map|].
  intros i r r' Hr Hr'. rewrite (loaded_row_nth _ _ _ _ _ _ _ Hr Hr'), Hcols.
  assert (Hkeys : map fst r = columns raw).
  { apply (forallb_In _ _ r) in Hrect; [|now apply (nth_error_In _ i)].
    cbv beta in Hrect. now destruct (list_eq_dec string_dec _ _). }
  unfold loaded_row. rewrite rename_row_absent.
  2:{ now rewrite !keys_set_cell, Hkeys. }
  split; [now rewrite !keys_set_cell, Hkeys|].
  intros c N1 N2 N3. now rewrite !cell_set_cell_other by assumption.
Qed.

End LoadClaims.

Lemma region_from_area_witness :
  exists df,
    load_and_process_data (one_file example_table) ns_bounds june_2025 arabic_indic
          "MumpsLeb.csv" = Ok df /\
    map (cell "Region") (rows df) = [VStr "Beqaa Valley"; VStr "Tripoli"].
Proof.
  eexists. split; [reflexivity|].
  destruct (region_from_area (one_file example_table) ns_bounds june_2025 arabic_indic
        "MumpsLeb.csv" _ eq_refl)
    as (raw & Hraw & _ & Hrows).
  injection Hraw as <-.
  assert (S1 : ends_with_segment "http://data/area/Beqaa_Valley" "Beqaa_Valley").
  { split; [reflexivity|]. right. now exists "http://data/area". }
  assert (S2 : ends_with_segment "http://data/area/North_Lebanon" "North_Lebanon").
  { split; [reflexivity|]. right. now exists "http://data/area". }
  destruct (Hrows 0%nat _ _ eq_refl eq_refl) as (a0 & s0 & A0 & _ & U0 & _ & B0 & _).
  destruct (Hrows 1%nat _ _ eq_refl eq_refl) as (a1 & s1 & A1 & _ & U1 & _ & _ & N1).
  injection A0 as <-. injection A1 as <-.
  exact (f_equal2 (fun a b => [a; b]) (B0 (eq_sym (U0 _ S1))) (N1 (eq_sym (U1 _ S2)))).
Defined.

Lemma year_from_period_witness :
  exists df,
    load_and_process_data (one_file example_table) ns_bounds june_2025 arabic_indic
          "MumpsLeb.csv" = Ok df /\
    exists r r', nth_error (rows df) 0%nat = Some r /\ nth_error (rows df) 1%nat = Some r' /\
      cell "Year" r = VInt 2019 /\ cell "Year" r' = VInt 2019.
Proof.
  eexists. split; [reflexivity|].
  destruct (year_from_period (one_file example_table) ns_bounds june_2025 arabic_indic
        "MumpsLeb.csv" _ eq_refl)
    as (raw & Hraw & Hrows).
  injection Hraw as <-.
  eexists. eexists. split; [reflexivity|]. split; [reflexivity|].
  assert (P : exists prefix, "http://data/period/01-2019" =
                prefix ++ String "/" (MM_YYYY "0" "1" "2" "0" "1" "9")).
  { now exists "http://data/period". }
  split.
  - exact (Hrows 0%nat _ _ eq_refl eq_refl _ "0"%char "1"%char "2"%char "0"%char "1"%char "9"%char
             eq_refl (or_intror P) eq_refl).
  - exact (Hrows 1%nat _ _ eq_refl eq_refl _ "0"%char "1"%char "2"%char "0"%char "1"%char "9"%char
             eq_refl (or_intror P) eq_refl).
Defined.

(** C3 as stated fails both ways.  A readable table without a refArea column
    makes the load raise although every period segment is a month of the
    format; and a period path ending in a slash has an empty last segment,
    which is no month of the format, yet the load returns. *)
Lemma load_failure_counterexample :
  ~ (is_ok (load_and_process_data (one_file no_area_table) ns_bounds june_2025 arabic_indic
        "MumpsLeb.csv") = false <->
     is_ok (one_file no_area_table "MumpsLeb.csv") = false \/
     exists r period, In r (rows no_area_table) /\
       cell "refPeriod" r = VStr period /\
       strptime_mY arabic_indic (last_item (split "/" period)) = None) /\
  ~ (is_ok (load_and_process_data (one_file open_period_table) ns_bounds june_2025 arabic_indic
        "MumpsLeb.csv") = false <->
     is_ok (one_file open_period_table "MumpsLeb.csv") = false \/
     exists r period, In r (rows open_period_table) /\
       cell "refPeriod" r = VStr period /\
       strptime_mY arabic_indic (last_item (split "/" period)) = None).
Proof.
  split.
  - intros [H _]. destruct (H eq_refl) as [E|(r & period & Hr & Hp & E)].
    + discriminate E.
    + destruct Hr as [<-|[]]. injection Hp as <-. discriminate E.
  - intros [_ H]. assert (E : is_ok (load_and_process_data (one_file open_period_table)
                                      ns_bounds june_2025 arabic_indic
                                            "MumpsLeb.csv") = false).
    { apply H. right. eexists. eexists. split; [now left|]. split; reflexivity. }
    discriminate E.
Qed.

(** C6 as stated fails: a refArea naming a region outside the coordinate
    table is loaded with that region. *)
Lemma region_in_table_counterexample :
  ~ (forall df,
       load_and_process_data (one_file outside_table) ns_bounds june_2025 arabic_indic
             "MumpsLeb.csv" = Ok df ->
       forall r, In r (rows df) -> in_table (cell "Region" r) = true).
Proof.
  intros H.
  specialize (H _ eq_refl _ (or_introl eq_refl)). discriminate H.
Qed.

Lemma region_in_table_witness :
  exists df,
    load_and_process_data (one_file outside_table) ns_bounds june_2025 arabic_indic
          "MumpsLeb.csv" = Ok df /\
    exists r', nth_error (rows df) 0%nat = Some r' /\
      cell "Region" r' = VStr "Keserwan-Jbeil" /\ in_table (cell "Region" r') = false.
Proof.
  eexists. split; [reflexivity|].
  destruct (region_in_table (one_file outside_table) ns_bounds june_2025 arabic_indic
        "MumpsLeb.csv" _ eq_refl)
    as (raw & Hraw & Hrows).
  injection Hraw as <-.
  eexists. split; [reflexivity|]. split; [reflexivity|].
  destruct (Hrows 0%nat _ _ eq_refl eq_refl) as (area & seg & Ha & Hs & _ & _ & _ & Hiff).
  injection Ha as <-.
  assert (E : seg = "Keserwan-Jbeil").
  { rewrite <- (last_item_split _ _ Hs). reflexivity. }
  subst seg. destruct (in_table _) eqn:Hin; [|reflexivity].
  exfalso. destruct Hiff as [Hiff _]. specialize (Hiff eq_refl).
  simpl in Hiff. repeat (destruct Hiff as [Hiff|Hiff]; [discriminate Hiff|]). exact Hiff.
Defined.

(** C10 as stated fails: a file whose count column is already called Cases
    has no 'Number of cases' column, and the frame the load returns has a
    Cases column. *)
Lemma load_without_count_column_counterexample :
  ~ (has_label "Number of cases" (columns cases_table) = false ->
     exists df,
       load_and_process_data (one_file cases_table) ns_bounds june_2025 arabic_indic
             "MumpsLeb.csv" = Ok df /\
       has_label "Cases" (columns df) = false).
Proof.
  intros H. destruct (H eq_refl) as (df & Hload & Hno).
  injection Hload as <-. discriminate Hno.
Qed.

Lemma load_without_count_column_witness :
  exists df,
    load_and_process_data (one_file countless_table) ns_bounds june_2025 arabic_indic
          "MumpsLeb.csv" = Ok df /\
    columns df = ["refArea"; "refPeriod"; "Region"; "Month-Year"; "Year"] /\
    has_label "Cases" (columns df) = false.
Proof.
  destruct (load_without_count_column (one_file countless_table) ns_bounds june_2025 arabic_indic
              "MumpsLeb.csv" countless_table eq_refl eq_refl eq_refl eq_refl eq_refl eq_refl)
    as (df & Hload & Hcols & Hcases & _).
  exists df. split; [exact Hload|]. split; [exact Hcols | exact Hcases].
Defined.

(** ** The store *)

Lemma nth_error_store_set_same (l : loc) (f : DataFrame) (st : Store) :
  (l < List.length st)%nat -> nth_error (store_set l f st) l = Some f.
Proof.
  revert l. induction st as [|g st IH]; intros [|l] H; simpl in *; try lia.
  - reflexivity.
  - apply IH. lia.
Qed.

Lemma nth_error_store_set_other (l k : loc) (f : DataFrame) (st : Store) :
  k <> l -> nth_error (store_set l f st) k = nth_error st k.
Proof.
  revert l k. induction st as [|g st IH]; intros [|l] [|k] N; simpl; auto.
  - congruence.
Qed.

Lemma length_store_set (l : loc) (f : DataFrame) (st : Store) :
  List.length (store_set l f st) = List.length st.
Proof.
  revert l. induction st as [|g st IH]; intros [|l]; simpl; auto.
Qed.

Lemma store_set_twice (l : loc) (f g : DataFrame) (st : Store) :
  store_set l g (store_set l f st) = store_set l g st.
Proof.
  revert l. induction st as [|h st IH]; intros [|l]; simpl; auto.
  now rewrite IH.
Qed.

Lemma nth_error_some_length {A : Type} (l : list A) (n : nat) (x : A) :
  nth_error l n = Some x -> (n < List.length l)%nat.
Proof. intros H. apply nth_error_Some. congruence. Qed.

Lemma nth_error_new {A : Type} (l : list A) (x : A) :
  nth_error (l ++ [x])%list (List.length l) = Some x.
Proof. rewrite nth_error_app2 by lia. now rewrite Nat.sub_diag. Qed.

Lemma nth_error_old {A : Type} (l : list A) (x : A) (k : nat) :
  (k < List.length l)%nat -> nth_error (l ++ [x])%list k = nth_error l k.
Proof. intros H. now apply nth_error_app1. Qed.

(** ** Coordinates *)

Lemma coords_of_listed (s : string) (table : list (string * (Q * Q))) :
  existsb (String.eqb s) (map fst table) = true <->
  exists p, coords_of s table = Some p.
Proof.
  induction table as [|[k p] table IH]; simpl.
  - split; [discriminate | intros [? ?]; discriminate].
  - destruct (String.eqb s k); simpl; [|exact IH].
    split; [intros _; now exists p | reflexivity].
Qed.

Lemma in_table_coords (v : value) :
  in_table v = true <->
  exists s la lo, v = VStr s /\ coords_of s REGION_COORDS = Some (la, lo).
Proof.
  destruct v as [s| | | |];
    try (split; [discriminate | intros (? & ? & ? & ? & _); discriminate]).
  unfold in_table. rewrite coords_of_listed. split.
  - intros [[la lo] H]. now exists s, la, lo.
  - intros (s' & la & lo & [= <-] & H). now exists (la, lo).
Qed.

Lemma coords_get_found (s : string) (la lo : Q) :
  coords_of s REGION_COORDS = Some (la, lo) ->
  coords_get (VStr s) = (VFloat la, VFloat lo).
Proof. intros H. unfold coords_get. now rewrite H. Qed.

Lemma coords_get_missing (v : value) :
  in_table v = false -> coords_get v = (VNA, VNA).
Proof.
  intros H. destruct v as [s| | | |]; try reflexivity.
  unfold coords_get. destruct (coords_of s REGION_COORDS) as [[la lo]|] eqn:E; [|reflexivity].
  assert (in_table (VStr s) = true) by (apply in_table_coords; now exists s, la, lo).
  congruence.
Qed.

Lemma cell_with_coords_lat (r : Row) :
  cell "lat" (with_coords r) = fst (coords_get (cell "Region" r)).
Proof.
  unfold with_coords. rewrite cell_set_cell_other by discriminate.
  apply cell_set_cell_same.
Qed.

Lemma cell_with_coords_lon (r : Row) :
  cell "lon" (with_coords r) = snd (coords_get (cell "Region" r)).
Proof. unfold with_coords. apply cell_set_cell_same. Qed.

Lemma cell_with_coords_other (c : string) (r : Row) :
  c <> "lat" -> c <> "lon" -> cell c (with_coords r) = cell c r.
Proof. intros. unfold with_coords. now rewrite !cell_set_cell_other. Qed.

Lemma complete_with_coords (r : Row) :
  complete ["lat"; "lon"] (with_coords r) = in_table (cell "Region" r).
Proof.
  unfold complete. simpl. rewrite cell_with_coords_lat, cell_with_coords_lon.
  destruct (in_table (cell "Region" r)) eqn:E.
  - apply in_table_coords in E as (s & la & lo & -> & H).
    now rewrite (coords_get_found _ _ _ H).
  - now rewrite (coords_get_missing _ E).
Qed.

Lemma filter_map_swap {A B : Type} (p : B -> bool) (g : A -> B) (l : list A) :
  filter p (map g l) = map g (filter (fun x => p (g x)) l).
Proof.
  induction l as [|x l IH]; simpl; [reflexivity|].
  destruct (p (g x)); simpl; now rewrite IH.
Qed.

(** What a call of [add_coordinates] does to the store and what it
    answers. *)
Lemma add_coordinates_run (st : Store) (l : loc) (f : DataFrame) :
  nth_error st l = Some f ->
  has_label "Region" (columns f) = true ->
  add_coordinates l st =
  Ok (List.length st,
      (store_set l (with_coords_frame f) st
       ++ [mkDataFrame (columns (with_coords_frame f))
             (map with_coords
                (filter (fun r => in_table (cell "Region" r)) (rows f)))])%list).
Proof.
  destruct f as [cols rs]. simpl. intros Hl HR.
  pose proof (nth_error_some_length _ _ _ Hl) as Hlt.
  unfold add_coordinates, bindM, deref, raise_or, assign, new.
  rewrite Hl. rewrite <- (map_id rs) at 1. rewrite getitem_rows, HR.
  rewrite Hl, map_map, setitem_rows0.
  rewrite nth_error_store_set_same by assumption.
  rewrite getitem_rows, has_label_add_other, HR by discriminate.
  rewrite nth_error_store_set_same by assumption.
  rewrite map_map, setitem_rows, store_set_twice.
  rewrite nth_error_store_set_same by assumption.
  unfold dropna. simpl find.
  rewrite has_label_add_other, !has_label_add_same by discriminate. simpl.
  rewrite length_store_set. unfold with_coords_frame. simpl.
  match goal with
  | |- context [map ?h rs] =>
      replace (map h rs) with (map with_coords rs)
        by (apply map_ext; intros r; unfold with_coords;
            now rewrite cell_set_cell_other by discriminate)
  end.
  rewrite filter_map_swap.
  rewrite (filter_ext _ _ complete_with_coords). reflexivity.
Qed.

Lemma Forall2_map_right {A B : Type} (R : A -> B -> Prop) (g : A -> B) (l : list A) :
  (forall x, In x l -> R x (g x)) -> Forall2 R l (map g l).
Proof.
  induction l as [|x l IH]; simpl; intros H; constructor.
  - apply H. now left.
  - apply IH. intros y Hy. apply H. now right.
Qed.

(** ** Grouping *)

Lemma value_eqb_eq (a b : value) : value_eqb a b = true <-> a = b.
Proof.
  destruct a as [s|x|p|y m|], b as [t|x'|q|y' m'|]; simpl;
    try (split; [discriminate | intros H; discriminate H]).
  - rewrite String.eqb_eq. split; congruence.
  - rewrite Z.eqb_eq. split; congruence.
  - rewrite andb_true_iff, Z.eqb_eq, Pos.eqb_eq. destruct p, q; simpl.
    split; [intros [-> ->]; reflexivity | intros [= -> ->]; auto].
  - rewrite andb_true_iff, !Z.eqb_eq. split; [intros [-> ->]; reflexivity | intros [= -> ->]; auto].
  - split; reflexivity.
Qed.

Lemma key_eqb_eq (k k' : list value) : key_eqb k k' = true <-> k = k'.
Proof.
  revert k'. induction k as [|a k IH]; intros [|b k']; simpl;
    try (split; [discriminate | intros H; discriminate H]).
  - split; reflexivity.
  - rewrite andb_true_iff, value_eqb_eq, IH.
    split; [intros [-> ->]; reflexivity | intros [= -> ->]; auto].
Qed.

Lemma key_eqb_refl (k : list value) : key_eqb k k = true.
Proof. now apply key_eqb_eq. Qed.

Lemma has_group_In (k : list value) (g : list (list value * Z)) :
  has_group k g = true <-> In k (map fst g).
Proof.
  unfold has_group. rewrite existsb_exists, in_map_iff. split.
  - intros (e & He & E). apply key_eqb_eq in E. now exists e.
  - intros (e & E & He). exists e. split; [assumption|]. apply key_eqb_eq. auto.
Qed.

Lemma keys_bump (k : list value) (z : Z) (g : list (list value * Z)) :
  map fst (bump k z g) = map fst g.
Proof.
  induction g as [|[k' z'] g IH]; simpl; [reflexivity|].
  destruct (key_eqb k k'); simpl; [reflexivity | now rewrite IH].
Qed.

Lemma keys_place (k : list value) (z : Z) (g : list (list value * Z)) :
  Permutation (map fst (place k z g)) (k :: map fst g).
Proof.
  induction g as [|[k' z'] g IH]; simpl; [reflexivity|].
  destruct (key_ltb k k'); simpl; [reflexivity|].
  rewrite IH. apply perm_swap.
Qed.

(** Groups keep distinct keys. *)
Lemma NoDup_group_add (k : list value) (z : Z) (g : list (list value * Z)) :
  NoDup (map fst g) -> NoDup (map fst (group_add k z g)).
Proof.
  intros H. unfold group_add. destruct (has_group k g) eqn:E.
  - now rewrite keys_bump.
  - eapply Permutation_NoDup; [symmetry; apply keys_place|].
    constructor; [|assumption]. intros Hin. apply has_group_In in Hin. congruence.
Qed.

Lemma In_keys_group_add (k k0 : list value) (z : Z) (g : list (list value * Z)) :
  In k (map fst (group_add k0 z g)) <-> k = k0 \/ In k (map fst g).
Proof.
  unfold group_add. destruct (has_group k0 g) eqn:E.
  - rewrite keys_bump. apply has_group_In in E. split; [auto|]. intros [->|H]; auto.
  - split; intros H.
    + apply (Permutation_in _ (keys_place k0 z g)) in H. destruct H; auto.
    + apply (Permutation_in _ (Permutation_sym (keys_place k0 z g))).
      destruct H; [left | right]; auto.
Qed.

Lemma summand_int_of (v : value) (z : Z) : summand v = Ok z -> z = int_of v.
Proof. destruct v; simpl; congruence. Qed.

Lemma has_group_cons (k k' : list value) (z' : Z) (g : list (list value * Z)) :
  has_group k ((k', z') :: g) = (key_eqb k k' || has_group k g)%bool.
Proof. reflexivity. Qed.

(** ** int64 sums *)

Lemma wrap64_small (z : Z) : - 2 ^ 63 <= z < 2 ^ 63 -> wrap64 z = z.
Proof. intros H. unfold wrap64. rewrite Z.mod_small; lia. Qed.

Lemma wrap64_range (z : Z) : - 2 ^ 63 <= wrap64 z < 2 ^ 63.
Proof.
  unfold wrap64. pose proof (Z.mod_pos_bound (z + 2 ^ 63) (2 ^ 64)) as Hm. lia.
Qed.

(** Wrapping on the way changes nothing of the wrapped total. *)
Lemma wrap64_add_l (a b : Z) : wrap64 (wrap64 a + b) = wrap64 (a + b).
Proof.
  unfold wrap64.
  replace ((a + 2 ^ 63) mod 2 ^ 64 - 2 ^ 63 + b + 2 ^ 63)
    with ((a + 2 ^ 63) mod 2 ^ 64 + b) by lia.
  rewrite Zplus_mod_idemp_l. f_equal. f_equal. lia.
Qed.

Lemma add64_fit (a b : Z) : Z.abs a + Z.abs b < 2 ^ 63 -> add64 a b = a + b.
Proof. intros H. apply wrap64_small. lia. Qed.

Lemma int64_spec (z : Z) : int64 z = true <-> - 2 ^ 63 < z < 2 ^ 63.
Proof. unfold int64. rewrite andb_true_iff, !Z.ltb_lt. tauto. Qed.

Lemma column_abs_sum_nonneg (c : string) (rs : list Row) : 0 <= column_abs_sum c rs.
Proof. induction rs as [|r rs IH]; simpl; lia. Qed.

Lemma column_sum_abs (c : string) (rs : list Row) :
  Z.abs (column_sum c rs) <= column_abs_sum c rs.
Proof. induction rs as [|r rs IH]; simpl; lia. Qed.

Lemma column_abs_sum_filter (c : string) (p : Row -> bool) (rs : list Row) :
  column_abs_sum c (filter p rs) <= column_abs_sum c rs.
Proof.
  induction rs as [|r rs IH]; simpl; [lia|]. destruct (p r); simpl; lia.
Qed.

Lemma column_abs_sum_In (c : string) (r : Row) (rs : list Row) :
  In r rs -> Z.abs (int_of (cell c r)) <= column_abs_sum c rs.
Proof.
  induction rs as [|r' rs IH]; simpl; [intros []|].
  pose proof (column_abs_sum_nonneg c rs) as Hpos.
  intros [->|Hin]; [lia | specialize (IH Hin); lia].
Qed.

(** When the magnitudes fit, so does the total of every part. *)
Lemma column_sum_fits (c : string) (p : Row -> bool) (rs : list Row) :
  column_abs_sum c rs < 2 ^ 63 ->
  wrap64 (column_sum c (filter p rs)) = column_sum c (filter p rs).
Proof.
  intros H. apply wrap64_small.
  pose proof (column_sum_abs c (filter p rs)) as H1.
  pose proof (column_abs_sum_filter c p rs) as H2. lia.
Qed.

Lemma gabs_nonneg (g : list (list value * Z)) : 0 <= gabs g.
Proof. induction g as [|e g IH]; simpl; lia. Qed.

Lemma gabs_bump (k : list value) (z : Z) (g : list (list value * Z)) :
  gabs g + Z.abs z < 2 ^ 63 -> gabs (bump k z g) <= gabs g + Z.abs z.
Proof.
  induction g as [|[k' z'] g IH]; simpl; [lia|].
  pose proof (gabs_nonneg g) as Hpos. intros Hfit.
  destruct (key_eqb k k'); simpl.
  - rewrite add64_fit by lia. lia.
  - assert (gabs (bump k z g) <= gabs g + Z.abs z) by (apply IH; lia). lia.
Qed.

Lemma gabs_place (k : list value) (z : Z) (g : list (list value * Z)) :
  gabs (place k z g) = gabs g + Z.abs z.
Proof.
  induction g as [|[k' z'] g IH]; simpl; [lia|].
  destruct (key_ltb k k'); simpl; [lia | rewrite IH; lia].
Qed.

Lemma gabs_group_add (k : list value) (z : Z) (g : list (list value * Z)) :
  gabs g + Z.abs z < 2 ^ 63 -> gabs (group_add k z g) <= gabs g + Z.abs z.
Proof.
  intros H. unfold group_add. destruct (has_group k g).
  - now apply gabs_bump.
  - rewrite gabs_place. lia.
Qed.

Lemma gsum_bump (P : list value -> bool) (k : list value) (z : Z)
    (g : list (list value * Z)) :
  has_group k g = true ->
  gabs g + Z.abs z < 2 ^ 63 ->
  gsum P (bump k z g) = gsum P g + (if P k then z else 0).
Proof.
  induction g as [|[k' z'] g IH]; [discriminate|].
  rewrite has_group_cons. simpl. pose proof (gabs_nonneg g) as Hpos.
  destruct (key_eqb k k') eqn:E; simpl.
  - intros _ Hfit. apply key_eqb_eq in E. subst k'.
    rewrite add64_fit by lia. destruct (P k); lia.
  - intros H' Hfit. rewrite (IH H') by lia. lia.
Qed.

Lemma gsum_place (P : list value -> bool) (k : list value) (z : Z)
    (g : list (list value * Z)) :
  gsum P (place k z g) = gsum P g + (if P k then z else 0).
Proof.
  induction g as [|[k' z'] g IH]; simpl; [lia|].
  destruct (key_ltb k k'); simpl; [lia | rewrite IH; lia].
Qed.

Lemma gsum_group_add (P : list value -> bool) (k : list value) (z : Z)
    (g : list (list value * Z)) :
  gabs g + Z.abs z < 2 ^ 63 ->
  gsum P (group_add k z g) = gsum P g + (if P k then z else 0).
Proof.
  intros Hfit. unfold group_add. destruct (has_group k g) eqn:E;
    [now apply gsum_bump | apply gsum_place].
Qed.

(** As long as the magnitudes fit, the pooled total of the groups is the
    total of the rows they hold. *)
Lemma group_rows_gsum (labels : list string) (col : string) (P : list value -> bool)
    (rs : list Row) (g g' : list (list value * Z)) :
  group_rows labels col rs g = Ok g' ->
  gabs g + column_abs_sum col rs < 2 ^ 63 ->
  gsum P g' = gsum P g + column_sum col (filter (keyed labels P) rs).
Proof.
  revert g. induction rs as [|r rs IH]; simpl; intros g H Hfit.
  - injection H as <-. lia.
  - pose proof (column_abs_sum_nonneg col rs) as Hpos.
    unfold keyed at 1. destruct (key_of labels r) as [k|].
    + destruct (summand (cell col r)) as [z|] eqn:Ez; [|discriminate].
      simpl in H. apply summand_int_of in Ez. subst z.
      pose proof (gabs_group_add k (int_of (cell col r)) g) as Hadd.
      apply IH in H; [|lia]. rewrite H, gsum_group_add by lia.
      destruct (P k); simpl; lia.
    + apply IH; [assumption | lia].
Qed.

Lemma group_rows_total (labels : list string) (col : string)
    (rs : list Row) (g : list (list value * Z)) :
  (forall r, In r rs -> is_ok (summand (cell col r)) = true) ->
  exists g', group_rows labels col rs g = Ok g'.
Proof.
  revert g. induction rs as [|r rs IH]; simpl; intros g H; [eauto|].
  assert (Hrs : forall r', In r' rs -> is_ok (summand (cell col r')) = true) by auto.
  destruct (key_of labels r); [|now apply IH].
  specialize (H r (or_introl eq_refl)).
  destruct (summand (cell col r)); [|discriminate]. simpl. now apply IH.
Qed.

Lemma NoDup_group_rows (labels : list string) (col : string)
    (rs : list Row) (g g' : list (list value * Z)) :
  group_rows labels col rs g = Ok g' ->
  NoDup (map fst g) -> NoDup (map fst g').
Proof.
  revert g. induction rs as [|r rs IH]; simpl; intros g H Hg.
  - now injection H as <-.
  - destruct (key_of labels r) as [k|]; [|now apply (IH g)].
    destruct (summand (cell col r)) as [z|]; [|discriminate].
    simpl in H. apply (IH _ H). now apply NoDup_group_add.
Qed.

Lemma glookup_none (k : list value) (g : list (list value * Z)) :
  glookup k g = None <-> has_group k g = false.
Proof.
  induction g as [|[k' z'] g IH]; [split; reflexivity|].
  rewrite has_group_cons. simpl. destruct (key_eqb k k'); simpl; [|exact IH].
  split; discriminate.
Qed.

Lemma glookup_bump (k k0 : list value) (z : Z) (g : list (list value * Z)) :
  glookup k (bump k0 z g) =
  if key_eqb k k0 then
    match glookup k g with Some z' => Some (add64 z' z) | None => None end
  else glookup k g.
Proof.
  induction g as [|[k' z'] g IH]; simpl.
  - now destruct (key_eqb k k0).
  - destruct (key_eqb k0 k') eqn:E0; simpl.
    + apply key_eqb_eq in E0. subst k'.
      destruct (key_eqb k k0); reflexivity.
    + rewrite IH. destruct (key_eqb k k') eqn:E; [|reflexivity].
      apply key_eqb_eq in E. subst k'.
      destruct (key_eqb k k0) eqn:E1; [|reflexivity].
      apply key_eqb_eq in E1. subst k0. rewrite key_eqb_refl in E0. discriminate.
Qed.

Lemma glookup_place (k k0 : list value) (z : Z) (g : list (list value * Z)) :
  glookup k0 g = None ->
  glookup k (place k0 z g) = if key_eqb k k0 then Some z else glookup k g.
Proof.
  induction g as [|[k' z'] g IH]; simpl; [reflexivity|].
  destruct (key_eqb k0 k') eqn:E0; [discriminate|]. intros H.
  destruct (key_ltb k0 k'); simpl; [reflexivity|].
  rewrite (IH H). destruct (key_eqb k k') eqn:E; [|reflexivity].
  apply key_eqb_eq in E. subst k'.
  destruct (key_eqb k k0) eqn:E1; [|reflexivity].
  apply key_eqb_eq in E1. subst k0. rewrite key_eqb_refl in E0. discriminate.
Qed.

(** The total of a key after one more row: the row's count for a new key,
    the int64 sum for a key that has a group. *)
Lemma glookup_group_add (k k0 : list value) (z : Z) (g : list (list value * Z)) :
  glookup k (group_add k0 z g) =
  if key_eqb k k0
  then Some (match glookup k g with Some z' => add64 z' z | None => z end)
  else glookup k g.
Proof.
  unfold group_add. destruct (has_group k0 g) eqn:E.
  - rewrite glookup_bump. destruct (key_eqb k k0) eqn:E1; [|reflexivity].
    apply key_eqb_eq in E1. subst k0.
    destruct (glookup k g) eqn:El; [reflexivity|].
    apply glookup_none in El. congruence.
  - apply glookup_none in E. rewrite (glookup_place _ _ _ _ E).
    destruct (key_eqb k k0) eqn:E1; [|reflexivity].
    apply key_eqb_eq in E1. subst k0. now rewrite E.
Qed.

Lemma column_sum_no_rows (col : string) (p : Row -> bool) (rs : list Row) :
  existsb p rs = false -> column_sum col (filter p rs) = 0.
Proof.
  induction rs as [|r rs IH]; simpl; [reflexivity|].
  intros H. apply orb_false_iff in H as [Hr Hrs]. rewrite Hr. now apply IH.
Qed.

(** The total recorded for a key is the int64 sum of the rows with that
    key, and a key without rows has no group. *)
Lemma group_rows_glookup (labels : list string) (col : string) (k : list value)
    (rs : list Row) (g g' : list (list value * Z)) :
  group_rows labels col rs g = Ok g' ->
  (forall r, In r rs -> int64 (int_of (cell col r)) = true) ->
  glookup k g' =
  if existsb (keyed labels (key_eqb k)) rs
  then Some (wrap64 (zero_or (glookup k g)
                     + column_sum col (filter (keyed labels (key_eqb k)) rs)))
  else glookup k g.
Proof.
  revert g. induction rs as [|r rs IH]; simpl; intros g H Hcells.
  - now injection H as <-.
  - assert (Hrs : forall r', In r' rs -> int64 (int_of (cell col r')) = true) by auto.
    unfold keyed at 1 3. destruct (key_of labels r) as [k0|]; [|now apply IH].
    destruct (summand (cell col r)) as [z|] eqn:Ez; [|discriminate].
    simpl in H. apply (IH _ H) in Hrs. rewrite Hrs, glookup_group_add.
    apply summand_int_of in Ez. subst z.
    assert (Hz : wrap64 (int_of (cell col r)) = int_of (cell col r)).
    { assert (Hr : int64 (int_of (cell col r)) = true) by (apply Hcells; now left).
      apply int64_spec in Hr. apply wrap64_small. lia. }
    destruct (key_eqb k k0); simpl; [|reflexivity].
    destruct (existsb _ rs) eqn:Ex; simpl; f_equal.
    + destruct (glookup k g) as [z'|]; simpl.
      * unfold add64. rewrite wrap64_add_l. f_equal; lia.
      * f_equal; lia.
    + rewrite (column_sum_no_rows _ _ _ Ex).
      destruct (glookup k g) as [z'|]; simpl.
      * unfold add64. f_equal; lia.
      * rewrite ?Z.add_0_r. symmetry. exact Hz.
Qed.

Lemma In_glookup (k : list value) (z : Z) (g : list (list value * Z)) :
  NoDup (map fst g) -> (In (k, z) g <-> glookup k g = Some z).
Proof.
  induction g as [|[k' z'] g IH]; simpl; intros Hnd.
  - split; [intros [] | discriminate].
  - inversion Hnd as [|? ? Hk Hg]; subst.
    destruct (key_eqb k k') eqn:E.
    + apply key_eqb_eq in E. subst k'. split.
      * intros [[= ->]|Hin]; [reflexivity|].
        exfalso. apply Hk. apply in_map_iff. now exists (k, z).
      * intros [= ->]. now left.
    + rewrite <- (IH Hg). split; [|now right].
      intros [[= -> ->]|Hin]; [|assumption].
      rewrite key_eqb_refl in E. discriminate.
Qed.

(** The groups of a frame: one per key that some row carries, with the
    int64 sum of the rows carrying it. *)
Lemma groups_of_rows64 (labels : list string) (col : string)
    (rs : list Row) (g : list (list value * Z)) (k : list value) (z : Z) :
  group_rows labels col rs [] = Ok g ->
  (forall r, In r rs -> int64 (int_of (cell col r)) = true) ->
  (In (k, z) g <->
   existsb (keyed labels (key_eqb k)) rs = true /\
   z = wrap64 (column_sum col (filter (keyed labels (key_eqb k)) rs))).
Proof.
  intros H Hcells.
  rewrite (In_glookup k z g (NoDup_group_rows _ _ _ _ _ H (NoDup_nil _))).
  rewrite (group_rows_glookup _ _ k _ _ _ H Hcells). simpl.
  destruct (existsb _ rs).
  - split; [intros [= <-]; auto | intros [_ ->]; reflexivity].
  - split; [discriminate | intros [? _]; discriminate].
Qed.

(** When the magnitudes fit, the sums are exact. *)
Lemma groups_of_rows (labels : list string) (col : string)
    (rs : list Row) (g : list (list value * Z)) (k : list value) (z : Z) :
  group_rows labels col rs [] = Ok g ->
  column_abs_sum col rs < 2 ^ 63 ->
  (In (k, z) g <->
   existsb (keyed labels (key_eqb k)) rs = true /\
   z = column_sum col (filter (keyed labels (key_eqb k)) rs)).
Proof.
  intros H Hfit. rewrite (groups_of_rows64 _ _ _ _ k z H).
  - now rewrite (column_sum_fits col _ rs Hfit).
  - intros r Hr. apply int64_spec.
    pose proof (column_abs_sum_In col r rs Hr) as Hle. lia.
Qed.

(** ** Frames of case records *)

Lemma case_record_cells (r : Row) :
  is_case_record r = true ->
  exists s y c,
    cell "Region" r = VStr s /\ cell "Year" r = VInt y /\ cell "Cases" r = VInt c.
Proof.
  unfold is_case_record.
  destruct (cell "Region" r) as [s| | | |]; try discriminate.
  destruct (cell "Year" r) as [|y| | |]; try discriminate.
  destruct (cell "Cases" r) as [|c| | |]; try discriminate.
  intros _. now exists s, y, c.
Qed.

Lemma case_records_inv (f : DataFrame) :
  case_records f = true ->
  has_label "Region" (columns f) = true /\ has_label "Year" (columns f) = true /\
  has_label "Cases" (columns f) = true /\
  forall r, In r (rows f) -> is_case_record r = true.
Proof.
  unfold case_records. rewrite !andb_true_iff. intros [[[H1 H2] H3] H4].
  repeat split; try assumption. intros r Hr. now apply (forallb_In _ _ r) in H4.
Qed.

Lemma case_record_summand (r : Row) :
  is_case_record r = true -> is_ok (summand (cell "Cases" r)) = true.
Proof. intros H. destruct (case_record_cells r H) as (s & y & c & _ & _ & ->). reflexivity. Qed.

Lemma select_rows_filter (p : Row -> bool) (rs : list Row) :
  select_rows (map p rs) rs = filter p rs.
Proof.
  induction rs as [|r rs IH]; simpl; [reflexivity|].
  rewrite IH. reflexivity.
Qed.

Lemma filter_filter {A : Type} (p q : A -> bool) (l : list A) :
  filter p (filter q l) = filter (fun x => q x && p x) l.
Proof.
  induction l as [|x l IH]; simpl; [reflexivity|].
  destruct (q x); simpl; [destruct (p x)|]; now rewrite IH.
Qed.

Lemma filter_all {A : Type} (p : A -> bool) (l : list A) :
  (forall x, In x l -> p x = true) -> filter p l = l.
Proof.
  induction l as [|x l IH]; simpl; intros H; [reflexivity|].
  rewrite (H x) by now left. rewrite IH; [reflexivity|]. intros; apply H; now right.
Qed.

(** ** Rows of a grouping *)

Lemma cell_group_row_region (k : list value) (z : Z) :
  cell "Region" (group_row ["Region"] "Cases" (k, z)) = hd VNA k.
Proof. destruct k as [|v k]; reflexivity. Qed.

Lemma cell_group_row_cases (k : list value) (z : Z) :
  cell "Cases" (group_row ["Region"] "Cases" (k, z)) = VInt z.
Proof. destruct k as [|v k]; reflexivity. Qed.

Lemma keyed_region (P : value -> bool) (r : Row) :
  P VNA = false ->
  keyed ["Region"] (fun k => P (hd VNA k)) r = P (cell "Region" r).
Proof.
  intros HP. unfold keyed, key_of. simpl.
  destruct (cell "Region" r); simpl; auto.
Qed.

Lemma column_sum_with_coords (c : string) (rs : list Row) :
  c <> "lat" -> c <> "lon" ->
  column_sum c (map with_coords rs) = column_sum c rs.
Proof.
  intros N1 N2. induction rs as [|r rs IH]; simpl; [reflexivity|].
  now rewrite IH, cell_with_coords_other.
Qed.

Lemma column_sum_group_rows (P : value -> bool) (g : list (list value * Z)) :
  column_sum "Cases"
    (filter (fun r => P (cell "Region" r)) (map (group_row ["Region"] "Cases") g)) =
  gsum (fun k => P (hd VNA k)) g.
Proof.
  induction g as [|[k z] g IH]; simpl; [reflexivity|].
  rewrite cell_group_row_region. destruct (P (hd VNA k)); simpl.
  - now rewrite cell_group_row_cases, IH.
  - now rewrite IH.
Qed.

Lemma groupby_sum_run (f : DataFrame) (labels : list string) (col : string)
    (g : list (list value * Z)) :
  forallb (fun c => has_label c (columns f)) labels = true ->
  has_label col (columns f) = true ->
  group_rows labels col (rows f) [] = Ok g ->
  groupby_sum f labels col =
  Ok (mkDataFrame (labels ++ [col]) (map (group_row labels col) g)).
Proof.
  intros Hl Hc Hg. unfold groupby_sum.
  destruct (find _ labels) as [c|] eqn:E.
  - apply find_some in E as [Hin E]. apply (forallb_In _ _ c) in Hl; [|assumption].
    cbv beta in Hl. rewrite Hl in E. discriminate.
  - rewrite Hc, Hg. reflexivity.
Qed.

Lemma store_set_new (st : Store) (f g : DataFrame) :
  store_set (List.length st) g (st ++ [f])%list = (st ++ [g])%list.
Proof. induction st as [|h st IH]; simpl; [reflexivity | now rewrite IH]. Qed.

Lemma groupby_sum_columns (f out : DataFrame) (labels : list string) (col : string) :
  groupby_sum f labels col = Ok out -> columns out = (labels ++ [col])%list.
Proof.
  unfold groupby_sum. destruct (find _ _); [discriminate|].
  destruct (has_label col _); [|discriminate].
  destruct (group_rows _ _ _ _); [|discriminate].
  now intros [= <-].
Qed.

Lemma setitem_apply_rows (df : DataFrame) (c : string) (f : Row -> result value) :
  rows df <> [] ->
  (forall r, In r (rows df) -> is_ok (f r) = true) ->
  setitem_apply df c f =
  Ok (mkDataFrame (add_label c (columns df))
        (map (fun r => set_cell c (ok_or VNA (f r)) r) (rows df))).
Proof.
  destruct df as [cols rs]. cbn [rows columns]. intros Hne Hok.
  unfold setitem_apply. cbn [rows columns].
  rewrite (series_apply_ok VNA) by (apply forallb_forall; exact Hok).
  cbn [bind]. unfold setitem. cbn [rows columns].
  rewrite (set_cells_map c (fun r => ok_or VNA (f r))).
  destruct rs as [|r rs]; [contradiction | reflexivity].
Qed.

(** The calls of [df_total], one after the other, for any frame at the
    reference: the totals go to a new frame that receives the coordinates,
    the rows of known regions go to a second new frame that receives the
    hover text. *)
Lemma df_total_steps (st : Store) (l : loc) (f : DataFrame) (year : Z) :
  nth_error st l = Some f ->
  df_total l year st =
  match getitem f "Year" with
  | Err e => Err e
  | Ok years =>
      match groupby_sum (select f (map (eq_int year) years)) ["Region"] "Cases" with
      | Err e => Err e
      | Ok totals =>
          match setitem_apply
                  (mkDataFrame (columns (with_coords_frame totals))
                     (map with_coords (filter known_region (rows totals))))
                  "Hover" hover_text with
          | Err e => Err e
          | Ok out =>
              Ok (S (List.length st), (st ++ [with_coords_frame totals; out])%list)
          end
      end
  end.
Proof.
  intros Hl. unfold df_total, bindM, deref, raise_or, new, ret. rewrite Hl.
  destruct (getitem f "Year") as [years|]; [|reflexivity].
  destruct (groupby_sum _ _ _) as [totals|] eqn:Hg; [|reflexivity].
  assert (HR : has_label "Region" (columns totals) = true)
    by now rewrite (groupby_sum_columns _ _ _ _ Hg).
  rewrite (add_coordinates_run (st ++ [totals])%list (List.length st) totals
             (nth_error_new st totals) HR).
  rewrite store_set_new.
  assert (Hlen : List.length (st ++ [totals])%list
                 = List.length (st ++ [with_coords_frame totals])%list)
    by now rewrite !length_app.
  rewrite Hlen, nth_error_new.
  fold (known_region).
  destruct (setitem_apply _ _ _) as [out|]; [|reflexivity].
  unfold assign. rewrite nth_error_new, store_set_new, <- app_assoc.
  rewrite length_app. simpl.
  replace (List.length st + 1)%nat with (S (List.length st)) by lia. reflexivity.
Qed.

(** What [df_total] computes on a frame of case records: the groups of the
    year's rows, of which the known regions are shown; when none is, the
    hover column cannot be written. *)
Lemma df_total_run (st : Store) (l : loc) (f : DataFrame) (year : Z) :
  nth_error st l = Some f ->
  case_records f = true ->
  exists g,
    group_rows ["Region"] "Cases" (filter (year_is year) (rows f)) [] = Ok g /\
    let totals := mkDataFrame ["Region"; "Cases"] (map (group_row ["Region"] "Cases") g) in
    let shown := map with_coords (filter known_region (rows totals)) in
    df_total l year st =
    match shown with
    | [] => Err ValueError
    | _ :: _ =>
        Ok (S (List.length st),
            (st ++ [with_coords_frame totals;
                    mkDataFrame ["Region"; "Cases"; "lat"; "lon"; "Hover"]
                      (map with_hover shown)])%list)
    end.
Proof.
  intros Hl Hf. destruct (case_records_inv f Hf) as (HR & HY & HC & Hrows).
  destruct (group_rows_total ["Region"] "Cases" (filter (year_is year) (rows f)) [])
    as [g Hg].
  { intros r Hr. apply filter_In in Hr as [Hr _]. apply case_record_summand. auto. }
  exists g. split; [assumption|]. cbv zeta. cbn [rows].
  rewrite (df_total_steps st l f year Hl).
  unfold getitem. rewrite HY. rewrite map_map.
  unfold select. rewrite (select_rows_filter (fun r => eq_int year (cell "Year" r))).
  rewrite (groupby_sum_run _ ["Region"] "Cases" g); cbn [columns]; try assumption.
  2:{ simpl. now rewrite HR. }
  cbn [rows app].
  set (shown := map with_coords (filter known_region (map (group_row ["Region"] "Cases") g))).
  assert (Hhover : forall r, In r shown -> is_ok (hover_text r) = true).
  { intros r Hr. unfold shown in Hr.
    apply in_map_iff in Hr as (r1 & <- & Hr1).
    apply filter_In in Hr1 as [Hin Hk].
    apply in_map_iff in Hin as ([k z] & <- & _).
    unfold known_region in Hk. unfold hover_text.
    rewrite !cell_with_coords_other by discriminate.
    rewrite cell_group_row_cases.
    destruct (cell "Region" (group_row ["Region"] "Cases" (k, z)));
      try discriminate. reflexivity. }
  destruct shown as [|r0 rest] eqn:Es; [reflexivity|].
  rewrite setitem_apply_rows.
  - reflexivity.
  - discriminate.
  - exact Hhover.
Qed.

Lemma keys_of_groups (labels : list string) (col : string)
    (rs : list Row) (g g' : list (list value * Z)) (k : list value) :
  group_rows labels col rs g = Ok g' ->
  In k (map fst g') ->
  In k (map fst g) \/ exists r, In r rs /\ key_of labels r = Some k.
Proof.
  revert g. induction rs as [|r rs IH]; simpl; intros g H Hk.
  - injection H as <-. now left.
  - destruct (key_of labels r) as [k0|] eqn:Ek.
    + destruct (summand (cell col r)) as [z|]; [|discriminate]. simpl in H.
      destruct (IH _ H Hk) as [Hin|(r' & Hr' & E)].
      * apply In_keys_group_add in Hin as [->|Hin]; [|now left].
        right. exists r. auto.
      * right. exists r'. auto.
    + destruct (IH _ H Hk) as [Hin|(r' & Hr' & E)]; [now left|].
      right. exists r'. auto.
Qed.

Lemma group_rows_keys (labels : list string) (col : string)
    (rs : list Row) (g g' : list (list value * Z)) (k : list value) :
  group_rows labels col rs g = Ok g' ->
  In k (map fst g) \/ (exists r, In r rs /\ key_of labels r = Some k) ->
  In k (map fst g').
Proof.
  revert g. induction rs as [|r rs IH]; simpl; intros g H Hk.
  - injection H as <-. destruct Hk as [Hk|(r & [] & _)]. exact Hk.
  - destruct (key_of labels r) as [k0|] eqn:Ek.
    + destruct (summand (cell col r)) as [z|]; [|discriminate]. simpl in H.
      apply (IH _ H). destruct Hk as [Hk|(r' & [<-|Hr'] & E)].
      * left. apply In_keys_group_add. now right.
      * left. apply In_keys_group_add. left. congruence.
      * right. now exists r'.
    + apply (IH _ H). destruct Hk as [Hk|(r' & [<-|Hr'] & E)].
      * now left.
      * congruence.
      * right. now exists r'.
Qed.

Lemma key_of_length (labels : list string) (r : Row) (k : list value) :
  key_of labels r = Some k -> List.length k = List.length labels.
Proof.
  unfold key_of. destruct (existsb isna _); [discriminate|].
  intros [= <-]. apply length_map.
Qed.

Lemma group_keys_length (labels : list string) (col : string)
    (rs : list Row) (g : list (list value * Z)) (e : list value * Z) :
  group_rows labels col rs [] = Ok g -> In e g ->
  List.length (fst e) = List.length labels.
Proof.
  intros H He.
  destruct (keys_of_groups _ _ _ _ _ (fst e) H (in_map fst _ _ He)) as [[]|(r & _ & E)].
  now apply key_of_length in E.
Qed.

(** ** Sorting *)

Lemma insert_desc_perm (c : string) (r : Row) (rs : list Row) :
  Permutation (insert_desc c r rs) (r :: rs).
Proof.
  induction rs as [|r' rs IH]; simpl; [reflexivity|].
  destruct (value_ltb (cell c r) (cell c r')); [|reflexivity].
  rewrite IH. apply perm_swap.
Qed.

Lemma sort_desc_perm (c : string) (rs : list Row) :
  Permutation (fold_right (insert_desc c) [] rs) rs.
Proof.
  induction rs as [|r rs IH]; simpl; [reflexivity|].
  rewrite insert_desc_perm. now constructor.
Qed.

Lemma column_sum_perm (c : string) (rs rs' : list Row) :
  Permutation rs rs' -> column_sum c rs = column_sum c rs'.
Proof. induction 1; simpl; lia. Qed.

(** What [region_totals_df] computes on a frame of case records. *)
Lemma region_totals_df_run (f : DataFrame) :
  case_records f = true ->
  exists g,
    group_rows ["Region"] "Cases" (rows f) [] = Ok g /\
    region_totals_df f =
    Ok (mkDataFrame ["Region"; "Total Cases"]
          (fold_right (insert_desc "Total Cases") [] (map total_row g))).
Proof.
  intros Hf. destruct (case_records_inv f Hf) as (HR & HY & HC & Hrows).
  destruct (group_rows_total ["Region"] "Cases" (rows f) []) as [g Hg].
  { intros r Hr. apply case_record_summand. auto. }
  exists g. split; [assumption|].
  unfold region_totals_df.
  rewrite (groupby_sum_run _ ["Region"] "Cases" g); simpl; try assumption.
  2:{ now rewrite HR. }
  unfold set_columns, sort_values_desc. simpl. do 3 f_equal.
  rewrite map_map. apply map_ext_in. intros [k z] He.
  pose proof (group_keys_length _ _ _ _ _ Hg He) as Hlen. simpl in Hlen.
  destruct k as [|v [|w k]]; try discriminate. reflexivity.
Qed.

Lemma column_sum_total_rows (g : list (list value * Z)) :
  column_sum "Total Cases" (map total_row g) = gsum (fun _ => true) g.
Proof. induction g as [|[k z] g IH]; simpl; [reflexivity | now rewrite IH]. Qed.

Lemma column_sum_with_hover (c : string) (rs : list Row) :
  c <> "Hover" -> column_sum c (map with_hover rs) = column_sum c rs.
Proof.
  intros N. induction rs as [|r rs IH]; simpl; [reflexivity|].
  rewrite IH. unfold with_hover at 1. now rewrite cell_set_cell_other.
Qed.

Lemma sums_fit_int64 (f : DataFrame) :
  sums_fit f = true -> int64_counts f = true.
Proof.
  unfold sums_fit, int64_counts. intros H. apply Z.ltb_lt in H.
  apply forallb_forall. intros r Hr.
  pose proof (column_abs_sum_In "Cases" r (rows f) Hr) as Hle.
  apply int64_spec. lia.
Qed.

Lemma sums_fit_spec (f : DataFrame) :
  sums_fit f = true <-> column_abs_sum "Cases" (rows f) < 2 ^ 63.
Proof. unfold sums_fit. apply Z.ltb_lt. Qed.

(** The map has something to show exactly when a record of the year
    belongs to a region of the coordinate table. *)
Lemma shown_groups (rs : list Row) (g : list (list value * Z)) :
  (forall r, In r rs -> is_case_record r = true) ->
  group_rows ["Region"] "Cases" rs [] = Ok g ->
  (filter known_region (map (group_row ["Region"] "Cases") g) = [] <->
   forall r, In r rs -> known_region r = false).
Proof.
  intros Hrows Hg.
  assert (Hkey : forall r, In r rs ->
            key_of ["Region"] r = Some [cell "Region" r]).
  { intros r Hr. destruct (case_record_cells r (Hrows r Hr)) as (s & _ & _ & HR & _).
    unfold key_of. simpl. now rewrite HR. }
  split.
  - intros Hnone r Hr. destruct (known_region r) eqn:Hk; [|reflexivity].
    assert (Hin : In [cell "Region" r] (map fst g)).
    { apply (group_rows_keys _ _ _ _ _ _ Hg). right. exists r. auto. }
    apply in_map_iff in Hin as ([k z] & E & He). simpl in E. subst k.
    assert (Hf : In (group_row ["Region"] "Cases" ([cell "Region" r], z))
                   (filter known_region (map (group_row ["Region"] "Cases") g))).
    { apply filter_In. split; [now apply in_map|].
      unfold known_region. now rewrite cell_group_row_region. }
    rewrite Hnone in Hf. destruct Hf.
  - intros Hnone.
    destruct (filter known_region _) as [|x rest] eqn:E; [reflexivity|].
    assert (Hx : In x (filter known_region (map (group_row ["Region"] "Cases") g)))
      by (rewrite E; now left).
    apply filter_In in Hx as [Hx Hk]. apply in_map_iff in Hx as ([k z] & <- & He).
    destruct (keys_of_groups _ _ _ _ _ k Hg (in_map fst _ _ He)) as [[]|(r & Hr & Ek)].
    rewrite (Hkey r Hr) in Ek. injection Ek as <-.
    unfold known_region in Hk. rewrite cell_group_row_region in Hk. simpl in Hk.
    specialize (Hnone r Hr). unfold known_region in Hnone. congruence.
Qed.

(** ** Claims about the aggregates *)

(** C4.  On every frame of case records whose counts are non-negative and
    stay within int64, and for every year: when some record of the year
    belongs to a region of the coordinate table, the totals of the frame
    the map is drawn from add up to the cases of the records of that year
    whose region is a key of the table (when none does, there is no such
    frame: writing the hover text raises ValueError); and the totals of
    the bar chart add up to the cases of all records, whatever their
    region. *)
Theorem aggregate_totals (st : Store) (l : loc) (f : DataFrame) (year : Z) :
  nth_error st l = Some f ->
  case_records f = true ->
  counts_nonneg f = true ->
  sums_fit f = true ->
  ((exists rec, In rec (rows f) /\ year_is year rec = true /\ known_region rec = true) ->
   exists l' st' out,
     df_total l year st = Ok (l', st') /\
     nth_error st' l' = Some out /\
     column_sum "Cases" (rows out) =
     column_sum "Cases"
       (filter (fun r => year_is year r && known_region r) (rows f))) /\
  ((forall rec, In rec (rows f) -> year_is year rec = true -> known_region rec = false) ->
   df_total l year st = Err ValueError) /\
  (exists out,
     region_totals_df f = Ok out /\
     column_sum "Total Cases" (rows out) = column_sum "Cases" (rows f)).
Proof.
  intros Hl Hf _ Hfit. apply sums_fit_spec in Hfit.
  destruct (case_records_inv f Hf) as (_ & _ & _ & Hrows).
  destruct (df_total_run st l f year Hl Hf) as (g & Hg & Hrun). cbv zeta in Hrun.
  cbn [rows] in Hrun.
  assert (Hsel : forall r, In r (filter (year_is year) (rows f)) ->
            is_case_record r = true).
  { intros r Hr. apply filter_In in Hr as [Hr _]. auto. }
  pose proof (shown_groups _ g Hsel Hg) as Hshown.
  split; [|split].
  - intros (rec & Hrec & HY & HK).
    destruct (filter known_region (map (group_row ["Region"] "Cases") g))
      as [|x rest] eqn:E.
    { exfalso. assert (Hno : known_region rec = false).
      { apply (proj1 Hshown eq_refl). apply filter_In. auto. }
      congruence. }
    rewrite <- E in Hrun. cbn [map] in Hrun. rewrite E in Hrun at 1. cbn [map] in Hrun.
    eexists. eexists. eexists. split; [exact Hrun|]. split.
    + rewrite nth_error_app2 by lia.
      replace (S (List.length st) - List.length st)%nat with 1%nat by lia. reflexivity.
    + cbn [rows]. rewrite column_sum_with_hover by discriminate.
      rewrite column_sum_with_coords by discriminate.
      unfold known_region at 1.
      rewrite (column_sum_group_rows in_table g).
      rewrite (group_rows_gsum _ _ (fun k => in_table (hd VNA k)) _ _ _ Hg).
      2:{ simpl gabs. pose proof (column_abs_sum_filter "Cases" (year_is year) (rows f)).
          lia. }
      simpl gsum. rewrite filter_filter, Z.add_0_l. f_equal. apply filter_ext.
      intros r. now rewrite (keyed_region in_table).
  - intros Hnone.
    assert (E : filter known_region (map (group_row ["Region"] "Cases") g) = []).
    { apply Hshown. intros r Hr. apply filter_In in Hr as [Hr HY]. auto. }
    rewrite E in Hrun. exact Hrun.
  - destruct (region_totals_df_run f Hf) as (g2 & Hg2 & Hrun2).
    eexists. split; [exact Hrun2|]. simpl rows.
    rewrite (column_sum_perm _ _ _ (sort_desc_perm _ _)), column_sum_total_rows.
    rewrite (group_rows_gsum _ _ (fun _ => true) _ _ _ Hg2) by (simpl gabs; lia).
    simpl gsum. rewrite filter_all; [apply Z.add_0_l|].
    intros r Hr.
    destruct (case_record_cells r (Hrows r Hr)) as (s & y & c & HR & _ & _).
    unfold keyed, key_of. simpl. now rewrite HR.
Qed.

Lemma aggregate_totals_witness :
  (exists l' st' out,
     df_total 0%nat 2019 [records_example] = Ok (l', st') /\
     nth_error st' l' = Some out /\
     column_sum "Cases" (rows out) = 18) /\
  df_total 0%nat 1999 [records_example] = Err ValueError /\
  (exists out,
     region_totals_df records_example = Ok out /\
     column_sum "Total Cases" (rows out) = 24).
Proof.
  destruct (aggregate_totals [records_example] 0%nat records_example 2019
              eq_refl eq_refl eq_refl eq_refl)
    as (Hmap & _ & (out2 & H4 & H5)).
  destruct (aggregate_totals [records_example] 0%nat records_example 1999
              eq_refl eq_refl eq_refl eq_refl)
    as (_ & Hnone & _).
  split; [|split].
  - destruct Hmap as (l' & st' & out & H1 & H2 & H3).
    { exists (case_row "Tripoli" 2019 3). split; [now left | split; reflexivity]. }
    exists l', st', out. split; [exact H1|]. split; [exact H2 | exact H3].
  - apply Hnone. intros rec Hrec HY. simpl in Hrec.
    repeat (destruct Hrec as [<-|Hrec]; [discriminate HY|]). destruct Hrec.
  - exists out2. split; [exact H4 | exact H5].
Defined.

(** C5.  On every frame with a Region column the call returns, and the
    frame it returns holds, in their order, exactly the rows of the input
    whose Region is a key of the coordinate table: each keeps all its cells
    and carries the latitude and longitude the table gives for its region.
    Rows of any other region are left out, and no other row is. *)
Theorem coordinates_filter (st : Store) (l : loc) (f : DataFrame) :
  nth_error st l = Some f ->
  has_label "Region" (columns f) = true ->
  exists l' st' out,
    add_coordinates l st = Ok (l', st') /\
    nth_error st' l' = Some out /\
    columns out = add_label "lon" (add_label "lat" (columns f)) /\
    Forall2
      (fun r r' =>
         (forall c, c <> "lat" -> c <> "lon" -> cell c r' = cell c r) /\
         exists s la lo,
           cell "Region" r = VStr s /\
           coords_of s REGION_COORDS = Some (la, lo) /\
           cell "lat" r' = VFloat la /\ cell "lon" r' = VFloat lo)
      (filter known_region (rows f)) (rows out).
Proof.
  intros Hl HR. eexists. eexists. eexists.
  split; [apply (add_coordinates_run st l f Hl HR)|].
  split; [rewrite <- (length_store_set l (with_coords_frame f) st); apply nth_error_new|].
  split; [reflexivity|]. simpl rows.
  apply Forall2_map_right. intros r Hr. apply filter_In in Hr as [_ Hr].
  split; [intros c; apply cell_with_coords_other|].
  apply in_table_coords in Hr as (s & la & lo & Hs & Hc).
  exists s, la, lo. rewrite cell_with_coords_lat, cell_with_coords_lon, Hs.
  rewrite (coords_get_found _ _ _ Hc). auto.
Qed.

Lemma coordinates_filter_witness :
  exists l' st' out,
    add_coordinates 0%nat [totals_example] = Ok (l', st') /\
    nth_error st' l' = Some out /\
    map (cell "Region") (rows out) = [VStr "Beqaa Valley"; VStr "Tripoli"].
Proof.
  destruct (coordinates_filter [totals_example] 0%nat totals_example eq_refl eq_refl)
    as (l' & st' & out & Hrun & Hout & _ & HF).
  exists l', st', out. split; [exact Hrun|]. split; [exact Hout|].
  change (filter known_region (rows totals_example))
    with [ [("Region", VStr "Beqaa Valley"); ("Cases", VInt 5)];
           [("Region", VStr "Tripoli"); ("Cases", VInt 3)] ] in HF.
  inversion HF as [|r1 r1' t1 t1' [H1 _] HF1 E1 E1']. subst.
  inversion HF1 as [|r2 r2' t2 t2' [H2 _] HF2 E2 E2']. subst.
  inversion HF2. subst. simpl.
  rewrite (H1 "Region"), (H2 "Region") by discriminate. reflexivity.
Defined.

(** C7, amended.  The call is not pure: it writes to the frame it was
    given.  What it changes there is the lat and lon columns, added or
    overwritten: the frame keeps its rows in their order, every cell under
    another label keeps its value, and the two new cells of a row are what
    the table gives for its Region, or missing.  Every other frame of the
    store is untouched, and the answer is a new frame.  The aggregate of
    [plot_bubble_map] hands over the totals it has just built, so no frame
    that existed before it is changed. *)
Theorem add_coordinates_effect (st : Store) (l : loc) (f : DataFrame) :
  nth_error st l = Some f ->
  has_label "Region" (columns f) = true ->
  (exists l' st' f',
     add_coordinates l st = Ok (l', st') /\
     l' = List.length st /\
     List.length st' = S (List.length st) /\
     (forall k, k <> l -> (k < List.length st)%nat -> nth_error st' k = nth_error st k) /\
     nth_error st' l = Some f' /\
     columns f' = add_label "lon" (add_label "lat" (columns f)) /\
     List.length (rows f') = List.length (rows f) /\
     forall i r r',
       nth_error (rows f) i = Some r ->
       nth_error (rows f') i = Some r' ->
       (forall c, c <> "lat" -> c <> "lon" -> cell c r' = cell c r) /\
       cell "lat" r' = fst (coords_get (cell "Region" r)) /\
       cell "lon" r' = snd (coords_get (cell "Region" r))) /\
  (forall year l' st',
     df_total l year st = Ok (l', st') ->
     forall k, (k < List.length st)%nat -> nth_error st' k = nth_error st k).
Proof.
  intros Hl HR. pose proof (nth_error_some_length _ _ _ Hl) as Hlt. split.
  - eexists. eexists. exists (with_coords_frame f).
    split; [apply (add_coordinates_run st l f Hl HR)|].
    split; [reflexivity|].
    split; [rewrite length_app, length_store_set; simpl; lia|].
    split.
    { intros k Hk Hlen. rewrite nth_error_app1 by (rewrite length_store_set; lia).
      now apply nth_error_store_set_other. }
    split.
    { rewrite nth_error_app1 by (rewrite length_store_set; lia).
      now apply nth_error_store_set_same. }
    split; [reflexivity|].
    split; [simpl; apply length_map|].
    intros i r r' Hr Hr'. simpl in Hr'. rewrite nth_error_map, Hr in Hr'.
    injection Hr' as <-.
    split; [intros c; apply cell_with_coords_other|].
    split; [apply cell_with_coords_lat | apply cell_with_coords_lon].
  - intros year l' st' Hrun k Hk.
    rewrite (df_total_steps st l f year Hl) in Hrun.
    destruct (getitem f "Year") as [years|]; [|discriminate].
    destruct (groupby_sum _ _ _) as [totals|]; [|discriminate].
    destruct (setitem_apply _ _ _) as [out|]; [|discriminate].
    injection Hrun as _ <-. now apply nth_error_app1.
Qed.

(** C7 as stated fails: after the call, the frame handed over has two more
    columns than before. *)
Lemma add_coordinates_effect_counterexample :
  ~ (forall l' st',
       add_coordinates 0%nat [totals_example] = Ok (l', st') ->
       nth_error st' 0%nat = Some totals_example).
Proof.
  intros H. specialize (H _ _ eq_refl). discriminate H.
Qed.

Lemma add_coordinates_effect_witness :
  exists l' st' f',
    add_coordinates 0%nat [totals_example] = Ok (l', st') /\
    nth_error st' 0%nat = Some f' /\
    columns f' = ["Region"; "Cases"; "lat"; "lon"] /\
    List.length (rows f') = 3%nat.
Proof.
  destruct (add_coordinates_effect [totals_example] 0%nat totals_example eq_refl eq_refl)
    as [(l' & st' & f' & Hrun & _ & _ & _ & Hf' & Hcols & Hlen & _) _].
  exists l', st', f'. split; [exact Hrun|]. split; [exact Hf'|].
  split; [exact Hcols | exact Hlen].
Defined.

Lemma keyed_year_region (y : Z) (s : string) (r : Row) :
  keyed ["Year"; "Region"] (key_eqb [VInt y; VStr s]) r = (region_is s r && year_is y r)%bool.
Proof.
  unfold keyed, key_of, region_is, year_is. simpl.
  destruct (cell "Year" r) as [|y'| | |], (cell "Region" r) as [t| | | |]; simpl;
    rewrite ?andb_false_r, ?andb_true_r; try reflexivity.
  now rewrite Z.eqb_sym, String.eqb_sym, andb_comm.
Qed.

Lemma isin_region (regions : list string) (s : string) (r : Row) :
  region_is s r = true ->
  isin regions (cell "Region" r) = true <-> In s regions.
Proof.
  unfold region_is. destruct (cell "Region" r) as [t| | | |]; try discriminate.
  intros E. apply String.eqb_eq in E. subst t. simpl. apply has_label_In.
Qed.

Lemma group_row_year_region (k : list value) (z : Z) (a b c : value) :
  List.length k = 2%nat ->
  group_row ["Year"; "Region"] "Cases" (k, z) =
    [("Year", a); ("Region", b); ("Cases", c)] ->
  k = [a; b] /\ c = VInt z.
Proof.
  destruct k as [|v [|w [|u k]]]; try discriminate.
  intros _. unfold group_row. simpl. intros [= -> -> <-]. auto.
Qed.

(** What [line_df] computes on a frame of case records. *)
Lemma line_df_run (f : DataFrame) (regions : list string) :
  case_records f = true ->
  exists g,
    group_rows ["Year"; "Region"] "Cases"
      (filter (fun r => isin regions (cell "Region" r)) (rows f)) [] = Ok g /\
    line_df f regions =
    Ok (mkDataFrame ["Year"; "Region"; "Cases"]
          (map (group_row ["Year"; "Region"] "Cases") g)).
Proof.
  intros Hf. destruct (case_records_inv f Hf) as (HR & HY & HC & Hrows).
  destruct (group_rows_total ["Year"; "Region"] "Cases"
              (filter (fun r => isin regions (cell "Region" r)) (rows f)) [])
    as [g Hg].
  { intros r Hr. apply filter_In in Hr as [Hr _]. apply case_record_summand. auto. }
  exists g. split; [assumption|].
  unfold line_df, getitem. rewrite HR. simpl bind. rewrite map_map.
  unfold select. rewrite (select_rows_filter (fun r => isin regions (cell "Region" r))).
  rewrite (groupby_sum_run _ ["Year"; "Region"] "Cases" g); simpl; try assumption.
  - reflexivity.
  - now rewrite HY, HR.
Qed.

(** C8.  On every frame of case records whose counts stay within int64
    and for every list of regions, the trend rows are rows (Year, Region,
    Cases), and the row (y, r, t) is among them exactly when r is one of
    the regions, some record has region r and year y, and t is the total
    of the cases of those records.  A region and year without records has
    no row. *)
Theorem trend_rows (f : DataFrame) (regions : list string) :
  case_records f = true ->
  sums_fit f = true ->
  exists out,
    line_df f regions = Ok out /\
    columns out = ["Year"; "Region"; "Cases"] /\
    (forall row, In row (rows out) ->
       exists y r t,
         row = [("Year", VInt y); ("Region", VStr r); ("Cases", VInt t)]) /\
    (forall r y t,
       In [("Year", VInt y); ("Region", VStr r); ("Cases", VInt t)] (rows out) <->
       In r regions /\
       (exists rec, In rec (rows f) /\ region_is r rec = true /\ year_is y rec = true) /\
       t = column_sum "Cases"
             (filter (fun rec => region_is r rec && year_is y rec) (rows f))).
Proof.
  intros Hf Hfit. apply sums_fit_spec in Hfit.
  destruct (line_df_run f regions Hf) as (g & Hg & Hrun).
  destruct (case_records_inv f Hf) as (_ & _ & _ & Hrows).
  assert (Hsfit : column_abs_sum "Cases"
                    (filter (fun r => isin regions (cell "Region" r)) (rows f)) < 2 ^ 63).
  { pose proof (column_abs_sum_filter "Cases"
                  (fun r => isin regions (cell "Region" r)) (rows f)) as Hle. lia. }
  eexists. split; [exact Hrun|]. split; [reflexivity|]. simpl rows. split.
  - intros row Hrow. apply in_map_iff in Hrow as ([k z] & <- & He).
    destruct (keys_of_groups _ _ _ _ _ k Hg (in_map fst _ _ He)) as [[]|(rec & Hrec & Ek)].
    apply filter_In in Hrec as [Hrec _].
    destruct (case_record_cells rec (Hrows rec Hrec)) as (s & y & c & HR & HY & _).
    unfold key_of in Ek. simpl in Ek. rewrite HR, HY in Ek. simpl in Ek.
    injection Ek as <-. now exists y, s, z.
  - intros r y t.
    assert (Hin : In [("Year", VInt y); ("Region", VStr r); ("Cases", VInt t)]
                    (map (group_row ["Year"; "Region"] "Cases") g) <->
                  In ([VInt y; VStr r], t) g).
    { split.
      - intros H. apply in_map_iff in H as ([k z] & E & He).
        apply group_row_year_region in E as [-> [= <-]]; [assumption|].
        apply (group_keys_length _ _ _ _ _ Hg He).
      - intros H. apply in_map_iff. now exists ([VInt y; VStr r], t). }
    rewrite Hin, (groups_of_rows _ _ _ _ _ t Hg Hsfit).
    rewrite existsb_exists, filter_filter. split.
    + intros [(rec & Hrec & Hk) ->]. apply filter_In in Hrec as [Hrec Hsel].
      rewrite keyed_year_region in Hk. apply andb_true_iff in Hk as [HR HY].
      assert (Hr : In r regions) by now apply (isin_region regions r rec HR).
      split; [assumption|]. split; [now exists rec|]. f_equal.
      apply filter_ext. intros x. rewrite keyed_year_region.
      destruct (region_is r x) eqn:Ex; [|now rewrite andb_false_r].
      apply (isin_region regions r x Ex) in Hr. now rewrite Hr.
    + intros (Hr & (rec & Hrec & HR & HY) & ->). split.
      * exists rec. split.
        -- apply filter_In. split; [assumption|]. now apply (isin_region regions r rec HR).
        -- now rewrite keyed_year_region, HR, HY.
      * f_equal. apply filter_ext. intros x. rewrite keyed_year_region.
        destruct (region_is r x) eqn:Ex; [|now rewrite andb_false_r].
        apply (isin_region regions r x Ex) in Hr. now rewrite Hr.
Qed.

Lemma trend_rows_witness :
  exists out,
    line_df records_example ["Tripoli"; "Beirut"] = Ok out /\
    In [("Year", VInt 2019); ("Region", VStr "Tripoli"); ("Cases", VInt 13)] (rows out) /\
    ~ In [("Year", VInt 2019); ("Region", VStr "Beirut"); ("Cases", VInt 0)] (rows out).
Proof.
  destruct (trend_rows records_example ["Tripoli"; "Beirut"] eq_refl eq_refl)
    as (out & Hrun & _ & _ & Hiff).
  exists out. split; [exact Hrun|]. split.
  - apply Hiff. split; [now left|]. split; [|reflexivity].
    exists (case_row "Tripoli" 2019 3). split; [now left | split; reflexivity].
  - intros H. apply Hiff in H as (_ & (rec & Hrec & HR & _) & _).
    simpl in Hrec. repeat (destruct Hrec as [<-|Hrec]; [discriminate HR|]). exact Hrec.
Defined.

Lemma group_rows_one_key (labels : list string) (col : string) (k : list value)
    (rs : list Row) (z0 : Z) :
  (forall r, In r rs ->
     key_of labels r = Some k /\ is_ok (summand (cell col r)) = true) ->
  Z.abs z0 + column_abs_sum col rs < 2 ^ 63 ->
  group_rows labels col rs [(k, z0)] = Ok [(k, z0 + column_sum col rs)].
Proof.
  revert z0. induction rs as [|r rs IH]; simpl; intros z0 H Hfit.
  - now rewrite Z.add_0_r.
  - pose proof (column_abs_sum_nonneg col rs) as Hpos.
    destruct (H r (or_introl eq_refl)) as [Ek Ez]. rewrite Ek.
    destruct (summand (cell col r)) as [z|] eqn:Es; [|discriminate].
    simpl. unfold group_add, has_group. simpl. rewrite key_eqb_refl. simpl.
    apply summand_int_of in Es. subst z.
    rewrite add64_fit by lia. rewrite IH by (auto; lia).
    now rewrite Z.add_assoc.
Qed.

(** C9.  The bar chart groups by region alone: on case records that all
    belong to one region, whatever their years, and whose counts stay
    within int64, it has exactly one row, that region with the total of
    its cases over all the records. *)
Theorem one_region_total (f : DataFrame) (region : string) :
  case_records f = true ->
  sums_fit f = true ->
  rows f <> [] ->
  (forall rec, In rec (rows f) -> region_is region rec = true) ->
  region_totals_df f =
  Ok (mkDataFrame ["Region"; "Total Cases"]
        [ [("Region", VStr region);
           ("Total Cases", VInt (column_sum "Cases" (rows f)))] ]).
Proof.
  intros Hf Hfit Hne Hall. apply sums_fit_spec in Hfit.
  destruct (region_totals_df_run f Hf) as (g & Hg & ->).
  destruct (case_records_inv f Hf) as (_ & _ & _ & Hrows).
  assert (Hkey : forall r, In r (rows f) ->
            key_of ["Region"] r = Some [VStr region] /\
            is_ok (summand (cell "Cases" r)) = true).
  { intros r Hr. split; [|now apply case_record_summand, Hrows].
    specialize (Hall r Hr). unfold region_is in Hall. unfold key_of. simpl.
    destruct (cell "Region" r) as [t| | | |]; try discriminate.
    apply String.eqb_eq in Hall. now subst t. }
  destruct (rows f) as [|r rs]; [contradiction|].
  simpl in Hg, Hfit. destruct (Hkey r (or_introl eq_refl)) as [Ek Ez]. rewrite Ek in Hg.
  destruct (summand (cell "Cases" r)) as [z|] eqn:Es; [|discriminate].
  simpl in Hg. change (group_add [VStr region] z []) with [([VStr region], z)] in Hg.
  apply summand_int_of in Es. subst z.
  rewrite group_rows_one_key in Hg by (try (intros r' Hr'; apply Hkey; now right); lia).
  injection Hg as <-. reflexivity.
Qed.

Lemma one_region_total_witness :
  region_totals_df one_region_example =
  Ok (mkDataFrame ["Region"; "Total Cases"]
        [ [("Region", VStr "Beirut"); ("Total Cases", VInt 11)] ]) /\
  (exists a b, In a (rows one_region_example) /\ In b (rows one_region_example) /\
     cell "Year" a = VInt 2018 /\ cell "Year" b = VInt 2019).
Proof.
  split.
  - apply (one_region_total one_region_example "Beirut" eq_refl eq_refl).
    + discriminate.
    + intros rec Hrec. simpl in Hrec.
      repeat (destruct Hrec as [<-|Hrec]; [reflexivity|]). contradiction.
  - exists (case_row "Beirut" 2018 4), (case_row "Beirut" 2019 6).
    simpl. auto.
Defined.

(** * Further properties of the code *)

(** ** More on the load *)

Lemma digit_bounds (c : ascii) : is_digit c = true -> 0 <= digit c <= 9.
Proof.
  unfold is_digit, digit. intros H. apply andb_true_iff in H as [H1 H2].
  apply Nat.leb_le in H1, H2. lia.
Qed.

Lemma month_matches_bounds (s rest : string) (m : Z) :
  In (m, rest) (month_matches s) -> 1 <= m <= 12.
Proof.
  destruct s as [|a [|b s2]]; cbn [month_matches app In].
  - intros [].
  - destruct (is_digit a && (1 <=? digit a))%bool eqn:E; [|intros []].
    apply andb_true_iff in E as [Ha Hlo]. apply digit_bounds in Ha.
    apply Z.leb_le in Hlo. intros [Heq|[]]. apply (f_equal fst) in Heq. cbn [fst] in Heq. lia.
  - intros H. apply in_app_iff in H as [H|H]; [apply in_app_iff in H as [H|H]|].
    + destruct (_ && _)%bool eqn:E; [|destruct H].
      apply andb_true_iff in E as [E Hhi]. apply andb_true_iff in E as [_ Hb].
      apply digit_bounds in Hb. apply Z.leb_le in Hhi.
      destruct H as [Heq|[]]. apply (f_equal fst) in Heq. cbn [fst] in Heq. lia.
    + destruct (_ && _)%bool eqn:E; [|destruct H].
      apply andb_true_iff in E as [E Hlo]. apply andb_true_iff in E as [_ Hb].
      apply digit_bounds in Hb. apply Z.leb_le in Hlo.
      destruct H as [Heq|[]]. apply (f_equal fst) in Heq. cbn [fst] in Heq. lia.
    + destruct (is_digit a && (1 <=? digit a))%bool eqn:E; [|destruct H].
      apply andb_true_iff in E as [Ha Hlo]. apply digit_bounds in Ha.
      apply Z.leb_le in Hlo. destruct H as [Heq|[]].
      apply (f_equal fst) in Heq. cbn [fst] in Heq. lia.
Qed.

Lemma first_match_In (digits : Z -> option Z) (months : list (Z * string))
    (y m : Z) (tail : string) :
  first_match digits months = Some (y, m, tail) ->
  exists rest, In (m, rest) months.
Proof.
  induction months as [|[m0 rest0] months IH]; simpl; [discriminate|].
  destruct (dash_year digits rest0) as [[y0 tail0]|].
  - intros [= _ <- _]. exists rest0. now left.
  - intros H. destruct (IH H) as [rest Hin]. exists rest. now right.
Qed.

(** The month of a parsed text is a month of the calendar. *)
Lemma strptime_bounds (digits : Z -> option Z) (s : string) (y m : Z) :
  strptime_mY digits s = Some (y, m) -> 1 <= m <= 12.
Proof.
  unfold strptime_mY.
  destruct (first_match digits (month_matches s)) as [[[y0 m0] tail]|] eqn:E;
    [|discriminate].
  destruct (String.eqb tail ""); [|discriminate]. intros [= <- <-].
  destruct (first_match_In _ _ _ _ _ E) as [rest Hin].
  exact (month_matches_bounds _ _ _ Hin).
Qed.

Lemma free_of_str_replace_same (a b : ascii) (s : string) :
  a <> b -> free_of a (str_replace a b s) = true.
Proof.
  intros N. induction s as [|c s IH]; simpl; [reflexivity|].
  rewrite IH, andb_true_r. destruct (Ascii.eqb_spec c a) as [->|Hc].
  - apply negb_true_iff, Ascii.eqb_neq. congruence.
  - apply negb_true_iff, Ascii.eqb_neq. assumption.
Qed.

Lemma free_of_str_replace_other (a b c : ascii) (s : string) :
  b <> c -> free_of c s = true -> free_of c (str_replace a b s) = true.
Proof.
  intros N. induction s as [|x s IH]; simpl; [reflexivity|].
  intros H. apply andb_true_iff in H as [Hx Hs]. rewrite (IH Hs), andb_true_r.
  destruct (Ascii.eqb x a); [|assumption].
  apply negb_true_iff, Ascii.eqb_neq. assumption.
Qed.

Lemma free_of_alias (c : ascii) (s : string) :
  free_of c "Tripoli" = true -> free_of c s = true -> free_of c (alias s) = true.
Proof.
  intros HT Hs. rewrite alias_spec. now destruct (_ || _)%bool.
Qed.

Lemma has_label_rename_old (old new : string) (cols : list string) :
  old <> new -> has_label old (map (rename_label old new) cols) = false.
Proof.
  intros N. unfold has_label. induction cols as [|k cols IH]; simpl; [reflexivity|].
  rewrite IH, orb_false_r. unfold rename_label.
  destruct (String.eqb_spec k old) as [->|Hk]; apply String.eqb_neq; congruence.
Qed.

Lemma has_label_rename_new (old new : string) (cols : list string) :
  has_label new (map (rename_label old new) cols) =
  (has_label new cols || has_label old cols)%bool.
Proof.
  unfold has_label. induction cols as [|k cols IH]; simpl; [reflexivity|].
  rewrite IH. unfold rename_label.
  destruct (String.eqb_spec k old) as [->|Hk].
  - rewrite !String.eqb_refl. simpl. now rewrite !orb_true_r.
  - rewrite (String.eqb_sym old k). apply String.eqb_neq in Hk. rewrite Hk.
    destruct (String.eqb new k); simpl; reflexivity.
Qed.

Lemma has_label_rename_other (old new c : string) (cols : list string) :
  c <> old -> c <> new ->
  has_label c (map (rename_label old new) cols) = has_label c cols.
Proof.
  intros N1 N2. unfold has_label. induction cols as [|k cols IH]; simpl; [reflexivity|].
  rewrite IH. f_equal. unfold rename_label.
  destruct (String.eqb_spec k old) as [->|Hk]; [|reflexivity].
  apply String.eqb_neq in N1, N2. now rewrite N1, N2.
Qed.

(** After the renaming, the new label reads what the old one held, in a row
    that had no cell under the new label. *)
Lemma lookup_rename_new (old new : string) (r : Row) :
  ~ In new (map fst r) -> lookup new (rename_row old new r) = lookup old r.
Proof.
  induction r as [|[k v] r IH]; simpl; intros N; [reflexivity|].
  unfold rename_label at 1. destruct (String.eqb_spec k old) as [->|Hk].
  - now rewrite !String.eqb_refl.
  - rewrite (String.eqb_sym old k). apply String.eqb_neq in Hk. rewrite Hk.
    destruct (String.eqb_spec new k) as [->|_]; [exfalso; apply N; now left|].
    apply IH. tauto.
Qed.

Lemma has_label_loaded_other (bounds : Z -> Z -> bool) (clock : option (Z * Z))
    (digits : Z -> option Z) (raw : DataFrame) (c : string) :
  c <> "Region" -> c <> "Month-Year" -> c <> "Year" ->
  c <> "Number of cases" -> c <> "Cases" ->
  has_label c (columns (loaded bounds clock digits raw)) = has_label c (columns raw).
Proof.
  intros. simpl. rewrite has_label_rename_other by assumption.
  now rewrite !has_label_add_other by assumption.
Qed.

Lemma has_label_loaded_derived (bounds : Z -> Z -> bool) (clock : option (Z * Z))
    (digits : Z -> option Z) (raw : DataFrame) :
  has_label "Region" (columns (loaded bounds clock digits raw)) = true /\
  has_label "Month-Year" (columns (loaded bounds clock digits raw)) = true /\
  has_label "Year" (columns (loaded bounds clock digits raw)) = true.
Proof.
  simpl. rewrite !has_label_rename_other by discriminate.
  rewrite has_label_add_same.
  rewrite (has_label_add_other "Month-Year" "Year") by discriminate.
  rewrite has_label_add_same.
  rewrite (has_label_add_other "Region" "Year"),
          (has_label_add_other "Region" "Month-Year") by discriminate.
  now rewrite has_label_add_same.
Qed.

Lemma has_label_loaded_cases (bounds : Z -> Z -> bool) (clock : option (Z * Z))
    (digits : Z -> option Z) (raw : DataFrame) :
  has_label "Cases" (columns (loaded bounds clock digits raw)) =
  (has_label "Cases" (columns raw) || has_label "Number of cases" (columns raw))%bool.
Proof.
  simpl. rewrite has_label_rename_new.
  now rewrite !has_label_add_other by discriminate.
Qed.

Lemma rectangular_keys (raw : DataFrame) (r : Row) :
  rectangular raw = true -> In r (rows raw) -> map fst r = columns raw.
Proof.
  intros H Hr. apply (forallb_In _ _ r) in H; [|assumption].
  cbv beta in H. now destruct (list_eq_dec string_dec _ _).
Qed.

Lemma cell_loaded_cases (bounds : Z -> Z -> bool) (clock : option (Z * Z))
    (digits : Z -> option Z) (raw : DataFrame) (r : Row) :
  rectangular raw = true -> In r (rows raw) ->
  has_label "Cases" (columns raw) = false ->
  cell "Cases" (loaded_row bounds clock digits r) = cell "Number of cases" r.
Proof.
  intros Hrect Hr Hno. unfold loaded_row, cell. rewrite lookup_rename_new.
  - now rewrite !lookup_set_cell_other by discriminate.
  - rewrite !keys_set_cell, (rectangular_keys raw r Hrect Hr), <- has_label_In.
    rewrite !has_label_add_other, Hno by discriminate. discriminate.
Qed.

(** X1.  The alias step is idempotent: running it over a cell it has
    already treated changes nothing, because no name it produces is one of
    the names it replaces. *)
Theorem alias_remap_idempotent (v : value) :
  replace_value REGION_ALIASES (replace_value REGION_ALIASES v) =
  replace_value REGION_ALIASES v.
Proof.
  destruct v as [s| | | |]; try reflexivity.
  rewrite !replace_value_alias. f_equal.
  rewrite (alias_spec (alias s)), (alias_spec s).
  destruct (String.eqb_spec s "North Governorate") as [E1|N1]; [reflexivity|].
  destruct (String.eqb_spec s "North Lebanon") as [E2|N2]; [reflexivity|].
  simpl orb. cbv iota.
  apply String.eqb_neq in N1, N2. now rewrite N1, N2.
Qed.

Section LoadMore.

Variable read_csv : string -> result DataFrame.
Variable timestamp_in_bounds : Z -> Z -> bool.
Variable clock : option (Z * Z).
Variable unicode_decimal : Z -> option Z.

Local Abbreviation load :=
  (load_and_process_data read_csv timestamp_in_bounds clock unicode_decimal).
Local Abbreviation loaded_frame := (loaded timestamp_in_bounds clock unicode_decimal).

(** X2.  Whenever the load returns, no Region contains a slash or an
    underscore: the slashes went with the path, the underscores became
    spaces, and the alias step brings none back. *)
Theorem region_has_no_separator (path : string) (df : DataFrame) :
  load path = Ok df ->
  forall r', In r' (rows df) ->
    exists s, cell "Region" r' = VStr s /\
      free_of "/" s = true /\ free_of "_" s = true.
Proof.
  intros H r' Hr'. destruct (load_inv _ _ _ _ _ _ H) as (raw & Hread & Hl & ->).
  simpl in Hr'. apply in_map_iff in Hr' as (r & <- & Hr).
  destruct (loadable_row _ _ _ _ r Hl Hr) as (area & _ & _ & Ha & _).
  rewrite cell_loaded_region, (region_of_text r area Ha).
  eexists. split; [reflexivity|].
  destruct (last_segment_exists area) as [Hfree _]. split.
  - apply free_of_alias; [reflexivity|].
    apply free_of_str_replace_other; [discriminate | assumption].
  - apply free_of_alias; [reflexivity|].
    apply free_of_str_replace_same. discriminate.
Qed.

(** X3.  Whenever the load returns, the two date columns of a row agree
    with the last segment of its refPeriod.  If the segment is empty or a
    null token, Month-Year and Year are both missing.  Otherwise
    Month-Year is a timestamp and Year is its year: the current time when
    the segment is one of the words now and today and pandas reads them
    so, and else the month the segment spells in the format, which then
    fits a timestamp and lies between 1 and 12. *)
Theorem year_matches_month (path : string) (df : DataFrame) :
  load path = Ok df ->
  exists raw, read_csv path = Ok raw /\
    forall i r r',
      nth_error (rows raw) i = Some r ->
      nth_error (rows df) i = Some r' ->
      exists period seg,
        cell "refPeriod" r = VStr period /\
        ends_with_segment period seg /\
        if is_null_text seg
        then cell "Month-Year" r' = VNA /\ cell "Year" r' = VNA
        else exists y m,
               cell "Month-Year" r' = VTimestamp y m /\
               cell "Year" r' = VInt y /\
               ((is_today_now seg = true /\ clock = Some (y, m)) \/
                (strptime_mY unicode_decimal seg = Some (y, m) /\
                 timestamp_in_bounds y m = true /\
                 1 <= m <= 12)).
Proof.
  intros H. destruct (load_inv _ _ _ _ _ _ H) as (raw & Hread & Hl & ->).
  exists raw. split; [assumption|]. intros i r r' Hr Hr'.
  rewrite (loaded_row_nth _ _ _ _ _ _ _ Hr Hr').
  destruct (loadable_row _ _ _ _ r Hl (nth_error_In _ _ Hr)) as (_ & period & v & _ & Hp & Hv).
  exists period, (last_item (split "/" period)).
  split; [assumption|]. split; [apply last_segment_exists|].
  rewrite cell_loaded_month, cell_loaded_year. unfold year_of, month_year_of.
  rewrite Hp. simpl bind. rewrite Hv. simpl ok_or.
  unfold to_datetime in Hv. destruct (is_null_text _).
  - injection Hv as <-. auto.
  - destruct (is_today_now _) eqn:Et.
    + destruct clock as [[y m]|] eqn:Ec.
      * injection Hv as <-. exists y, m. auto.
      * destruct (strptime_mY _ _) as [[y m]|] eqn:E; [|discriminate].
        destruct (timestamp_in_bounds y m) eqn:Eb; [|discriminate].
        injection Hv as <-. exists y, m.
        pose proof (strptime_bounds _ _ _ _ E) as Hm. auto 8.
    + destruct (strptime_mY _ _) as [[y m]|] eqn:E; [|discriminate].
      destruct (timestamp_in_bounds y m) eqn:Eb; [|discriminate].
      injection Hv as <-. exists y, m.
      pose proof (strptime_bounds _ _ _ _ E) as Hm. auto 8.
Qed.

(** X4.  On a rectangular table that has a 'Number of cases' column and no
    'Cases' column, the frame the load returns has a Cases column and no
    'Number of cases' column; the Cases cell of a row is the count the
    file gave for it, and every cell of the file under another label than
    Region, Month-Year and Year is unchanged. *)
Theorem count_column_renamed (path : string) (raw df : DataFrame) :
  read_csv path = Ok raw ->
  load path = Ok df ->
  rectangular raw = true ->
  has_label "Number of cases" (columns raw) = true ->
  has_label "Cases" (columns raw) = false ->
  has_label "Cases" (columns df) = true /\
  has_label "Number of cases" (columns df) = false /\
  forall i r r',
    nth_error (rows raw) i = Some r ->
    nth_error (rows df) i = Some r' ->
    cell "Cases" r' = cell "Number of cases" r /\
    forall c, c <> "Region" -> c <> "Month-Year" -> c <> "Year" ->
              c <> "Number of cases" -> c <> "Cases" ->
              cell c r' = cell c r.
Proof.
  intros Hread H Hrect Hold Hnew.
  destruct (load_inv _ _ _ _ _ _ H) as (raw' & Hread' & Hl & ->).
  rewrite Hread in Hread'. injection Hread' as <-.
  split; [now rewrite has_label_loaded_cases, Hold, Hnew|].
  split; [simpl; now apply has_label_rename_old|].
  intros i r r' Hr Hr'. rewrite (loaded_row_nth _ _ _ _ _ _ _ Hr Hr').
  split.
  - apply (cell_loaded_cases _ _ _ raw); try assumption. now apply (nth_error_In _ i).
  - intros c. apply cell_loaded_other.
Qed.

(** X5.  On a rectangular table with the three columns of the contract and
    no 'Cases' column, where every row has a text refArea, a refPeriod
    ending in a month of the format that fits a timestamp, and an integer
    count, the load returns a frame of case records: every row has a text
    Region, an integer Year and integer Cases. *)
Theorem loaded_case_records (path : string) (raw : DataFrame) :
  read_csv path = Ok raw ->
  rectangular raw = true ->
  has_label "refArea" (columns raw) = true ->
  has_label "refPeriod" (columns raw) = true ->
  has_label "Number of cases" (columns raw) = true ->
  has_label "Cases" (columns raw) = false ->
  forallb (fun r => row_valid unicode_decimal timestamp_in_bounds r
                    && is_int (cell "Number of cases" r)) (rows raw) = true ->
  exists df, load path = Ok df /\ case_records df = true.
Proof.
  intros Hread Hrect Ha Hp Hold Hnew Hrows.
  assert (Hrow : forall r, In r (rows raw) ->
            row_valid unicode_decimal timestamp_in_bounds r = true /\
            is_int (cell "Number of cases" r) = true).
  { intros r Hr. apply (forallb_In _ _ r) in Hrows; [|assumption].
    now apply andb_true_iff in Hrows. }
  assert (Hl : loadable timestamp_in_bounds clock unicode_decimal raw = true).
  { apply valid_rows_loadable; try assumption. intros r Hr. now apply Hrow. }
  exists (loaded timestamp_in_bounds clock unicode_decimal raw). split; [now apply load_ok|].
  unfold case_records.
  destruct (has_label_loaded_derived timestamp_in_bounds clock
              unicode_decimal raw) as (-> & _ & ->).
  rewrite has_label_loaded_cases, Hold, Hnew. simpl.
  rewrite forallb_map. apply forallb_forall. intros r Hr.
  destruct (Hrow r Hr) as [Hv Hint]. unfold is_case_record.
  rewrite cell_loaded_region, cell_loaded_year, (cell_loaded_cases _ _ _ raw) by assumption.
  unfold row_valid in Hv. apply andb_true_iff in Hv as [Ht Hv].
  unfold region_of. destruct (cell "refArea" r) as [area| | | |]; try discriminate.
  simpl ok_or. rewrite replace_value_alias.
  unfold year_of, month_year_of.
  destruct (cell "refPeriod" r) as [period| | | |]; try discriminate.
  simpl bind.
  destruct (strptime_mY _ _) as [[y m]|] eqn:E; [|discriminate].
  rewrite (to_datetime_month _ _ _ _ _ _ E Hv). simpl.
  now destruct (cell "Number of cases" r).
Qed.

(** X6.  A file with neither a 'Number of cases' nor a 'Cases' column
    loads, and the missing counts surface at the first aggregate: the
    totals of the map, of the headline, of the trend chart and of the bar
    chart all raise KeyError for Cases. *)
Theorem missing_count_column_raises (path : string) (raw df : DataFrame) :
  read_csv path = Ok raw ->
  load path = Ok df ->
  has_label "Number of cases" (columns raw) = false ->
  has_label "Cases" (columns raw) = false ->
  (forall st l year,
     nth_error st l = Some df -> df_total l year st = Err (KeyError "Cases")) /\
  total_by_region df = Err (KeyError "Cases") /\
  (forall regions, line_df df regions = Err (KeyError "Cases")) /\
  region_totals_df df = Err (KeyError "Cases").
Proof.
  intros Hread H Hold Hnew.
  destruct (load_inv _ _ _ _ _ _ H) as (raw' & Hread' & Hl & ->).
  rewrite Hread in Hread'. injection Hread' as <-.
  destruct (has_label_loaded_derived timestamp_in_bounds clock
              unicode_decimal raw) as (HR & _ & HY).
  assert (HC : has_label "Cases" (columns (loaded_frame raw)) = false)
    by now rewrite has_label_loaded_cases, Hold, Hnew.
  assert (Hg : forall f, columns f = columns (loaded_frame raw) ->
            groupby_sum f ["Region"] "Cases" = Err (KeyError "Cases")).
  { intros f E. unfold groupby_sum. cbn [find]. now rewrite E, HR, HC. }
  assert (Hg2 : forall f, columns f = columns (loaded_frame raw) ->
            groupby_sum f ["Year"; "Region"] "Cases" = Err (KeyError "Cases")).
  { intros f E. unfold groupby_sum. cbn [find]. now rewrite E, HY, HR, HC. }
  split; [|split; [|split]].
  - intros st l year Hst. unfold df_total, bindM, deref, raise_or. rewrite Hst.
    unfold getitem. rewrite HY. now rewrite Hg.
  - unfold total_by_region. now rewrite Hg.
  - intros regions. unfold line_df, getitem. rewrite HR. simpl bind. now apply Hg2.
  - unfold region_totals_df. now rewrite Hg.
Qed.

(** X7.  A file that has the two path columns and no rows loads into a
    frame without rows, which has no years; [main] then stops with
    IndexError when it asks for the first year of the slider. *)
Theorem empty_file_has_no_first_year (path : string) (raw : DataFrame) :
  read_csv path = Ok raw ->
  rows raw = [] ->
  has_label "refArea" (columns raw) = true ->
  has_label "refPeriod" (columns raw) = true ->
  exists df,
    load path = Ok df /\ rows df = [] /\
    years df = Ok [] /\ first_year df = Exception IndexError.
Proof.
  intros Hread Hrows Ha Hp.
  assert (Hl : loadable timestamp_in_bounds clock unicode_decimal raw = true).
  { apply valid_rows_loadable; try assumption. rewrite Hrows. intros r []. }
  exists (loaded timestamp_in_bounds clock unicode_decimal raw). split; [now apply load_ok|].
  assert (E : rows (loaded_frame raw) = []) by (simpl; now rewrite Hrows).
  split; [exact E|].
  destruct (has_label_loaded_derived timestamp_in_bounds clock
              unicode_decimal raw) as (_ & _ & HY).
  assert (Ey : years (loaded timestamp_in_bounds clock unicode_decimal raw) = Ok []).
  { unfold years, getitem. now rewrite HY, E. }
  split; [exact Ey|]. unfold first_year. now rewrite Ey.
Qed.

End LoadMore.

Lemma region_has_no_separator_witness :
  exists df,
    load_and_process_data (one_file example_table) ns_bounds june_2025 arabic_indic
          "MumpsLeb.csv" = Ok df /\
    forall r', In r' (rows df) ->
      exists s, cell "Region" r' = VStr s /\
        free_of "/" s = true /\ free_of "_" s = true.
Proof.
  eexists. split; [reflexivity|].
  apply (region_has_no_separator (one_file example_table) ns_bounds june_2025 arabic_indic
        "MumpsLeb.csv").
  reflexivity.
Defined.

Lemma year_matches_month_witness :
  exists df,
    load_and_process_data (one_file periods_table) ns_bounds june_2025 arabic_indic
      "MumpsLeb.csv" = Ok df /\
    map (cell "Year") (rows df) = [VInt 2019; VInt 2025; VInt 2019; VNA] /\
    exists r0 r1,
      nth_error (rows df) 0 = Some r0 /\ nth_error (rows df) 1 = Some r1 /\
      cell "Month-Year" r0 = VTimestamp 2019 1 /\ cell "Year" r1 = VInt 2025.
Proof.
  eexists. split; [reflexivity|]. split; [reflexivity|].
  destruct (year_matches_month (one_file periods_table) ns_bounds june_2025 arabic_indic
              "MumpsLeb.csv" _ eq_refl)
    as (raw & Hraw & Hrows).
  injection Hraw as <-.
  eexists. eexists. split; [reflexivity|]. split; [reflexivity|]. split.
  - destruct (Hrows 0%nat _ _ eq_refl eq_refl) as (period & seg & Hp & Hs & Hcase).
    injection Hp as <-.
    assert (E : seg = "01-2019").
    { rewrite <- (last_item_split _ _ Hs). reflexivity. }
    subst seg. cbn [is_null_text] in Hcase.
    destruct Hcase as (y & m & Hmy & _ & [[Hnow _]|[Hparse _]]).
    + discriminate Hnow.
    + injection Hparse as <- <-. exact Hmy.
  - destruct (Hrows 1%nat _ _ eq_refl eq_refl) as (period & seg & Hp & Hs & Hcase).
    injection Hp as <-.
    assert (E : seg = "now").
    { rewrite <- (last_item_split _ _ Hs). reflexivity. }
    subst seg. cbn [is_null_text] in Hcase.
    destruct Hcase as (y & m & _ & Hy & [[_ Hclock]|[Hparse _]]).
    + injection Hclock as <- <-. exact Hy.
    + discriminate Hparse.
Defined.

Lemma count_column_renamed_witness :
  exists df,
    load_and_process_data (one_file example_table) ns_bounds june_2025 arabic_indic
          "MumpsLeb.csv" = Ok df /\
    has_label "Number of cases" (columns df) = false /\
    exists r', nth_error (rows df) 0 = Some r' /\ cell "Cases" r' = VInt 5.
Proof.
  eexists. split; [reflexivity|].
  destruct (count_column_renamed (one_file example_table) ns_bounds june_2025 arabic_indic
        "MumpsLeb.csv"
              example_table _ eq_refl eq_refl eq_refl eq_refl eq_refl)
    as (_ & Hold & Hrows).
  split; [exact Hold|]. eexists. split; [reflexivity|].
  exact (proj1 (Hrows 0%nat _ _ eq_refl eq_refl)).
Defined.

Lemma loaded_case_records_witness :
  exists df,
    load_and_process_data (one_file example_table) ns_bounds june_2025 arabic_indic
          "MumpsLeb.csv" = Ok df /\
    case_records df = true.
Proof.
  exact (loaded_case_records (one_file example_table) ns_bounds june_2025 arabic_indic
        "MumpsLeb.csv"
           example_table eq_refl eq_refl eq_refl eq_refl eq_refl eq_refl eq_refl).
Defined.

Lemma missing_count_column_raises_witness :
  exists df,
    load_and_process_data (one_file countless_table) ns_bounds june_2025 arabic_indic
          "MumpsLeb.csv" = Ok df /\
    df_total 0%nat 2018 [df] = Err (KeyError "Cases") /\
    region_totals_df df = Err (KeyError "Cases").
Proof.
  eexists. split; [reflexivity|].
  destruct (missing_count_column_raises (one_file countless_table) ns_bounds june_2025 arabic_indic
              "MumpsLeb.csv" countless_table _ eq_refl eq_refl eq_refl eq_refl)
    as (Hmap & _ & _ & Hbar).
  split; [exact (Hmap [_] 0%nat 2018 eq_refl) | exact Hbar].
Defined.

Lemma empty_file_has_no_first_year_witness :
  exists df,
    load_and_process_data (one_file header_only) ns_bounds june_2025 arabic_indic
          "MumpsLeb.csv" = Ok df /\
    rows df = [] /\ years df = Ok [] /\ first_year df = Exception IndexError.
Proof.
  exact (empty_file_has_no_first_year (one_file header_only) ns_bounds june_2025 arabic_indic
        "MumpsLeb.csv"
           header_only eq_refl eq_refl eq_refl eq_refl).
Defined.

(** ** The order of keys *)

Lemma string_ltb_lt (s t : string) :
  String.ltb s t = true <-> OrderedTypeEx.String_as_OT.lt s t.
Proof.
  rewrite <- OrderedTypeEx.String_as_OT.cmp_lt.
  unfold String.ltb, OrderedTypeEx.String_as_OT.cmp.
  destruct (String.compare s t); split; congruence.
Qed.

Lemma string_ltb_trans (s t u : string) :
  String.ltb s t = true -> String.ltb t u = true -> String.ltb s u = true.
Proof.
  rewrite !string_ltb_lt. apply OrderedTypeEx.String_as_OT.lt_trans.
Qed.

Lemma string_ltb_irrefl (s : string) : String.ltb s s = false.
Proof.
  destruct (String.ltb s s) eqn:E; [|reflexivity].
  apply string_ltb_lt in E. exfalso.
  apply (OrderedTypeEx.String_as_OT.lt_not_eq _ _ E). reflexivity.
Qed.

Lemma string_ltb_total (s t : string) :
  s <> t -> String.ltb s t = false -> String.ltb t s = true.
Proof.
  unfold String.ltb. rewrite (String.compare_antisym t s).
  destruct (String.compare s t) eqn:E; simpl; try congruence.
  apply String.compare_eq_iff in E. congruence.
Qed.

Lemma value_ltb_trans (a b c : value) :
  plain a = true -> plain b = true -> plain c = true ->
  value_ltb a b = true -> value_ltb b c = true -> value_ltb a c = true.
Proof.
  destruct a, b, c; simpl; try discriminate; intros _ _ _; try reflexivity.
  - apply string_ltb_trans.
  - rewrite !Z.ltb_lt. lia.
Qed.

Lemma value_ltb_irrefl (a : value) : plain a = true -> value_ltb a a = false.
Proof.
  destruct a; simpl; try discriminate; intros _.
  - apply string_ltb_irrefl.
  - apply Z.ltb_irrefl.
Qed.

Lemma value_ltb_total (a b : value) :
  plain a = true -> plain b = true ->
  value_eqb a b = false -> value_ltb a b = false -> value_ltb b a = true.
Proof.
  destruct a, b; simpl; try discriminate; intros _ _; try reflexivity.
  - intros E. apply String.eqb_neq in E. now apply string_ltb_total.
  - rewrite Z.eqb_neq, Z.ltb_ge, Z.ltb_lt. lia.
Qed.

Lemma value_eqb_refl (a : value) : value_eqb a a = true.
Proof. now apply value_eqb_eq. Qed.

Lemma value_eqb_ltb (a b : value) :
  plain a = true -> value_eqb a b = true -> value_ltb a b = false.
Proof.
  intros Ha E. apply value_eqb_eq in E. subst b. now apply value_ltb_irrefl.
Qed.

Lemma key_ltb_trans (a b c : list value) :
  plain_key a = true -> plain_key b = true -> plain_key c = true ->
  key_ltb a b = true -> key_ltb b c = true -> key_ltb a c = true.
Proof.
  revert b c. induction a as [|x a IH]; intros [|y b] [|z c]; simpl;
    try (intros; congruence).
  rewrite !andb_true_iff. intros [Hx Ha] [Hy Hb] [Hz Hc].
  rewrite !orb_true_iff, !andb_true_iff.
  intros [Hxy|[Exy Hab]] [Hyz|[Eyz Hbc]].
  - left. apply (value_ltb_trans x y z); assumption.
  - left. apply value_eqb_eq in Eyz. now subst z.
  - left. apply value_eqb_eq in Exy. now subst y.
  - right. apply value_eqb_eq in Exy, Eyz. subst y z.
    split; [apply value_eqb_refl|]. apply (IH b c); assumption.
Qed.

Lemma key_ltb_total (a b : list value) :
  plain_key a = true -> plain_key b = true ->
  key_eqb a b = false -> key_ltb a b = false -> key_ltb b a = true.
Proof.
  revert b. induction a as [|x a IH]; intros [|y b]; simpl;
    try (intros; congruence).
  rewrite !andb_true_iff. intros [Hx Ha] [Hy Hb] E L.
  apply orb_false_iff in L as [Lxy L].
  destruct (value_eqb x y) eqn:Exy; simpl in *.
  - apply value_eqb_eq in Exy. subst y. rewrite value_eqb_refl. simpl.
    rewrite (IH b Ha Hb E L). apply orb_true_r.
  - now rewrite (value_ltb_total x y Hx Hy Exy Lxy).
Qed.

(** ** Groups come out in key order *)

Lemma Forall_fst_bump (P : list value -> Prop) (k : list value) (z : Z)
    (g : list (list value * Z)) :
  Forall (fun e => P (fst e)) g -> Forall (fun e => P (fst e)) (bump k z g).
Proof.
  induction 1 as [|[k' z'] g Hk Hg IH]; simpl; [constructor|].
  destruct (key_eqb k k'); constructor; assumption.
Qed.

Lemma Forall_fst_place (P : list value -> Prop) (k : list value) (z : Z)
    (g : list (list value * Z)) :
  P k -> Forall (fun e => P (fst e)) g -> Forall (fun e => P (fst e)) (place k z g).
Proof.
  intros Pk. induction 1 as [|[k' z'] g Hk Hg IH]; simpl.
  - repeat constructor. assumption.
  - destruct (key_ltb k k'); repeat constructor; assumption.
Qed.

Lemma bump_sorted (k : list value) (z : Z) (g : list (list value * Z)) :
  StronglySorted group_before g -> StronglySorted group_before (bump k z g).
Proof.
  induction 1 as [|[k' z'] g Hs IH Hall]; simpl; [constructor|].
  destruct (key_eqb k k'); constructor; try assumption.
  apply (Forall_fst_bump (fun x => key_ltb k' x = true)). exact Hall.
Qed.

Lemma place_sorted (k : list value) (z : Z) (g : list (list value * Z)) :
  plain_key k = true ->
  Forall plain_group g ->
  has_group k g = false ->
  StronglySorted group_before g ->
  StronglySorted group_before (place k z g).
Proof.
  intros Pk Hp Hno Hs. induction Hs as [|[k' z'] g Hs IH Hall]; simpl.
  - repeat constructor.
  - inversion Hp as [|? ? Pk' Hp']; subst. rewrite has_group_cons in Hno.
    apply orb_false_iff in Hno as [Ek Hno].
    destruct (key_ltb k k') eqn:L.
    + constructor; [now constructor|]. constructor; [exact L|].
      rewrite Forall_forall in Hall, Hp'. apply Forall_forall. intros [k2 z2] Hin.
      specialize (Hall _ Hin). specialize (Hp' _ Hin).
      unfold group_before, plain_group in *. simpl in *.
      apply (key_ltb_trans k k' k2); assumption.
    + constructor; [now apply IH|].
      apply (Forall_fst_place (fun x => key_ltb k' x = true)); [|exact Hall].
      apply key_ltb_total; assumption.
Qed.

Lemma group_add_sorted (k : list value) (z : Z) (g : list (list value * Z)) :
  plain_key k = true ->
  Forall plain_group g ->
  StronglySorted group_before g ->
  StronglySorted group_before (group_add k z g) /\
  Forall plain_group (group_add k z g).
Proof.
  intros Pk Hp Hs. unfold group_add. destruct (has_group k g) eqn:E.
  - split; [now apply bump_sorted|].
    apply (Forall_fst_bump (fun x => plain_key x = true)). exact Hp.
  - split; [now apply place_sorted|].
    apply (Forall_fst_place (fun x => plain_key x = true)); assumption.
Qed.

Lemma group_rows_sorted (labels : list string) (col : string)
    (rs : list Row) (g g' : list (list value * Z)) :
  (forall r k, In r rs -> key_of labels r = Some k -> plain_key k = true) ->
  group_rows labels col rs g = Ok g' ->
  Forall plain_group g ->
  StronglySorted group_before g ->
  StronglySorted group_before g'.
Proof.
  revert g. induction rs as [|r rs IH]; simpl; intros g Hkeys H Hp Hs.
  - now injection H as <-.
  - assert (Hrs : forall r' k, In r' rs -> key_of labels r' = Some k ->
                    plain_key k = true) by eauto.
    destruct (key_of labels r) as [k|] eqn:Ek; [|now apply (IH g)].
    destruct (summand (cell col r)) as [z|]; [|discriminate]. simpl in H.
    destruct (group_add_sorted k z g) as [Hs' Hp']; eauto.
Qed.

Lemma StronglySorted_map_in {A B : Type} (R : A -> A -> Prop) (S : B -> B -> Prop)
    (f : A -> B) (l : list A) :
  (forall a b, In a l -> In b l -> R a b -> S (f a) (f b)) ->
  StronglySorted R l -> StronglySorted S (map f l).
Proof.
  intros H Hs. induction Hs as [|a l Hs IH Hall]; simpl; constructor.
  - apply IH. intros x y Hx Hy. apply H; now right.
  - apply Forall_map. rewrite Forall_forall in *. intros b Hb.
    apply H; [now left | now right | now apply Hall].
Qed.

Lemma StronglySorted_filter {A : Type} (R : A -> A -> Prop) (p : A -> bool)
    (l : list A) :
  StronglySorted R l -> StronglySorted R (filter p l).
Proof.
  induction 1 as [|a l Hs IH Hall]; simpl; [constructor|].
  destruct (p a); [|assumption]. constructor; [assumption|].
  rewrite Forall_forall in *. intros b Hb. apply filter_In in Hb as [Hb _]. auto.
Qed.

(** ** The groups of case records *)

Lemma keyed_region_is (s : string) (r : Row) :
  keyed ["Region"] (key_eqb [VStr s]) r = region_is s r.
Proof.
  unfold keyed, key_of, region_is. simpl.
  destruct (cell "Region" r) as [t| | | |]; simpl; try reflexivity.
  now rewrite andb_true_r, String.eqb_sym.
Qed.

Lemma existsb_region_is (s : string) (rs : list Row) :
  existsb (keyed ["Region"] (key_eqb [VStr s])) rs = true <->
  exists rec, In rec rs /\ region_is s rec = true.
Proof.
  rewrite existsb_exists. split; intros (rec & Hrec & H); exists rec;
    (split; [assumption|]); now rewrite keyed_region_is in *.
Qed.

Lemma int64_counts_inv (f : DataFrame) :
  int64_counts f = true ->
  forall r, In r (rows f) -> int64 (int_of (cell "Cases" r)) = true.
Proof. intros H r Hr. now apply (forallb_In _ _ r) in H. Qed.

(** The groups by region of a list of case records: their keys are region
    names, and the group of a name holds the int64 total of its records. *)
Lemma region_groups (rs : list Row) (g : list (list value * Z)) :
  (forall r, In r rs -> is_case_record r = true) ->
  (forall r, In r rs -> int64 (int_of (cell "Cases" r)) = true) ->
  group_rows ["Region"] "Cases" rs [] = Ok g ->
  (forall e, In e g -> exists s, fst e = [VStr s]) /\
  (forall s t,
     In ([VStr s], t) g <->
     (exists rec, In rec rs /\ region_is s rec = true) /\
     t = wrap64 (column_sum "Cases" (filter (region_is s) rs))) /\
  StronglySorted group_before g.
Proof.
  intros Hrows Hcells Hg.
  assert (Hkey : forall r, In r rs ->
            exists s, key_of ["Region"] r = Some [VStr s]).
  { intros r Hr. destruct (case_record_cells r (Hrows r Hr)) as (s & _ & _ & HR & _).
    exists s. unfold key_of. simpl. now rewrite HR. }
  split; [|split].
  - intros e He.
    destruct (keys_of_groups _ _ _ _ _ (fst e) Hg (in_map fst _ _ He)) as [[]|(r & Hr & E)].
    destruct (Hkey r Hr) as [s Hs]. exists s. congruence.
  - intros s t. rewrite (groups_of_rows64 _ _ _ _ _ t Hg Hcells), existsb_region_is.
    now rewrite (filter_ext _ _ (keyed_region_is s)).
  - apply (group_rows_sorted ["Region"] "Cases" rs [] g); try assumption;
      try constructor.
    intros r k Hr Ek. destruct (Hkey r Hr) as [s Hs].
    rewrite Hs in Ek. now injection Ek as <-.
Qed.

Lemma year_region_groups (rs : list Row) (g : list (list value * Z)) :
  (forall r, In r rs -> is_case_record r = true) ->
  group_rows ["Year"; "Region"] "Cases" rs [] = Ok g ->
  (forall e, In e g -> exists y s, fst e = [VInt y; VStr s]) /\
  StronglySorted group_before g.
Proof.
  intros Hrows Hg.
  assert (Hkey : forall r, In r rs ->
            exists y s, key_of ["Year"; "Region"] r = Some [VInt y; VStr s]).
  { intros r Hr. destruct (case_record_cells r (Hrows r Hr)) as (s & y & _ & HR & HY & _).
    exists y, s. unfold key_of. simpl. now rewrite HR, HY. }
  split.
  - intros e He.
    destruct (keys_of_groups _ _ _ _ _ (fst e) Hg (in_map fst _ _ He)) as [[]|(r & Hr & E)].
    destruct (Hkey r Hr) as (y & s & Hs). exists y, s. congruence.
  - apply (group_rows_sorted ["Year"; "Region"] "Cases" rs [] g); try assumption;
      try constructor.
    intros r k Hr Ek. destruct (Hkey r Hr) as (y & s & Hs).
    rewrite Hs in Ek. now injection Ek as <-.
Qed.

Lemma sorted_rows_NoDup {K : Type} (R : Row -> Row -> Prop) (key : Row -> K)
    (rs : list Row) :
  (forall a b, R a b -> key a <> key b) ->
  StronglySorted R rs -> NoDup (map key rs).
Proof.
  intros Hne. induction 1 as [|a l Hs IH Hall]; simpl; constructor; [|assumption].
  intros Hin. apply in_map_iff in Hin as (b & E & Hb).
  rewrite Forall_forall in Hall. exact (Hne a b (Hall b Hb) (eq_sym E)).
Qed.

Lemma region_before_differ (a b : Row) :
  region_before a b -> cell "Region" a <> cell "Region" b.
Proof.
  unfold region_before. intros H E. rewrite E, string_ltb_irrefl in H. discriminate.
Qed.

Lemma year_region_before_differ (a b : Row) :
  year_region_before a b ->
  (cell "Year" a, cell "Region" a) <> (cell "Year" b, cell "Region" b).
Proof.
  unfold year_region_before. intros H [= EY ER]. rewrite EY, ER in H.
  rewrite string_ltb_irrefl in H. destruct H as [H|[_ H]]; [lia | discriminate].
Qed.

(** X8.  On every frame of case records, the rows of the trend chart come
    in ascending order of year and, within a year, of region name; in
    particular no year and region has two rows. *)
Theorem trend_rows_ascending (f : DataFrame) (regions : list string) :
  case_records f = true ->
  exists out,
    line_df f regions = Ok out /\
    StronglySorted year_region_before (rows out) /\
    NoDup (map (fun r => (cell "Year" r, cell "Region" r)) (rows out)).
Proof.
  intros Hf. destruct (line_df_run f regions Hf) as (g & Hg & Hrun).
  destruct (case_records_inv f Hf) as (_ & _ & _ & Hrows).
  eexists. split; [exact Hrun|]. simpl rows.
  cut (StronglySorted year_region_before (map (group_row ["Year"; "Region"] "Cases") g)).
  { intros Hs. split; [exact Hs|].
    exact (sorted_rows_NoDup _ _ _ year_region_before_differ Hs). }
  assert (Hsel : forall r,
            In r (filter (fun r => isin regions (cell "Region" r)) (rows f)) ->
            is_case_record r = true).
  { intros r Hr. apply filter_In in Hr as [Hr _]. auto. }
  destruct (year_region_groups _ g Hsel Hg) as [Hshape Hsorted].
  apply (StronglySorted_map_in group_before); [|exact Hsorted].
  intros [k z] [k' z'] Ha Hb. unfold group_before. simpl.
  destruct (Hshape _ Ha) as (y & s & E). destruct (Hshape _ Hb) as (y' & s' & E').
  simpl in E, E'. subst k k'. unfold year_region_before, group_row. simpl.
  rewrite andb_false_r, orb_false_r.
  rewrite !orb_true_iff, !andb_true_iff, Z.ltb_lt, Z.eqb_eq. tauto.
Qed.

Lemma trend_rows_ascending_witness :
  exists out,
    line_df records_example ["Tripoli"; "Beqaa Valley"] = Ok out /\
    StronglySorted year_region_before (rows out) /\
    NoDup (map (fun r => (cell "Year" r, cell "Region" r)) (rows out)).
Proof.
  exact (trend_rows_ascending records_example ["Tripoli"; "Beqaa Valley"] eq_refl).
Defined.

Lemma with_coords_map_row (s : string) (t : Z) (la lo : Q) :
  coords_of s REGION_COORDS = Some (la, lo) ->
  with_hover (with_coords [("Region", VStr s); ("Cases", VInt t)]) = map_row s t la lo.
Proof.
  intros H. unfold with_coords.
  change (cell "Region" [("Region", VStr s); ("Cases", VInt t)]) with (VStr s).
  rewrite (coords_get_found _ _ _ H). reflexivity.
Qed.

Lemma cell_with_hover_other (c : string) (r : Row) :
  c <> "Hover" -> cell c (with_hover r) = cell c r.
Proof. intros N. unfold with_hover. now apply cell_set_cell_other. Qed.

(** The rows the map shows, read off the groups of the year. *)
Lemma shown_rows (rs : list Row) (g : list (list value * Z)) :
  (forall r, In r rs -> is_case_record r = true) ->
  group_rows ["Region"] "Cases" rs [] = Ok g ->
  let shown := map with_hover
                 (map with_coords
                    (filter known_region (map (group_row ["Region"] "Cases") g))) in
  (forall row,
     In row shown <->
     exists s t la lo,
       In ([VStr s], t) g /\ coords_of s REGION_COORDS = Some (la, lo) /\
       row = map_row s t la lo) /\
  StronglySorted region_before shown.
Proof.
  intros Hrows Hg shown.
  assert (Hshape : forall e, In e g -> exists s, fst e = [VStr s]).
  { intros e He.
    destruct (keys_of_groups _ _ _ _ _ (fst e) Hg (in_map fst _ _ He)) as [[]|(r & Hr & E)].
    destruct (case_record_cells r (Hrows r Hr)) as (s & _ & _ & HR & _).
    exists s. unfold key_of in E. simpl in E. rewrite HR in E. simpl in E. congruence. }
  assert (Hkeys : forall r k, In r rs -> key_of ["Region"] r = Some k ->
            plain_key k = true).
  { intros r k Hr Ek.
    destruct (case_record_cells r (Hrows r Hr)) as (s & _ & _ & HR & _).
    unfold key_of in Ek. simpl in Ek. rewrite HR in Ek. simpl in Ek.
    now injection Ek as <-. }
  split.
  - intros row. unfold shown. rewrite map_map, in_map_iff. split.
    + intros (r & <- & Hr). apply filter_In in Hr as [Hr Hk].
      apply in_map_iff in Hr as ([k z] & <- & He).
      destruct (Hshape _ He) as [s E]. simpl in E. subst k.
      unfold known_region in Hk.
      change (cell "Region" (group_row ["Region"] "Cases" ([VStr s], z)))
        with (VStr s) in Hk.
      apply in_table_coords in Hk as (s' & la & lo & [= <-] & Hc).
      exists s, z, la, lo. split; [assumption|]. split; [assumption|].
      now apply with_coords_map_row.
    + intros (s & t & la & lo & He & Hc & ->).
      exists [("Region", VStr s); ("Cases", VInt t)].
      split; [now apply with_coords_map_row|]. apply filter_In. split.
      * apply in_map_iff. now exists ([VStr s], t).
      * apply in_table_coords. now exists s, la, lo.
  - unfold shown. rewrite map_map, filter_map_swap, map_map.
    apply (StronglySorted_map_in group_before).
    2:{ apply StronglySorted_filter.
        apply (group_rows_sorted ["Region"] "Cases" rs [] g); try assumption;
          constructor. }
    intros [k z] [k' z'] Ha Hb. apply filter_In in Ha as [Ha _], Hb as [Hb _].
    destruct (Hshape _ Ha) as [s E]. destruct (Hshape _ Hb) as [s' E'].
    simpl in E, E'. subst k k'. unfold group_before, region_before. simpl fst.
    rewrite !cell_with_hover_other by discriminate.
    rewrite !cell_with_coords_other by discriminate.
    change (cell "Region" (group_row ["Region"] "Cases" ([VStr s], z))) with (VStr s).
    change (cell "Region" (group_row ["Region"] "Cases" ([VStr s'], z'))) with (VStr s').
    simpl. now rewrite andb_false_r, orb_false_r.
Qed.

(** X9.  On every frame of case records whose counts are non-negative and
    stay within int64, and for every year of which some record belongs to
    a region of the coordinate table, the frame the map is drawn from has
    the columns Region, Cases, lat, lon, Hover; the row of region r with
    total t, coordinates (lat, lon) and hover text "r: t total cases" is
    in it exactly when the coordinate table gives (lat, lon) for r, some
    record of that year has region r, and t is the total of the cases of
    those records; and its rows come in ascending order of region name,
    one per region. *)
Theorem map_rows (st : Store) (l : loc) (f : DataFrame) (year : Z) :
  nth_error st l = Some f ->
  case_records f = true ->
  counts_nonneg f = true ->
  sums_fit f = true ->
  (exists rec, In rec (rows f) /\ year_is year rec = true /\ known_region rec = true) ->
  exists l' st' out,
    df_total l year st = Ok (l', st') /\
    nth_error st' l' = Some out /\
    columns out = ["Region"; "Cases"; "lat"; "lon"; "Hover"] /\
    (forall row, In row (rows out) ->
       exists s t la lo, row = map_row s t la lo) /\
    (forall s t la lo,
       In (map_row s t la lo) (rows out) <->
       coords_of s REGION_COORDS = Some (la, lo) /\
       (exists rec, In rec (rows f) /\ region_is s rec = true /\ year_is year rec = true) /\
       t = column_sum "Cases"
             (filter (fun rec => region_is s rec && year_is year rec) (rows f))) /\
    StronglySorted region_before (rows out) /\
    NoDup (map (cell "Region") (rows out)).
Proof.
  intros Hl Hf _ Hfit (rec0 & Hrec0 & HY0 & HK0).
  pose proof (sums_fit_int64 f Hfit) as H64. apply sums_fit_spec in Hfit.
  assert (Hexact : forall s,
            wrap64 (column_sum "Cases"
                      (filter (region_is s) (filter (year_is year) (rows f)))) =
            column_sum "Cases"
              (filter (fun rec => region_is s rec && year_is year rec) (rows f))).
  { intros s. rewrite column_sum_fits.
    - rewrite filter_filter. f_equal. apply filter_ext. intros x0. apply andb_comm.
    - pose proof (column_abs_sum_filter "Cases" (year_is year) (rows f)) as Hle. lia. }
  destruct (df_total_run st l f year Hl Hf) as (g & Hg & Hrun).
  destruct (case_records_inv f Hf) as (_ & _ & _ & Hrows).
  cbv zeta in Hrun. cbn [rows] in Hrun.
  assert (Hsel : forall r, In r (filter (year_is year) (rows f)) ->
                   is_case_record r = true).
  { intros r Hr. apply filter_In in Hr as [Hr _]. auto. }
  assert (Hsel64 : forall r, In r (filter (year_is year) (rows f)) ->
                     int64 (int_of (cell "Cases" r)) = true).
  { intros r Hr. apply filter_In in Hr as [Hr _]. now apply (int64_counts_inv f H64). }
  destruct (filter known_region (map (group_row ["Region"] "Cases") g))
    as [|x rest] eqn:E.
  { exfalso. assert (Hno : known_region rec0 = false).
    { apply (proj1 (shown_groups _ g Hsel Hg) E). apply filter_In. auto. }
    congruence. }
  rewrite <- E in Hrun. cbn [map] in Hrun. rewrite E in Hrun at 1. cbn [map] in Hrun.
  eexists. eexists. eexists. split; [exact Hrun|].
  split.
  { rewrite nth_error_app2 by lia.
    replace (S (List.length st) - List.length st)%nat with 1%nat by lia. reflexivity. }
  split; [reflexivity|]. cbn [rows].
  destruct (region_groups _ g Hsel Hsel64 Hg) as (_ & Hgroups & _).
  destruct (shown_rows _ g Hsel Hg) as [Hrow Hsorted]. cbv zeta in Hrow, Hsorted.
  split; [|split; [|split]].
  - intros row Hin. apply Hrow in Hin as (s & t & la & lo & _ & _ & ->).
    now exists s, t, la, lo.
  - intros s t la lo. rewrite Hrow. split.
    + intros (s' & t' & la' & lo' & He & Hc & Heq).
      injection Heq as <- <- <- <-. split; [assumption|].
      apply Hgroups in He as [(rec & Hrec & HR) ->].
      apply filter_In in Hrec as [Hrec HY]. split; [now exists rec|].
      apply Hexact.
    + intros (Hc & (rec & Hrec & HR & HY) & ->). exists s. eexists. exists la, lo.
      split; [|split; [assumption | reflexivity]].
      apply Hgroups. split.
      * exists rec. split; [|assumption]. apply filter_In. auto.
      * symmetry. apply Hexact.
  - exact Hsorted.
  - exact (sorted_rows_NoDup _ _ _ region_before_differ Hsorted).
Qed.

Lemma map_rows_witness :
  exists l' st' out,
    df_total 0%nat 2019 [records_example] = Ok (l', st') /\
    nth_error st' l' = Some out /\
    In [("Region", VStr "Tripoli"); ("Cases", VInt 13);
        ("lat", VFloat 34.4367); ("lon", VFloat 35.8308);
        ("Hover", VStr "Tripoli: 13 total cases")] (rows out) /\
    ~ (exists t la lo, In (map_row "Keserwan-Jbeil" t la lo) (rows out)).
Proof.
  destruct (map_rows [records_example] 0%nat records_example 2019
              eq_refl eq_refl eq_refl eq_refl)
    as (l' & st' & out & Hrun & Hout & _ & _ & Hiff & _ & _).
  { exists (case_row "Tripoli" 2019 3). split; [now left | split; reflexivity]. }
  exists l', st', out. split; [exact Hrun|]. split; [exact Hout|]. split.
  - apply (Hiff "Tripoli" 13 34.4367%Q 35.8308%Q). split; [reflexivity|].
    split; [|reflexivity].
    exists (case_row "Tripoli" 2019 3). split; [now left | split; reflexivity].
  - intros (t & la & lo & H). apply Hiff in H as (Hc & _). discriminate Hc.
Defined.

(** ** Largest first *)

Lemma insert_desc_sorted (c : string) (r : Row) (rs : list Row) :
  is_int (cell c r) = true ->
  Forall (fun x => is_int (cell c x) = true) rs ->
  StronglySorted (total_not_below c) rs ->
  StronglySorted (total_not_below c) (insert_desc c r rs).
Proof.
  intros Hr Hints Hs. induction Hs as [|r' rs Hs IH Hall]; simpl.
  - repeat constructor.
  - inversion Hints as [|? ? Hr' Hints']; subst.
    destruct (cell c r) as [|a| | |] eqn:Ea; try discriminate.
    destruct (cell c r') as [|b| | |] eqn:Eb; try discriminate.
    simpl. destruct (Z.ltb_spec a b) as [Hab|Hab].
    + constructor; [now apply IH|].
      apply (Permutation_Forall (Permutation_sym (insert_desc_perm c r rs))).
      constructor; [|assumption].
      unfold total_not_below. rewrite Ea, Eb. simpl. lia.
    + constructor; [now constructor|]. constructor.
      * unfold total_not_below. rewrite Ea, Eb. simpl. lia.
      * rewrite Forall_forall in *. intros x Hx. specialize (Hall x Hx).
        unfold total_not_below in *. rewrite Ea. rewrite Eb in Hall. simpl in *. lia.
Qed.

Lemma sort_desc_sorted (c : string) (rs : list Row) :
  Forall (fun x => is_int (cell c x) = true) rs ->
  StronglySorted (total_not_below c) (fold_right (insert_desc c) [] rs).
Proof.
  induction 1 as [|r rs Hr Hrs IH]; simpl; [constructor|].
  apply insert_desc_sorted; try assumption.
  apply (Permutation_Forall (Permutation_sym (sort_desc_perm c rs))). assumption.
Qed.

(** X10.  On every frame of case records with int64 counts, the bar chart
    has the row (r, t) exactly when some record has region r and t is the
    int64 sum of the cases of the records of r (their total, wrapped
    around when it leaves the range); its rows are rows of that kind, and
    they come with the larger totals first. *)
Theorem bar_rows (f : DataFrame) :
  case_records f = true ->
  int64_counts f = true ->
  exists out,
    region_totals_df f = Ok out /\
    columns out = ["Region"; "Total Cases"] /\
    (forall row, In row (rows out) -> exists s t, row = bar_row s t) /\
    (forall s t,
       In (bar_row s t) (rows out) <->
       (exists rec, In rec (rows f) /\ region_is s rec = true) /\
       t = wrap64 (column_sum "Cases" (filter (region_is s) (rows f)))) /\
    StronglySorted (total_not_below "Total Cases") (rows out).
Proof.
  intros Hf H64. destruct (region_totals_df_run f Hf) as (g & Hg & Hrun).
  destruct (case_records_inv f Hf) as (_ & _ & _ & Hrows).
  destruct (region_groups _ g Hrows (int64_counts_inv f H64) Hg) as (Hshape & Hgroups & _).
  eexists. split; [exact Hrun|]. split; [reflexivity|]. simpl rows.
  assert (Hrow : forall row,
            In row (fold_right (insert_desc "Total Cases") [] (map total_row g)) <->
            exists s t, In ([VStr s], t) g /\ row = bar_row s t).
  { intros row. split.
    - intros Hin. apply (Permutation_in _ (sort_desc_perm _ _)) in Hin.
      apply in_map_iff in Hin as ([k z] & <- & He).
      destruct (Hshape _ He) as [s E]. simpl in E. subst k. now exists s, z.
    - intros (s & t & He & ->).
      apply (Permutation_in _ (Permutation_sym (sort_desc_perm _ _))).
      apply in_map_iff. now exists ([VStr s], t). }
  split; [|split].
  - intros row Hin. apply Hrow in Hin as (s & t & _ & ->). now exists s, t.
  - intros s t. rewrite Hrow, <- Hgroups. split.
    + intros (s' & t' & He & E). now injection E as <- <-.
    + intros He. now exists s, t.
  - apply sort_desc_sorted. apply Forall_forall. intros row Hin.
    apply in_map_iff in Hin as ([k z] & <- & _). reflexivity.
Qed.

Lemma bar_rows_witness :
  (exists out,
     region_totals_df records_example = Ok out /\
     In (bar_row "Tripoli" 17) (rows out) /\
     StronglySorted (total_not_below "Total Cases") (rows out)) /\
  (exists out,
     region_totals_df overflow_example = Ok out /\
     In (bar_row "Beirut" (- 2 ^ 63)) (rows out)).
Proof.
  split.
  - destruct (bar_rows records_example eq_refl eq_refl)
      as (out & Hrun & _ & _ & Hiff & Hs).
    exists out. split; [exact Hrun|]. split; [|exact Hs].
    apply Hiff. split; [|reflexivity].
    exists (case_row "Tripoli" 2019 3). split; [now left | reflexivity].
  - destruct (bar_rows overflow_example eq_refl eq_refl)
      as (out & Hrun & _ & _ & Hiff & _).
    exists out. split; [exact Hrun|].
    apply Hiff. split; [|reflexivity].
    exists (case_row "Beirut" 2019 (2 ^ 63 - 1)). split; [now left | reflexivity].
Defined.

(** ** The headline region *)

Lemma total_by_region_run (f : DataFrame) :
  case_records f = true ->
  exists g,
    group_rows ["Region"] "Cases" (rows f) [] = Ok g /\
    total_by_region f =
    Ok (mkDataFrame ["Region"; "Cases"]
          (fold_right (insert_desc "Cases") []
             (map (group_row ["Region"] "Cases") g))).
Proof.
  intros Hf. destruct (case_records_inv f Hf) as (HR & HY & HC & Hrows).
  destruct (group_rows_total ["Region"] "Cases" (rows f) []) as [g Hg].
  { intros r Hr. apply case_record_summand. auto. }
  exists g. split; [assumption|]. unfold total_by_region.
  rewrite (groupby_sum_run _ ["Region"] "Cases" g); simpl; try assumption.
  - reflexivity.
  - now rewrite HR.
Qed.

(** X11.  On case records with int64 counts, the headline names a region
    whose total no region exceeds, and the number that goes with it is
    that total, the totals being the int64 sums of the cases (wrapped
    around when they leave the range); on a frame without rows both
    lookups raise IndexError. *)
Theorem headline_region (f : DataFrame) :
  case_records f = true ->
  int64_counts f = true ->
  (rows f = [] ->
   top_region f = Exception IndexError /\ total_cases f = Exception IndexError) /\
  (rows f <> [] ->
   exists s t,
     top_region f = Value (VStr s) /\
     total_cases f = Value (VInt t) /\
     (exists rec, In rec (rows f) /\ region_is s rec = true) /\
     t = wrap64 (column_sum "Cases" (filter (region_is s) (rows f))) /\
     forall s',
       (exists rec, In rec (rows f) /\ region_is s' rec = true) ->
       wrap64 (column_sum "Cases" (filter (region_is s') (rows f))) <= t).
Proof.
  intros Hf H64. destruct (total_by_region_run f Hf) as (g & Hg & Hrun).
  destruct (case_records_inv f Hf) as (_ & _ & _ & Hrows).
  destruct (region_groups _ g Hrows (int64_counts_inv f H64) Hg) as (Hshape & Hgroups & _).
  unfold top_region, total_cases. rewrite Hrun. simpl of_result. simpl and_then.
  split.
  - intros E. rewrite E in Hg. injection Hg as <-. simpl. auto.
  - intros Hne.
    assert (Hsorted : StronglySorted (total_not_below "Cases")
              (fold_right (insert_desc "Cases") []
                 (map (group_row ["Region"] "Cases") g))).
    { apply sort_desc_sorted. apply Forall_forall. intros row Hin.
      apply in_map_iff in Hin as ([k z] & <- & _). now rewrite cell_group_row_cases. }
    assert (Hperm := sort_desc_perm "Cases" (map (group_row ["Region"] "Cases") g)).
    destruct (fold_right _ _ _) as [|top rest] eqn:Esorted.
    { exfalso. apply Permutation_nil in Hperm.
      destruct (rows f) as [|rec rs] eqn:Er; [contradiction|].
      destruct (case_record_cells rec (Hrows rec (or_introl eq_refl)))
        as (s & _ & _ & HR & _).
      assert (Hin : In ([VStr s],
                        wrap64 (column_sum "Cases" (filter (region_is s) (rec :: rs)))) g).
      { apply Hgroups. split; [|reflexivity]. exists rec. split; [now left|].
        unfold region_is. now rewrite HR, String.eqb_refl. }
      apply (in_map (group_row ["Region"] "Cases")) in Hin. rewrite Hperm in Hin.
      contradiction. }
    assert (Htop : In top (map (group_row ["Region"] "Cases") g)).
    { apply (Permutation_in _ Hperm). now left. }
    apply in_map_iff in Htop as ([k t] & <- & He).
    destruct (Hshape _ He) as [s E]. simpl in E. subst k.
    exists s, t. simpl first_item. simpl and_then.
    split; [reflexivity|]. split; [reflexivity|].
    pose proof (proj1 (Hgroups s t) He) as [Hrec Ht].
    split; [assumption|]. split; [assumption|].
    intros s' Hrec'.
    assert (Hin : In (group_row ["Region"] "Cases"
                        ([VStr s'],
                         wrap64 (column_sum "Cases" (filter (region_is s') (rows f)))))
                     (group_row ["Region"] "Cases" ([VStr s], t) :: rest)).
    { apply (Permutation_in _ (Permutation_sym Hperm)). apply in_map.
      apply Hgroups. auto. }
    destruct Hin as [E|Hin].
    + injection E as _ <-. lia.
    + inversion Hsorted as [|? ? _ Hall]; subst. rewrite Forall_forall in Hall.
      apply Hall in Hin. unfold total_not_below in Hin. exact Hin.
Qed.

Lemma headline_region_witness :
  (exists s t,
     top_region records_example = Value (VStr s) /\
     total_cases records_example = Value (VInt t) /\
     5 <= t) /\
  top_region overflow_example = Value (VStr "Akkar") /\
  total_cases overflow_example = Value (VInt 4).
Proof.
  split.
  - destruct (headline_region records_example eq_refl eq_refl) as [_ H].
    destruct H as (s & t & Htop & Htotal & _ & _ & Hmax); [discriminate|].
    exists s, t. split; [exact Htop|]. split; [exact Htotal|].
    apply (Hmax "Beqaa Valley"). exists (case_row "Beqaa Valley" 2019 5).
    split; [right; now left | reflexivity].
  - destruct (headline_region overflow_example eq_refl eq_refl) as [_ H].
    destruct H as (s & t & Htop & Htotal & _ & _ & _); [discriminate|].
    assert (Es : Value (VStr "Akkar") = Value (VStr s)) by exact Htop.
    assert (Et : Value (VInt 4) = Value (VInt t)) by exact Htotal.
    injection Es as <-. injection Et as <-. split; [exact Htop | exact Htotal].
Defined.

(** ** Coordinates, twice *)

Lemma set_cell_same_value (c : string) (v : value) (r : Row) :
  lookup c r = Some v -> set_cell c v r = r.
Proof.
  induction r as [|[k w] r IH]; simpl; [discriminate|].
  destruct (String.eqb_spec c k) as [->|N].
  - now intros [= ->].
  - intros H. now rewrite IH.
Qed.

Lemma add_label_present (c : string) (cols : list string) :
  has_label c cols = true -> add_label c cols = cols.
Proof. intros H. unfold add_label. now rewrite H. Qed.

Lemma with_coords_twice (r : Row) : with_coords (with_coords r) = with_coords r.
Proof.
  unfold with_coords at 1. rewrite cell_with_coords_other by discriminate.
  rewrite (set_cell_same_value "lat").
  - apply set_cell_same_value. unfold with_coords. apply lookup_set_cell_same.
  - unfold with_coords. rewrite lookup_set_cell_other by discriminate.
    apply lookup_set_cell_same.
Qed.

Lemma known_with_coords (r : Row) : known_region (with_coords r) = known_region r.
Proof. unfold known_region. now rewrite cell_with_coords_other by discriminate. Qed.

Lemma filter_twice {A : Type} (p : A -> bool) (l : list A) :
  filter p (filter p l) = filter p l.
Proof.
  rewrite filter_filter. apply filter_ext. intros x. apply andb_diag.
Qed.

(** X12.  Attaching coordinates twice is the same as attaching them once:
    a second call on the frame the first call returned returns a frame
    equal to it, and leaves the one it was given as it was. *)
Theorem add_coordinates_twice (st : Store) (l : loc) (f : DataFrame) :
  nth_error st l = Some f ->
  has_label "Region" (columns f) = true ->
  exists l1 st1 out,
    add_coordinates l st = Ok (l1, st1) /\
    nth_error st1 l1 = Some out /\
    exists l2 st2,
      add_coordinates l1 st1 = Ok (l2, st2) /\
      l2 <> l1 /\
      nth_error st2 l2 = Some out /\
      nth_error st2 l1 = Some out.
Proof.
  intros Hl HR.
  set (out := mkDataFrame (columns (with_coords_frame f))
                (map with_coords (filter known_region (rows f)))).
  set (st1 := (store_set l (with_coords_frame f) st ++ [out])%list).
  assert (Hlen : List.length st1 = S (List.length st)).
  { unfold st1. rewrite length_app, length_store_set. simpl. lia. }
  assert (Hout : nth_error st1 (List.length st) = Some out).
  { unfold st1. rewrite <- (length_store_set l (with_coords_frame f) st).
    apply nth_error_new. }
  assert (HR' : has_label "Region" (columns out) = true).
  { simpl. now rewrite !has_label_add_other by discriminate. }
  assert (Hfix : with_coords_frame out = out).
  { unfold with_coords_frame, out. simpl. f_equal.
    - rewrite (add_label_present "lat").
      + apply add_label_present, has_label_add_same.
      + rewrite has_label_add_other by discriminate. apply has_label_add_same.
    - rewrite map_map. apply map_ext. intros r. apply with_coords_twice. }
  assert (Hrows : map with_coords
                    (filter (fun r => in_table (cell "Region" r)) (rows out)) = rows out).
  { change (fun r : Row => in_table (cell "Region" r)) with known_region.
    unfold out. simpl. rewrite filter_map_swap.
    rewrite (filter_ext _ _ known_with_coords), filter_twice.
    rewrite map_map. apply map_ext. intros r. apply with_coords_twice. }
  exists (List.length st), st1, out.
  split; [apply (add_coordinates_run st l f Hl HR)|]. split; [exact Hout|].
  eexists. eexists.
  split; [apply (add_coordinates_run st1 (List.length st) out Hout HR')|].
  rewrite Hfix, Hrows. split; [lia|]. split.
  - rewrite <- (length_store_set (List.length st) out st1). 
    replace (mkDataFrame (columns out) (rows out)) with out by now destruct out.
    apply nth_error_new.
  - rewrite nth_error_app1 by (rewrite length_store_set; lia).
    apply nth_error_store_set_same. lia.
Qed.

Lemma add_coordinates_twice_witness :
  exists l1 st1 out,
    add_coordinates 0%nat [totals_example] = Ok (l1, st1) /\
    nth_error st1 l1 = Some out /\
    exists l2 st2,
      add_coordinates l1 st1 = Ok (l2, st2) /\
      l2 <> l1 /\
      nth_error st2 l2 = Some out /\
      nth_error st2 l1 = Some out.
Proof.
  exact (add_coordinates_twice [totals_example] 0%nat totals_example eq_refl eq_refl).
Defined.

(** ** The options of the two selectors *)

Lemma In_unique (v : value) (l : list value) : In v (unique l) <-> In v l.
Proof.
  induction l as [|a l IH]; simpl; [reflexivity|].
  rewrite filter_In, IH, negb_true_iff. split.
  - intros [H|[H _]]; auto.
  - intros [H|H]; [now left|].
    destruct (value_eqb v a) eqn:E; [|now right].
    apply value_eqb_eq in E. now left.
Qed.

Lemma NoDup_unique (l : list value) : NoDup (unique l).
Proof.
  induction l as [|a l IH]; simpl; constructor.
  - rewrite filter_In, negb_true_iff, value_eqb_refl. intros [_ H]. discriminate.
  - now apply NoDup_filter.
Qed.

Lemma insert_asc_perm (v : value) (l : list value) :
  Permutation (insert_asc v l) (v :: l).
Proof.
  induction l as [|w l IH]; simpl; [reflexivity|].
  destruct (value_ltb w v); [|reflexivity].
  rewrite IH. apply perm_swap.
Qed.

Lemma sorted_perm (l : list value) : Permutation (sorted l) l.
Proof.
  induction l as [|v l IH]; simpl; [reflexivity|].
  rewrite insert_asc_perm. now constructor.
Qed.

Lemma insert_asc_sorted (v : value) (l : list value) :
  plain v = true ->
  Forall (fun x => plain x = true) l ->
  ~ In v l ->
  StronglySorted value_before l ->
  StronglySorted value_before (insert_asc v l).
Proof.
  intros Pv Hp Hno Hs. induction Hs as [|w l Hs IH Hall]; simpl.
  - repeat constructor.
  - inversion Hp as [|? ? Pw Hp']; subst.
    destruct (value_ltb w v) eqn:L.
    + constructor.
      * apply IH; [assumption|]. intros Hin. apply Hno. now right.
      * apply (Permutation_Forall (Permutation_sym (insert_asc_perm v l))).
        constructor; assumption.
    + assert (Hvw : value_ltb v w = true).
      { apply value_ltb_total; try assumption.
        destruct (value_eqb w v) eqn:E; [|reflexivity].
        apply value_eqb_eq in E. subst w. exfalso. apply Hno. now left. }
      constructor; [now constructor|]. constructor; [exact Hvw|].
      rewrite Forall_forall in *. intros x Hx. unfold value_before in *.
      apply (value_ltb_trans v w x); auto.
Qed.

Lemma sorted_strict (l : list value) :
  NoDup l ->
  Forall (fun x => plain x = true) l ->
  StronglySorted value_before (sorted l).
Proof.
  induction 1 as [|v l Hv Hnd IH]; simpl; intros Hp; [constructor|].
  inversion Hp as [|? ? Pv Hp']; subst.
  apply insert_asc_sorted; auto.
  - apply (Permutation_Forall (Permutation_sym (sorted_perm l))). assumption.
  - intros Hin. apply Hv. now apply (Permutation_in _ (sorted_perm l)).
Qed.

Lemma sorted_unique_spec (l : list value) :
  Forall (fun x => plain x = true) l ->
  (forall v, In v (sorted (unique l)) <-> In v l) /\
  StronglySorted value_before (sorted (unique l)).
Proof.
  intros Hp. split.
  - intros v. split; intros H.
    + apply (proj1 (In_unique v l)). now apply (Permutation_in _ (sorted_perm _)).
    + apply (Permutation_in _ (Permutation_sym (sorted_perm _))).
      now apply (proj2 (In_unique v l)).
  - apply sorted_strict; [apply NoDup_unique|].
    apply Forall_forall. intros x Hx. apply (proj1 (In_unique x l)) in Hx.
    rewrite Forall_forall in Hp. exact (Hp x Hx).
Qed.

(** X13.  On case records, the options of the year slider are exactly the
    years that records have, each once, in ascending order.  The slider
    starts at the first of them, which is the earliest year; on a frame
    without rows there is none and asking for it raises IndexError. *)
Theorem year_options (f : DataFrame) :
  case_records f = true ->
  exists ys,
    years f = Ok ys /\
    (forall v, In v ys <-> exists rec, In rec (rows f) /\ cell "Year" rec = v) /\
    StronglySorted (fun a b => int_of a < int_of b) ys /\
    (rows f = [] -> first_year f = Exception IndexError) /\
    (rows f <> [] ->
     exists y,
       first_year f = Value (VInt y) /\
       (exists rec, In rec (rows f) /\ cell "Year" rec = VInt y) /\
       forall rec, In rec (rows f) -> y <= int_of (cell "Year" rec)).
Proof.
  intros Hf. destruct (case_records_inv f Hf) as (_ & HY & _ & Hrows).
  assert (Hint : forall v, In v (map (cell "Year") (rows f)) -> exists y, v = VInt y).
  { intros v Hv. apply in_map_iff in Hv as (rec & <- & Hrec).
    destruct (case_record_cells rec (Hrows rec Hrec)) as (_ & y & _ & _ & -> & _).
    now exists y. }
  destruct (sorted_unique_spec (map (cell "Year") (rows f))) as [Hin Hs].
  { apply Forall_forall. intros v Hv. destruct (Hint v Hv) as [y ->]. reflexivity. }
  assert (Hyears : years f = Ok (sorted (unique (map (cell "Year") (rows f))))).
  { unfold years, getitem. now rewrite HY. }
  assert (Hmem : forall v, In v (sorted (unique (map (cell "Year") (rows f)))) <->
                 exists rec, In rec (rows f) /\ cell "Year" rec = v).
  { intros v. rewrite Hin, in_map_iff. split; intros (rec & H1 & H2); exists rec; auto. }
  assert (Hs' : StronglySorted (fun a b => int_of a < int_of b)
                  (sorted (unique (map (cell "Year") (rows f))))).
  { rewrite <- (map_id (sorted _)).
    apply (StronglySorted_map_in value_before); [|exact Hs].
    intros a b Ha Hb. apply Hin in Ha, Hb.
    destruct (Hint a Ha) as [x ->]. destruct (Hint b Hb) as [y ->].
    unfold value_before. simpl. apply Z.ltb_lt. }
  eexists. split; [exact Hyears|]. split; [exact Hmem|]. split; [exact Hs'|].
  unfold first_year. rewrite Hyears. simpl of_result. simpl and_then. split.
  - intros E. rewrite E. reflexivity.
  - intros Hne. destruct (sorted _) as [|v rest] eqn:Es.
    { exfalso. destruct (rows f) as [|rec rs]; [contradiction|].
      apply (proj2 (Hmem (cell "Year" rec))). exists rec. split; [now left | reflexivity]. }
    assert (Hv : In v (v :: rest)) by now left.
    apply Hmem in Hv as (rec & Hrec & E).
    destruct (case_record_cells rec (Hrows rec Hrec)) as (_ & y & _ & _ & HYr & _).
    rewrite HYr in E. subst v. exists y. split; [reflexivity|].
    split; [now exists rec|].
    intros rec' Hrec'.
    assert (Hin' : In (cell "Year" rec') (VInt y :: rest)).
    { apply Hmem. now exists rec'. }
    destruct Hin' as [<-|Hin']; [simpl; lia|].
    inversion Hs' as [|? ? _ Hall]; subst. rewrite Forall_forall in Hall.
    apply Hall in Hin'. simpl in Hin'. lia.
Qed.

Lemma year_options_witness :
  exists ys,
    years records_example = Ok ys /\
    StronglySorted (fun a b => int_of a < int_of b) ys /\
    exists y, first_year records_example = Value (VInt y) /\
      forall rec, In rec (rows records_example) -> y <= int_of (cell "Year" rec).
Proof.
  destruct (year_options records_example eq_refl) as (ys & Hy & _ & Hs & _ & H).
  exists ys. split; [exact Hy|]. split; [exact Hs|].
  destruct H as (y & Hfirst & _ & Hmin); [discriminate|].
  exists y. split; [exact Hfirst | exact Hmin].
Defined.

(** X14.  On case records, the options of the region selector are exactly
    the regions that records have, each once, in ascending order of
    name. *)
Theorem region_options (f : DataFrame) :
  case_records f = true ->
  exists rs,
    available_regions f = Ok rs /\
    (forall v, In v rs <-> exists rec, In rec (rows f) /\ cell "Region" rec = v) /\
    StronglySorted
      (fun a b => String.ltb (text_of a) (text_of b) = true) rs.
Proof.
  intros Hf. destruct (case_records_inv f Hf) as (HR & _ & _ & Hrows).
  assert (Htext : forall v, In v (map (cell "Region") (rows f)) -> exists s, v = VStr s).
  { intros v Hv. apply in_map_iff in Hv as (rec & <- & Hrec).
    destruct (case_record_cells rec (Hrows rec Hrec)) as (s & _ & _ & -> & _).
    now exists s. }
  destruct (sorted_unique_spec (map (cell "Region") (rows f))) as [Hin Hs].
  { apply Forall_forall. intros v Hv. destruct (Htext v Hv) as [s ->]. reflexivity. }
  eexists. split; [unfold available_regions, getitem; now rewrite HR|].
  split.
  - intros v. rewrite Hin, in_map_iff.
    split; intros (rec & H1 & H2); exists rec; auto.
  - rewrite <- (map_id (sorted _)).
    apply (StronglySorted_map_in value_before); [|exact Hs].
    intros a b Ha Hb. apply Hin in Ha, Hb.
    destruct (Htext a Ha) as [x ->]. destruct (Htext b Hb) as [y ->].
    unfold value_before. simpl. auto.
Qed.

Lemma region_options_witness :
  exists rs,
    available_regions records_example = Ok rs /\
    (In (VStr "Tripoli") rs) /\
    StronglySorted
      (fun a b => String.ltb (text_of a) (text_of b) = true) rs.
Proof.
  destruct (region_options records_example eq_refl) as (rs & Hrun & Hin & Hs).
  exists rs. split; [exact Hrun|]. split; [|exact Hs].
  apply Hin. exists (case_row "Tripoli" 2019 3). split; [now left | reflexivity].
Defined.

(** ** The labels of the trend lines *)

Lemma mask_and_map {A : Type} (p q : A -> bool) (l : list A) :
  mask_and (map p l) (map q l) = map (fun x => p x && q x) l.
Proof. induction l as [|x l IH]; simpl; [reflexivity | now rewrite IH]. Qed.

Lemma series_max_ints (l : list value) :
  (forall v, In v l -> exists y, v = VInt y) ->
  l <> [] ->
  exists m, series_max l = VInt m /\ In (VInt m) l /\
            forall y, In (VInt y) l -> y <= m.
Proof.
  induction l as [|v l IH]; intros Hint Hne; [contradiction|].
  destruct (Hint v (or_introl eq_refl)) as [a ->].
  destruct l as [|w l].
  - exists a. simpl. split; [reflexivity|]. split; [now left|].
    intros y [[= ->]|[]]. lia.
  - destruct IH as (m & Hm & Hin & Hmax); [intros; apply Hint; now right | discriminate |].
    change (series_max (VInt a :: w :: l))
      with (if isna (series_max (w :: l)) then VInt a
            else if value_ltb (series_max (w :: l)) (VInt a) then VInt a
                 else series_max (w :: l)).
    rewrite Hm. simpl. destruct (Z.ltb_spec m a) as [Hlt|Hge].
    + exists a. split; [reflexivity|]. split; [now left|].
      intros y [[= ->]|Hy]; [lia|]. specialize (Hmax y Hy). lia.
    + exists m. split; [reflexivity|]. split; [now right|].
      intros y [[= ->]|Hy]; [lia|]. now apply Hmax.
Qed.

Lemma first_item_all {A : Type} (l : list A) (a : A) :
  l <> [] -> (forall x, In x l -> x = a) -> first_item l = Value a.
Proof.
  destruct l as [|x l]; [contradiction|]. intros _ H. simpl.
  now rewrite (H x (or_introl eq_refl)).
Qed.

Lemma filter_none {A : Type} (p : A -> bool) (l : list A) :
  (forall x, In x l -> p x = false) -> filter p l = [].
Proof.
  induction l as [|x l IH]; simpl; intros H; [reflexivity|].
  rewrite (H x) by now left. apply IH. intros; apply H; now right.
Qed.

(** The groups behind the trend rows of a selected region. *)
Lemma selected_trend_groups (f : DataFrame) (regions : list string)
    (g : list (list value * Z)) (r : string) :
  group_rows ["Year"; "Region"] "Cases"
    (filter (fun rec => isin regions (cell "Region" rec)) (rows f)) [] = Ok g ->
  int64_counts f = true ->
  In r regions ->
  forall y t,
    In ([VInt y; VStr r], t) g <->
    (exists rec, In rec (rows f) /\ region_is r rec = true /\ year_is y rec = true) /\
    t = wrap64 (column_sum "Cases"
                    (filter (fun rec => region_is r rec && year_is y rec) (rows f))).
Proof.
  intros Hg H64 Hr y t.
  assert (Hsel64 : forall rec,
            In rec (filter (fun rec => isin regions (cell "Region" rec)) (rows f)) ->
            int64 (int_of (cell "Cases" rec)) = true).
  { intros rec H. apply filter_In in H as [H _]. now apply (int64_counts_inv f H64). }
  assert (Hsum : column_sum "Cases"
            (filter (keyed ["Year"; "Region"] (key_eqb [VInt y; VStr r]))
               (filter (fun rec => isin regions (cell "Region" rec)) (rows f))) =
          column_sum "Cases"
            (filter (fun rec => region_is r rec && year_is y rec) (rows f))).
  { rewrite filter_filter. f_equal. apply filter_ext. intros x.
    rewrite keyed_year_region.
    destruct (region_is r x) eqn:Ex; [|now rewrite andb_false_r].
    apply (isin_region regions r x Ex) in Hr. now rewrite Hr. }
  rewrite (groups_of_rows64 _ _ _ _ _ t Hg Hsel64), existsb_exists, Hsum. split.
  - intros [(rec & Hrec & Hk) ->]. apply filter_In in Hrec as [Hrec _].
    rewrite keyed_year_region in Hk. apply andb_true_iff in Hk as [HR HY].
    split; [now exists rec | reflexivity].
  - intros [(rec & Hrec & HR & HY) ->]. split; [|reflexivity].
    exists rec. split.
    + apply filter_In. split; [assumption|]. now apply (isin_region regions r rec HR).
    + now rewrite keyed_year_region, HR, HY.
Qed.

(** What the label code computes for a selected region. *)
Lemma annotation_run (f : DataFrame) (regions : list string) (out : DataFrame)
    (r : string) :
  case_records f = true ->
  int64_counts f = true ->
  line_df f regions = Ok out ->
  In r regions ->
  ((exists rec, In rec (rows f) /\ region_is r rec = true) ->
   exists y t,
     annotation out r = Value (VInt y, VInt t, label_text r) /\
     (exists rec, In rec (rows f) /\ region_is r rec = true /\ year_is y rec = true) /\
     (forall rec, In rec (rows f) -> region_is r rec = true ->
                  int_of (cell "Year" rec) <= y) /\
     t = wrap64 (column_sum "Cases"
                     (filter (fun rec => region_is r rec && year_is y rec) (rows f)))) /\
  ((forall rec, In rec (rows f) -> region_is r rec = false) ->
   annotation out r = Exception IndexError).
Proof.
  intros Hf H64 Hrun Hr. destruct (line_df_run f regions Hf) as (g & Hg & Hrun').
  rewrite Hrun' in Hrun. injection Hrun as <-.
  destruct (case_records_inv f Hf) as (_ & _ & _ & Hrows).
  assert (Hsel : forall rec,
            In rec (filter (fun rec => isin regions (cell "Region" rec)) (rows f)) ->
            is_case_record rec = true).
  { intros rec H. apply filter_In in H as [H _]. auto. }
  destruct (year_region_groups _ g Hsel Hg) as [Hshape _].
  pose proof (selected_trend_groups f regions g r Hg H64 Hr) as Hgroups.
  set (G := map (group_row ["Year"; "Region"] "Cases") g).
  set (mine := fun row : Row => eq_text r (cell "Region" row)).
  assert (Hyear : latest_year (mkDataFrame ["Year"; "Region"; "Cases"] G) r =
                  Ok (series_max (map (cell "Year") (filter mine G)))).
  { unfold latest_year, getitem, select. simpl.
    now rewrite map_map, (select_rows_filter mine). }
  assert (Hvalue : forall x,
            latest_value (mkDataFrame ["Year"; "Region"; "Cases"] G) r x =
            first_item (map (cell "Cases")
                          (filter (fun row => mine row && eq_scalar x (cell "Year" row)) G))).
  { intros x. unfold latest_value, getitem, select. simpl.
    rewrite !map_map, (mask_and_map mine (fun row => eq_scalar x (cell "Year" row))).
    now rewrite (select_rows_filter (fun row => mine row && eq_scalar x (cell "Year" row))). }
  assert (HG : forall row, In row G ->
            exists y s t, In ([VInt y; VStr s], t) g /\ row = trend_row y s t).
  { intros row Hin. apply in_map_iff in Hin as ([k t] & <- & He).
    destruct (Hshape _ He) as (y & s & E). simpl in E. subst k. now exists y, s, t. }
  assert (Hmine : forall v, In v (map (cell "Year") (filter mine G)) ->
            exists y t, v = VInt y /\ In ([VInt y; VStr r], t) g).
  { intros v Hv. apply in_map_iff in Hv as (row & <- & Hin).
    apply filter_In in Hin as [Hin Hm].
    destruct (HG row Hin) as (y & s & t & He & ->).
    unfold mine in Hm. simpl in Hm. apply String.eqb_eq in Hm. subst s.
    now exists y, t. }
  assert (Hmine' : forall y t, In ([VInt y; VStr r], t) g ->
            In (VInt y) (map (cell "Year") (filter mine G))).
  { intros y t He. apply in_map_iff. exists (trend_row y r t). split; [reflexivity|].
    apply filter_In. split.
    - unfold G. apply in_map_iff. now exists ([VInt y; VStr r], t).
    - unfold mine. simpl. apply String.eqb_refl. }
  unfold annotation. rewrite Hyear. simpl of_result. simpl and_then. split.
  - intros (rec0 & Hrec0 & HR0).
    destruct (case_record_cells rec0 (Hrows rec0 Hrec0)) as (s0 & y0 & c0 & _ & HY0 & _).
    assert (He0 : exists t0, In ([VInt y0; VStr r], t0) g).
    { eexists. apply Hgroups. split; [|reflexivity]. exists rec0.
      split; [assumption|]. split; [assumption|].
      unfold year_is. rewrite HY0. simpl. apply Z.eqb_refl. }
    destruct He0 as [t0 He0].
    destruct (series_max_ints (map (cell "Year") (filter mine G))) as (m & Hm & Hin & Hmax).
    { intros v Hv. destruct (Hmine v Hv) as (y & _ & -> & _). now exists y. }
    { intros E. pose proof (Hmine' _ _ He0) as H. rewrite E in H. contradiction. }
    destruct (Hmine _ Hin) as (m' & t & [= <-] & He).
    pose proof (proj1 (Hgroups m t) He) as [Hrec Ht].
    exists m, t. rewrite Hm, Hvalue.
    rewrite (first_item_all _ (VInt t)).
    + simpl. split; [reflexivity|]. split; [assumption|]. split; [|assumption].
      intros rec Hrec' HR.
      destruct (case_record_cells rec (Hrows rec Hrec')) as (s & y & c & _ & HY & _).
      rewrite HY. simpl. apply Hmax. apply (Hmine' y (wrap64 (column_sum "Cases"
        (filter (fun rec => region_is r rec && year_is y rec) (rows f))))).
      apply Hgroups. split; [|reflexivity]. exists rec.
      split; [assumption|]. split; [assumption|].
      unfold year_is. rewrite HY. simpl. apply Z.eqb_refl.
    + intros E.
      assert (Hin' : In (VInt t) (map (cell "Cases")
                (filter (fun row => mine row && eq_scalar (VInt m) (cell "Year" row)) G))).
      { apply in_map_iff. exists (trend_row m r t). split; [reflexivity|].
        apply filter_In. split.
        - unfold G. apply in_map_iff. now exists ([VInt m; VStr r], t).
        - unfold mine. simpl. now rewrite String.eqb_refl, Z.eqb_refl. }
      rewrite E in Hin'. contradiction.
    + intros x Hx. apply in_map_iff in Hx as (row & <- & Hrow).
      apply filter_In in Hrow as [Hrow Hpass].
      destruct (HG row Hrow) as (y' & s' & t' & He' & ->).
      unfold mine in Hpass. simpl in Hpass.
      apply andb_true_iff in Hpass as [Hs Hy].
      apply String.eqb_eq in Hs. apply Z.eqb_eq in Hy. subst s' y'.
      pose proof (proj1 (Hgroups m t') He') as [_ Ht']. rewrite Ht, <- Ht'. reflexivity.
  - intros Hnone.
    assert (Hempty : filter mine G = []).
    { destruct (filter mine G) as [|row rest] eqn:E; [reflexivity|]. exfalso.
      destruct (Hmine (cell "Year" row)) as (y & t & _ & He).
      { now left. }
      apply Hgroups in He as [(rec & Hrec & HR & _) _].
      rewrite (Hnone rec Hrec) in HR. discriminate. }
    rewrite Hempty. simpl series_max. rewrite Hvalue.
    rewrite filter_none; [reflexivity|].
    intros row _. simpl. apply andb_false_r.
Qed.

(** X15.  The labels of the trend lines, on case records with int64
    counts.  When every selected region has a record, the loop yields one
    label per selected region, in order: it sits at the last year in which
    the region has a record, at the int64 sum of the region's cases in
    that year, and reads the region's name ('Beqaa' for 'Beqaa Valley').
    When some selected region has no record at all, the loop raises
    IndexError. *)
Theorem trend_labels (f : DataFrame) (regions : list string) (out : DataFrame) :
  case_records f = true ->
  int64_counts f = true ->
  line_df f regions = Ok out ->
  ((forall r, In r regions -> exists rec, In rec (rows f) /\ region_is r rec = true) ->
   exists labels,
     annotations out regions = Value labels /\
     Forall2
       (fun r label =>
          exists y t,
            label = (VInt y, VInt t, label_text r) /\
            (exists rec, In rec (rows f) /\ region_is r rec = true /\
                         year_is y rec = true) /\
            (forall rec, In rec (rows f) -> region_is r rec = true ->
                         int_of (cell "Year" rec) <= y) /\
            t = wrap64 (column_sum "Cases"
                            (filter (fun rec => region_is r rec && year_is y rec) (rows f))))
       regions labels) /\
  ((exists r, In r regions /\
              forall rec, In rec (rows f) -> region_is r rec = false) ->
   annotations out regions = Exception IndexError).
Proof.
  intros Hf H64 Hrun.
  cut (forall rs, incl rs regions ->
         ((forall r, In r rs -> exists rec, In rec (rows f) /\ region_is r rec = true) ->
          exists labels,
            annotations out rs = Value labels /\
            Forall2
              (fun r label =>
                 exists y t,
                   label = (VInt y, VInt t, label_text r) /\
                   (exists rec, In rec (rows f) /\ region_is r rec = true /\
                                year_is y rec = true) /\
                   (forall rec, In rec (rows f) -> region_is r rec = true ->
                                int_of (cell "Year" rec) <= y) /\
                   t = wrap64 (column_sum "Cases"
                                   (filter (fun rec => region_is r rec && year_is y rec) (rows f))))
              rs labels) /\
         ((exists r, In r rs /\
                     forall rec, In rec (rows f) -> region_is r rec = false) ->
          annotations out rs = Exception IndexError)).
  { intros H. apply H. apply incl_refl. }
  induction rs as [|r rs IH]; intros Hincl.
  - split.
    + intros _. exists []. split; [reflexivity | constructor].
    + intros (r & [] & _).
  - assert (Hr : In r regions) by (apply Hincl; now left).
    destruct (annotation_run f regions out r Hf H64 Hrun Hr) as [Hsome Hnone].
    destruct IH as [IHsome IHnone]; [intros x Hx; apply Hincl; now right|].
    split.
    + intros Hall. destruct (Hsome (Hall r (or_introl eq_refl))) as (y & t & Ha & Hfacts).
      destruct IHsome as (labels & Hl & HF); [intros x Hx; apply Hall; now right|].
      exists ((VInt y, VInt t, label_text r) :: labels). simpl.
      rewrite Ha, Hl. split; [reflexivity|]. constructor; [|assumption].
      now exists y, t.
    + intros (bad & Hbad & Hno). simpl.
      destruct (existsb (region_is r) (rows f)) eqn:Ex.
      * apply existsb_exists in Ex. destruct (Hsome Ex) as (y & t & Ha & _).
        rewrite Ha. simpl.
        destruct Hbad as [<-|Hbad].
        { destruct Ex as (rec & Hrec & HR). rewrite (Hno rec Hrec) in HR. discriminate. }
        rewrite IHnone; [reflexivity|]. now exists bad.
      * rewrite Hnone; [reflexivity|]. intros rec Hrec.
        destruct (region_is r rec) eqn:E; [|reflexivity].
        assert (existsb (region_is r) (rows f) = true)
          by (apply existsb_exists; now exists rec).
        congruence.
Qed.

Lemma trend_labels_witness :
  exists out,
    line_df records_example ["Tripoli"; "Beqaa Valley"] = Ok out /\
    annotations out ["Tripoli"; "Beqaa Valley"] =
      Value [(VInt 2020, VInt 4, "Tripoli"); (VInt 2019, VInt 5, "Beqaa")] /\
    exists out',
      line_df records_example ["Tripoli"; "Beirut"] = Ok out' /\
      annotations out' ["Tripoli"; "Beirut"] = Exception IndexError.
Proof.
  eexists. split; [reflexivity|]. split.
  - destruct (trend_labels records_example ["Tripoli"; "Beqaa Valley"] _
                eq_refl eq_refl eq_refl)
      as [H _].
    destruct H as (labels & Hl & HF).
    + intros r [<-|[<-|[]]].
      * exists (case_row "Tripoli" 2019 3). split; [now left | reflexivity].
      * exists (case_row "Beqaa Valley" 2019 5). split; [right; now left | reflexivity].
    + rewrite Hl. f_equal.
      assert (E : Value [(VInt 2020, VInt 4, "Tripoli"); (VInt 2019, VInt 5, "Beqaa")]
                  = Value labels) by exact Hl.
      now injection E as <-.
  - eexists. split; [reflexivity|].
    destruct (trend_labels records_example ["Tripoli"; "Beirut"] _
                eq_refl eq_refl eq_refl)
      as [_ H].
    apply H. exists "Beirut". split; [right; now left|].
    intros rec Hrec. simpl in Hrec.
    repeat (destruct Hrec as [<-|Hrec]; [reflexivity|]). contradiction.
Defined.
(** ** Nothing to show, and missing years *)

(** X16.  On case records whose counts are non-negative and stay within
    int64, the frame of the map cannot be built exactly when the year has
    no record of a region of the coordinate table, be it that the year has
    no record at all: writing the hover text then raises ValueError.  An
    empty list of regions is no error for the trend chart: its frame has
    the three columns and no rows. *)
Theorem empty_selections (st : Store) (l : loc) (f : DataFrame) (year : Z) :
  nth_error st l = Some f ->
  case_records f = true ->
  counts_nonneg f = true ->
  sums_fit f = true ->
  (df_total l year st = Err ValueError <->
   forall rec, In rec (rows f) -> year_is year rec = true -> known_region rec = false) /\
  ((forall rec, In rec (rows f) -> year_is year rec = false) ->
   df_total l year st = Err ValueError) /\
  line_df f [] = Ok (mkDataFrame ["Year"; "Region"; "Cases"] []).
Proof.
  intros Hl Hf _ _. destruct (case_records_inv f Hf) as (_ & _ & _ & Hrows).
  destruct (df_total_run st l f year Hl Hf) as (g & Hg & Hrun).
  cbv zeta in Hrun. cbn [rows] in Hrun.
  assert (Hsel : forall r, In r (filter (year_is year) (rows f)) ->
            is_case_record r = true).
  { intros r Hr. apply filter_In in Hr as [Hr _]. auto. }
  pose proof (shown_groups _ g Hsel Hg) as Hshown.
  assert (Hiff : df_total l year st = Err ValueError <->
            forall rec, In rec (rows f) -> year_is year rec = true ->
                        known_region rec = false).
  { split.
    - intros Herr rec Hrec HY.
      destruct (filter known_region (map (group_row ["Region"] "Cases") g))
        as [|x rest] eqn:E.
      + apply (proj1 Hshown eq_refl). apply filter_In. auto.
      + rewrite Hrun in Herr. discriminate Herr.
    - intros Hnone.
      assert (E : filter known_region (map (group_row ["Region"] "Cases") g) = []).
      { apply Hshown. intros r Hr. apply filter_In in Hr as [Hr HY]. auto. }
      rewrite E in Hrun. exact Hrun. }
  split; [exact Hiff|]. split.
  - intros Hnone. apply Hiff. intros rec Hrec HY.
    rewrite (Hnone rec Hrec) in HY. discriminate.
  - destruct (line_df_run f [] Hf) as (g' & Hg' & Hrun').
    rewrite filter_none in Hg'
      by (intros x _; unfold isin; now destruct (cell "Region" x)).
    injection Hg' as <-. exact Hrun'.
Qed.

Lemma empty_selections_witness :
  df_total 0%nat 1999 [records_example] = Err ValueError /\
  df_total 0%nat 2019 [mkDataFrame ["Region"; "Year"; "Cases"]
                         [case_row "Keserwan-Jbeil" 2019 2]] = Err ValueError /\
  line_df records_example [] = Ok (mkDataFrame ["Year"; "Region"; "Cases"] []).
Proof.
  destruct (empty_selections [records_example] 0%nat records_example 1999
              eq_refl eq_refl eq_refl eq_refl) as (_ & Hyear & Hline).
  destruct (empty_selections
              [mkDataFrame ["Region"; "Year"; "Cases"] [case_row "Keserwan-Jbeil" 2019 2]]
              0%nat _ 2019 eq_refl eq_refl eq_refl eq_refl) as (Hiff & _ & _).
  split; [|split].
  - apply Hyear. intros rec Hrec. simpl in Hrec.
    repeat (destruct Hrec as [<-|Hrec]; [reflexivity|]). contradiction.
  - apply Hiff. intros rec [<-|[]] _. reflexivity.
  - exact Hline.
Defined.

Lemma open_records_inv (f : DataFrame) :
  open_records f = true ->
  has_label "Region" (columns f) = true /\ has_label "Year" (columns f) = true /\
  has_label "Cases" (columns f) = true /\
  forall r, In r (rows f) ->
    is_text (cell "Region" r) = true /\ is_ok (summand (cell "Cases" r)) = true.
Proof.
  unfold open_records. rewrite !andb_true_iff. intros [[[H1 H2] H3] H4].
  repeat split; try assumption; apply (forallb_In _ _ r) in H4; try assumption;
    unfold is_open_record in H4;
    destruct (cell "Region" r); try discriminate;
    destruct (cell "Year" r); try discriminate;
    destruct (cell "Cases" r); try discriminate; reflexivity.
Qed.

Lemma column_sum_group_rows_all (labels : list string) (g : list (list value * Z)) :
  ~ In "Cases" labels ->
  column_sum "Cases" (map (group_row labels "Cases") g) = gsum (fun _ => true) g.
Proof.
  intros Hno. induction g as [|[k z] g IH]; simpl; [reflexivity|].
  rewrite IH. f_equal. unfold group_row, cell. simpl fst. simpl snd.
  assert (E : forall ks (vs : list value),
            ~ In "Cases" ks ->
            lookup "Cases" (combine ks vs ++ [("Cases", VInt z)])%list = Some (VInt z)).
  { induction ks as [|c ks IHk]; intros vs Hc; [reflexivity|].
    destruct vs as [|v vs]; [reflexivity|]. cbn [combine app lookup].
    destruct (String.eqb_spec "Cases" c) as [<-|_]; [exfalso; apply Hc; now left|].
    apply IHk. intros H. apply Hc. now right. }
  now rewrite E.
Qed.

(** X17.  A record loaded without a year belongs to no group of the trend
    chart.  On records with a text Region, integer Cases within int64 and
    a Year that may be missing, the totals of the bar chart add up to the
    cases of all records, and the totals of the trend chart add up to the
    cases of the records of the selected regions that have a year: a
    record without a year counts in the bar chart and is absent from the
    trend chart. *)
Theorem missing_keys_are_dropped (f : DataFrame) (regions : list string) :
  open_records f = true ->
  sums_fit f = true ->
  (exists out,
     region_totals_df f = Ok out /\
     column_sum "Total Cases" (rows out) = column_sum "Cases" (rows f)) /\
  (exists out,
     line_df f regions = Ok out /\
     column_sum "Cases" (rows out) =
     column_sum "Cases"
       (filter (fun r => isin regions (cell "Region" r)
                         && negb (isna (cell "Year" r))) (rows f))).
Proof.
  intros Hf Hfit. apply sums_fit_spec in Hfit.
  destruct (open_records_inv f Hf) as (HR & HY & HC & Hrow). split.
  - destruct (group_rows_total ["Region"] "Cases" (rows f) []) as [g Hg].
    { intros r Hr. now apply Hrow. }
    exists (mkDataFrame ["Region"; "Total Cases"]
              (fold_right (insert_desc "Total Cases") [] (map total_row g))).
    split.
    + unfold region_totals_df.
      rewrite (groupby_sum_run _ ["Region"] "Cases" g); simpl; try assumption.
      2:{ now rewrite HR. }
      unfold set_columns, sort_values_desc. simpl. do 3 f_equal.
      rewrite map_map. apply map_ext_in. intros [k z] He.
      pose proof (group_keys_length _ _ _ _ _ Hg He) as Hlen. simpl in Hlen.
      destruct k as [|v [|w k]]; try discriminate. reflexivity.
    + simpl rows.
      rewrite (column_sum_perm _ _ _ (sort_desc_perm _ _)), column_sum_total_rows.
      rewrite (group_rows_gsum _ _ (fun _ => true) _ _ _ Hg) by (simpl gabs; lia).
      simpl gsum. rewrite Z.add_0_l. f_equal. apply filter_all. intros r Hr.
      destruct (Hrow r Hr) as [Ht _]. unfold keyed, key_of. simpl.
      now destruct (cell "Region" r).
  - destruct (group_rows_total ["Year"; "Region"] "Cases"
                (filter (fun r => isin regions (cell "Region" r)) (rows f)) [])
      as [g Hg].
    { intros r Hr. apply filter_In in Hr as [Hr _]. now apply Hrow. }
    exists (mkDataFrame ["Year"; "Region"; "Cases"]
              (map (group_row ["Year"; "Region"] "Cases") g)).
    split.
    + unfold line_df, getitem. rewrite HR. simpl bind. rewrite map_map.
      unfold select.
      rewrite (select_rows_filter (fun r => isin regions (cell "Region" r))).
      rewrite (groupby_sum_run _ ["Year"; "Region"] "Cases" g); simpl; try assumption.
      * reflexivity.
      * now rewrite HY, HR.
    + simpl rows. rewrite column_sum_group_rows_all.
      2:{ simpl. intros [H|[H|[]]]; discriminate. }
      rewrite (group_rows_gsum _ _ (fun _ => true) _ _ _ Hg).
      2:{ simpl gabs.
          pose proof (column_abs_sum_filter "Cases"
                        (fun r => isin regions (cell "Region" r)) (rows f)) as Hle.
          lia. }
      simpl gsum.
      rewrite Z.add_0_l, filter_filter. f_equal. apply filter_ext. intros r.
      unfold keyed, key_of, isin. simpl.
      destruct (cell "Region" r); simpl; rewrite ?andb_false_r, ?orb_false_r;
        try reflexivity.
      now destruct (isna (cell "Year" r)); destruct (existsb _ regions).
Qed.

Lemma missing_keys_are_dropped_witness :
  (exists out,
     region_totals_df gappy_example = Ok out /\
     column_sum "Total Cases" (rows out) = 11) /\
  (exists out,
     line_df gappy_example ["Beirut"] = Ok out /\
     column_sum "Cases" (rows out) = 4).
Proof.
  exact (missing_keys_are_dropped gappy_example ["Beirut"] eq_refl eq_refl).
Defined.
